(** * msquic-build: archive normalisation, version gate and shallow fetch

    A shallow embedding of the helper functions of [run.py]
    ([_is_single_dir], [_extractzip], [extract], [versioned], [download],
    [onerror], [rm_rf], [mkdir_p], [cmd], [cd], [git_clone_shallow],
    [clone_and_checkout], [read_version_file], [add_path], [cmake_path])
    together with the properties the specification states about them.

    Python strings are [string]; the file system is a finite map from
    absolute locations to nodes; the functions of [run.py] live in a small
    state-and-exception monad that also records the external calls made. *)

From Stdlib Require Import ZArith Lia Bool List Ascii String.
From stdpp Require Import base option list strings gmap fin_maps.

Local Open Scope string_scope.
Local Open Scope Z_scope.

(** ** Python string primitives used by [run.py] *)

Module PyStr.

Definition slash : ascii := "/"%char.

(** [len(s)] *)
Definition len (s : string) : Z := Z.of_nat (String.length s).

(** [s.rstrip(c)]: drop every trailing occurrence of [c]. *)
Fixpoint rstrip (c : ascii) (s : string) : string :=
  match s with
  | EmptyString => EmptyString
  | String a r =>
      match rstrip c r with
      | EmptyString => if Ascii.eqb a c then EmptyString else String a EmptyString
      | r' => String a r'
      end
  end.

(** [s.find(c)] for a one-character needle: the first index, or [-1]. *)
Fixpoint find (c : ascii) (s : string) : Z :=
  match s with
  | EmptyString => -1
  | String a r =>
      if Ascii.eqb a c then 0
      else let n := find c r in if n =? -1 then -1 else n + 1
  end.

Fixpoint take (n : nat) (s : string) : string :=
  match n, s with
  | O, _ => EmptyString
  | S _, EmptyString => EmptyString
  | S n', String a r => String a (take n' r)
  end.

(** [s[0:n]]; a negative [n] counts from the end, as in Python. *)
Definition slice0 (s : string) (n : Z) : string :=
  if n <? 0 then take (Z.to_nat (Z.max 0 (len s + n))) s
  else take (Z.to_nat n) s.

(** Does [c] occur in [s]? *)
Fixpoint occurs (c : ascii) (s : string) : bool :=
  match s with
  | EmptyString => false
  | String a r => Ascii.eqb a c || occurs c r
  end.

(** The characters of [s] before the first [c] (all of [s] without one). *)
Fixpoint before (c : ascii) (s : string) : string :=
  match s with
  | EmptyString => EmptyString
  | String a r => if Ascii.eqb a c then EmptyString else String a (before c r)
  end.

(** [s.startswith(p)] *)
Fixpoint startswith (s p : string) : bool :=
  match p, s with
  | EmptyString, _ => true
  | String _ _, EmptyString => false
  | String b p', String a s' => Ascii.eqb a b && startswith s' p'
  end.

(** [s.endswith(p)] *)
Fixpoint endswith (s p : string) : bool :=
  match s with
  | EmptyString => String.eqb p EmptyString
  | String _ r => String.eqb s p || endswith r p
  end.

(** [s.split(c)] for a one-character separator; never the empty list. *)
Fixpoint split (c : ascii) (s : string) : list string :=
  match s with
  | EmptyString => [EmptyString]
  | String a r =>
      if Ascii.eqb a c then EmptyString :: split c r
      else match split c r with
           | [] => [String a EmptyString]
           | h :: t => String a h :: t
           end
  end.

(** The characters [str.strip()] removes.  A [string] is a sequence of
    code points below 256; among those [str.isspace()] holds of the ASCII
    white space and information separators (9-13, 28-32), of the next-line
    control U+0085 and of the no-break space U+00A0. *)
Definition is_space (a : ascii) : bool :=
  let n := nat_of_ascii a in
  ((9 <=? n)%nat && (n <=? 13)%nat) || ((28 <=? n)%nat && (n <=? 32)%nat)
  || (n =? 133)%nat || (n =? 160)%nat.

Fixpoint lstrip_ws (s : string) : string :=
  match s with
  | EmptyString => EmptyString
  | String a r => if is_space a then lstrip_ws r else s
  end.

Fixpoint rstrip_ws (s : string) : string :=
  match s with
  | EmptyString => EmptyString
  | String a r =>
      match rstrip_ws r with
      | EmptyString => if is_space a then EmptyString else String a EmptyString
      | r' => String a r'
      end
  end.

(** [s.strip()] *)
Definition strip (s : string) : string := rstrip_ws (lstrip_ws s).

(** [s.lstrip(c)]: drop every leading occurrence of [c]. *)
Fixpoint lstrip (c : ascii) (s : string) : string :=
  match s with
  | EmptyString => EmptyString
  | String a r => if Ascii.eqb a c then lstrip c r else s
  end.

(** [s.strip(c)] for a one-character set. *)
Definition strip_char (c : ascii) (s : string) : string := rstrip c (lstrip c s).

(** [s.split(c, maxsplit)]: at most [maxsplit] cuts, from the left. *)
Fixpoint split_max (c : ascii) (s : string) (maxsplit : nat) : list string :=
  match s with
  | EmptyString => [EmptyString]
  | String a r =>
      match maxsplit with
      | O => [s]
      | S n =>
          if Ascii.eqb a c then EmptyString :: split_max c r n
          else match split_max c r maxsplit with
               | [] => [String a EmptyString]
               | h :: t => String a h :: t
               end
      end
  end.

(** [s.count(c)] *)
Fixpoint count (c : ascii) (s : string) : nat :=
  match s with
  | EmptyString => O
  | String a r => if Ascii.eqb a c then S (count c r) else count c r
  end.

(** [s.replace(x, y)] for one-character [x] and [y]. *)
Fixpoint replace (x y : ascii) (s : string) : string :=
  match s with
  | EmptyString => EmptyString
  | String a r => String (if Ascii.eqb a x then y else a) (replace x y r)
  end.

Definition LF : ascii := "010"%char.
Definition CR : ascii := "013"%char.
(** The double quote. *)
Definition dquote : ascii := ascii_of_nat 34.
Definition backslash : ascii := ascii_of_nat 92.

(** What a file opened for reading in text mode hands out: [\r\n] and a
    lone [\r] both read as [\n] (universal newlines). *)
Fixpoint universal_newlines (s : string) : string :=
  match s with
  | EmptyString => EmptyString
  | String a r =>
      if Ascii.eqb a CR then
        match r with
        | String b r' =>
            if Ascii.eqb b LF then String LF (universal_newlines r')
            else String LF (universal_newlines r)
        | EmptyString => String LF EmptyString
        end
      else String a (universal_newlines r)
  end.

(** The lines of a text, each with its terminating [\n] (the last one may
    lack it). *)
Fixpoint keepends (s : string) : list string :=
  match s with
  | EmptyString => []
  | String a r =>
      if Ascii.eqb a LF then String a EmptyString :: keepends r
      else match keepends r with
           | [] => [String a EmptyString]
           | h :: t => String a h :: t
           end
  end.

End PyStr.

(** ** Root detection: [_is_single_dir] *)

Section SingleDir.

(** [Info] stands for [zipfile.ZipInfo] or [tarfile.TarInfo]; the two
    accessors are the lambdas the callers pass. *)
Context {Info : Type}.
Variable get_name : Info -> string.
Variable is_dir : Info -> bool.

(** One turn of the loop body up to the assignment of [dir]; [None] is the
    early [return None] for a file sitting at the archive root. *)
Definition entry_dir (info : Info) : option string :=
  let name := get_name info in
  let n := PyStr.find PyStr.slash (PyStr.rstrip PyStr.slash name) in
  if n =? -1 then
    if negb (is_dir info) then None
    else Some (PyStr.rstrip PyStr.slash name)
  else Some (PyStr.slice0 name n).

(** The [for] loop, with [dirname] as the loop-carried variable. *)
Fixpoint single_dir_loop (infos : list Info) (dirname : option string)
  : option string :=
  match infos with
  | [] => dirname
  | info :: rest =>
      match entry_dir info with
      | None => None
      | Some dir =>
          match dirname with
          | Some d =>
              if bool_decide (d <> dir) then None
              else single_dir_loop rest (Some dir)
          | None => single_dir_loop rest (Some dir)
          end
      end
  end.

Definition _is_single_dir (infos : list Info) : option string :=
  single_dir_loop infos None.

(** The first path segment of an entry name: what precedes the first
    separator once trailing separators are stripped. *)
Definition top_segment (info : Info) : string :=
  PyStr.before PyStr.slash (PyStr.rstrip PyStr.slash (get_name info)).

(** The entry sits directly at the archive root. *)
Definition at_root (info : Info) : bool :=
  negb (PyStr.occurs PyStr.slash (PyStr.rstrip PyStr.slash (get_name info))).

(** The entry is the directory [d] itself, or lies below it. *)
Definition under_dir (d : string) (info : Info) : Prop :=
  (PyStr.rstrip PyStr.slash (get_name info) = d /\ is_dir info = true)
  \/ exists rest, PyStr.rstrip PyStr.slash (get_name info) = d +:+ "/" +:+ rest.

End SingleDir.

(** ** Archives and the file system *)

(** A zip member as [zipfile.ZipInfo] presents it, with its stored bytes. *)
Record ZipInfo := mkZipInfo {
  zi_filename : string;
  zi_external_attr : Z;
  zi_data : string
}.

(** [ZipInfo.is_dir()] *)
Definition zip_is_dir (z : ZipInfo) : bool := PyStr.endswith (zi_filename z) "/".

Inductive tartype := REGTYPE | DIRTYPE | SYMTYPE.

(** A tar member as [tarfile.TarInfo] presents it. *)
Record TarInfo := mkTarInfo {
  ti_name : string;
  ti_type : tartype;
  ti_mode : Z;
  ti_linkname : string;
  ti_data : string
}.

(** [TarInfo.isdir()] *)
Definition tar_isdir (t : TarInfo) : bool :=
  match ti_type t with DIRTYPE => true | _ => false end.

(** An absolute location: the path segments from the root. *)
Abbreviation loc := (list string).

(** What a regular file holds.  An archive on disk is represented by its
    member list, which is what [tarfile.open] and [zipfile.ZipFile] hand to
    the program. *)
Inductive content :=
| Text (s : string)
| TarBytes (members : list TarInfo)
| ZipBytes (infolist : list ZipInfo).

Inductive node :=
| File (c : content) (mode : Z)
| Dir
| Symlink (target : string).

(** The process-visible state: the file system and the working directory. *)
Record world := World {
  w_fs : gmap loc node;
  w_cwd : loc
}.

Inductive exn :=
| FileNotFoundError
| FileExistsError
| IsADirectoryError
| NotADirectoryError
| OSError (msg : string)
| TypeError
| IndexError
| ValueError
| ReadError
| BadZipFile
| UnicodeDecodeError
| CalledProcessError (returncode : Z) (argv : list string)
| PyException (msg : string)
| StepError (payload : string).

Inductive result (A : Type) :=
| Ok (a : A)
| Raise (e : exn).
Arguments Ok {A} a.
Arguments Raise {A} e.

(** Values passed through [*args] and [**kwargs]. *)
Inductive pyval :=
| PNone
| PBool (b : bool)
| PInt (z : Z)
| PStr (s : string).

(** Python truthiness, as [if kwargs.get('ignore_version'):] tests it. *)
Definition truthy (v : pyval) : bool :=
  match v with
  | PNone => false
  | PBool b => b
  | PInt z => negb (z =? 0)
  | PStr s => negb (String.eqb s "")
  end.

(** What the program does to the outside: a process it spawns (the
    arguments given to [cmd] and the working directory), or a call of the
    function wrapped by [versioned]. *)
Inductive event :=
| EvRun (args : list string) (cwd : loc)
| EvCall (version : string) (args : list pyval) (kwargs : gmap string pyval).

(** The environment the script runs in. *)
Class Host := {
  (** [platform.system()] *)
  platform_system : string;
  (** [shutil.which] *)
  which : string -> world -> option string;
  (** [subprocess.run]: the exit status and the file system left behind *)
  subprocess_run : list string -> world -> Z * gmap loc node;
  (** [urllib.parse.urlparse(url).path] *)
  urlparse_path : string -> string
}.

(** *** Paths *)

Module Path.

(** [os.path.join(a, b)] (POSIX) *)
Definition join (a b : string) : string :=
  if PyStr.startswith b "/" then b
  else if String.eqb a "" || PyStr.endswith a "/" then a +:+ b
  else a +:+ "/" +:+ b.

(** [p[:p.rfind('/') + 1]] *)
Fixpoint head (p : string) : string :=
  match p with
  | EmptyString => EmptyString
  | String a r => if PyStr.occurs PyStr.slash p then String a (head r) else EmptyString
  end.

(** [os.path.dirname(p)] (POSIX) *)
Definition dirname (p : string) : string :=
  let h := head p in
  match PyStr.rstrip PyStr.slash h with
  | EmptyString => h
  | h' => h'
  end.

Definition step (acc : loc) (seg : string) : loc :=
  if String.eqb seg "" || String.eqb seg "." then acc
  else if String.eqb seg ".." then removelast acc
  else (acc ++ [seg])%list.

(** Lexical normalisation of the segments [segs] walked from [base]. *)
Definition norm (base : loc) (segs : list string) : loc :=
  fold_left step segs base.

(** The location a path string names when the working directory is
    [cwd]; the empty path names nothing. *)
Definition locate (cwd : loc) (p : string) : option loc :=
  if String.eqb p "" then None
  else Some (norm (if PyStr.startswith p "/" then [] else cwd)
                  (PyStr.split PyStr.slash p)).

Definition parent (l : loc) : loc := removelast l.

(** The last component of [p] that is not empty is [.]: the path names a
    directory through its own [.] entry, as [msquic/.] and [.] do. *)
Definition dot_end (p : string) : bool :=
  String.eqb
    (List.last (List.filter (fun x => negb (String.eqb x ""))
                            (PyStr.split PyStr.slash p)) "")
    ".".

(** A path written without [.] or [..] components and without a trailing
    separator.  For such a path lexical normalisation adds nothing to what
    the operating system does with the components. *)
Definition plain (p : string) : bool :=
  forallb (fun x => negb (String.eqb x "." || String.eqb x ".."))
          (PyStr.split PyStr.slash p)
  && negb (String.eqb (List.last (PyStr.split PyStr.slash p) "") "").

Fixpoint is_prefix (l k : loc) : bool :=
  match l, k with
  | [], _ => true
  | _ :: _, [] => false
  | a :: l', b :: k' => String.eqb a b && is_prefix l' k'
  end.

End Path.

(** *** The file system

    Paths are resolved lexically: [..] steps back one segment, and a
    symbolic link is followed when it is the last component of a path (up
    to [symloop_max] links), not when it stands for a directory in the
    middle of one.  Operations fail for structural reasons only (a missing
    parent, a node of the wrong kind); permissions are recorded, not
    enforced.  A directory is known by its place: one removed and made
    anew at the same place is the same directory. *)

Module FS.

Definition symloop_max : nat := 40.

(** The mode of a newly created file: [0o644] (0o666 under umask 0o022). *)
Definition default_mode : Z := 420.

(** The root is always a directory. *)
Definition node_at (fs : gmap loc node) (l : loc) : option node :=
  match l with
  | [] => Some Dir
  | _ => fs !! l
  end.

(** Follow the links at [l] to a node that exists ([stat]). *)
Fixpoint follow (n : nat) (fs : gmap loc node) (l : loc) : option loc :=
  match node_at fs l with
  | Some (Symlink t) =>
      match n with
      | O => None
      | S n' =>
          match Path.locate (Path.parent l) t with
          | Some l' => follow n' fs l'
          | None => None
          end
      end
  | Some _ => Some l
  | None => None
  end.

(** Follow the links at [l] to the place a file would be opened for
    writing: an existing node, or the missing end of a dangling chain. *)
Fixpoint follow_new (n : nat) (fs : gmap loc node) (l : loc) : option loc :=
  match node_at fs l with
  | Some (Symlink t) =>
      match n with
      | O => None
      | S n' =>
          match Path.locate (Path.parent l) t with
          | Some l' => follow_new n' fs l'
          | None => None
          end
      end
  | _ => Some l
  end.

Definition stat (fs : gmap loc node) (l : loc) : option node :=
  match follow symloop_max fs l with
  | Some l' => node_at fs l'
  | None => None
  end.

(** Remove [l] and everything below it. *)
Definition prune (l : loc) (fs : gmap loc node) : gmap loc node :=
  filter (fun kv => Path.is_prefix l kv.1 = false) fs.

(** Remove everything below [l], and keep [l]. *)
Definition empty_out (l : loc) (fs : gmap loc node) : gmap loc node :=
  filter (fun kv => Path.is_prefix l kv.1 = false \/ kv.1 = l) fs.

(** Is there a node strictly below [l]? *)
Definition has_children (l : loc) (fs : gmap loc node) : bool :=
  bool_decide (filter (fun kv => Path.is_prefix l kv.1 = true /\ kv.1 <> l) fs <> ∅).

(** Move the subtree at [src] to [dst]. *)
Definition graft (src dst : loc) (fs : gmap loc node) : gmap loc node :=
  map_fold (fun k v acc =>
              if Path.is_prefix src k
              then <[(dst ++ drop (length src) k)%list := v]> acc
              else acc)
           (prune dst (prune src fs)) fs.

(** [open(l, 'w').write(data)] at a location. *)
Definition write (l : loc) (data : content) (fs : gmap loc node)
  : result unit * gmap loc node :=
  match follow_new symloop_max fs l with
  | None => (Raise (OSError "ELOOP"), fs)
  | Some t =>
      match node_at fs t with
      | Some Dir => (Raise IsADirectoryError, fs)
      | Some (File _ m) => (Ok tt, <[t := File data m]> fs)
      | Some (Symlink _) => (Raise (OSError "ELOOP"), fs)
      | None =>
          match node_at fs (Path.parent t) with
          | Some Dir => (Ok tt, <[t := File data default_mode]> fs)
          | Some _ => (Raise NotADirectoryError, fs)
          | None => (Raise FileNotFoundError, fs)
          end
      end
  end.

(** [os.makedirs(base/segs, exist_ok=True)], one segment at a time. *)
Fixpoint mkdirs (base : loc) (segs : list string) (fs : gmap loc node)
  : result unit * gmap loc node :=
  match segs with
  | [] => (Ok tt, fs)
  | s :: rest =>
      let l := (base ++ [s])%list in
      match node_at fs l with
      | None => mkdirs l rest (<[l := Dir]> fs)
      | Some Dir => mkdirs l rest fs
      | Some (Symlink _) =>
          match rest, stat fs l with
          | [], Some Dir => (Ok tt, fs)
          | [], _ => (Raise FileExistsError, fs)
          | _ :: _, _ => (Raise NotADirectoryError, fs)
          end
      | Some (File _ _) =>
          match rest with
          | [] => (Raise FileExistsError, fs)
          | _ :: _ => (Raise NotADirectoryError, fs)
          end
      end
  end.

(** [os.mkdir] unless the directory is already there. *)
Definition ensure_dir (l : loc) (fs : gmap loc node)
  : result unit * gmap loc node :=
  match stat fs l with
  | Some Dir => (Ok tt, fs)
  | _ =>
      match node_at fs l with
      | Some _ => (Raise FileExistsError, fs)
      | None =>
          match node_at fs (Path.parent l) with
          | Some Dir => (Ok tt, <[l := Dir]> fs)
          | Some _ => (Raise NotADirectoryError, fs)
          | None => (Raise FileNotFoundError, fs)
          end
      end
  end.

(** [os.symlink(target, l)] at a location. *)
Definition symlink (target : string) (l : loc) (fs : gmap loc node)
  : result unit * gmap loc node :=
  match node_at fs l with
  | Some _ => (Raise FileExistsError, fs)
  | None =>
      match node_at fs (Path.parent l) with
      | Some Dir => (Ok tt, <[l := Symlink target]> fs)
      | Some _ => (Raise NotADirectoryError, fs)
      | None => (Raise FileNotFoundError, fs)
      end
  end.

(** [os.remove] at a location. *)
Definition unlink (l : loc) (fs : gmap loc node)
  : result unit * gmap loc node :=
  match node_at fs l with
  | None => (Raise FileNotFoundError, fs)
  | Some Dir => (Raise IsADirectoryError, fs)
  | Some _ => (Ok tt, delete l fs)
  end.

(** [os.chmod] at a location; links are followed. *)
Definition chmod (l : loc) (m : Z) (fs : gmap loc node)
  : result unit * gmap loc node :=
  match follow symloop_max fs l with
  | None => (Raise FileNotFoundError, fs)
  | Some t =>
      match node_at fs t with
      | Some (File c _) => (Ok tt, <[t := File c m]> fs)
      | _ => (Ok tt, fs)
      end
  end.

(** [os.replace(src, dst)] at locations. *)
Definition replace (src dst : loc) (fs : gmap loc node)
  : result unit * gmap loc node :=
  match node_at fs src with
  | None => (Raise FileNotFoundError, fs)
  | Some n =>
      if bool_decide (src = dst) then (Ok tt, fs)
      else if Path.is_prefix src dst then (Raise (OSError "EINVAL"), fs)
      else
        match node_at fs (Path.parent dst) with
        | Some Dir =>
            match n, node_at fs dst with
            | Dir, Some Dir =>
                if has_children dst fs then (Raise (OSError "ENOTEMPTY"), fs)
                else (Ok tt, graft src dst fs)
            | Dir, Some _ => (Raise NotADirectoryError, fs)
            | _, Some Dir => (Raise IsADirectoryError, fs)
            | _, _ => (Ok tt, graft src dst fs)
            end
        | Some _ => (Raise NotADirectoryError, fs)
        | None => (Raise FileNotFoundError, fs)
        end
  end.

End FS.

(** ** The monad of the script: state, exceptions and a trace *)

Definition M (A : Type) : Type := world -> result A * world * list event.

Definition ret {A} (a : A) : M A := fun w => (Ok a, w, []).

Definition raise {A} (e : exn) : M A := fun w => (Raise e, w, []).

Definition bind {A B} (m : M A) (k : A -> M B) : M B :=
  fun w =>
    match m w with
    | (Ok a, w1, t1) => let '(r, w2, t2) := k a w1 in (r, w2, (t1 ++ t2)%list)
    | (Raise e, w1, t1) => (Raise e, w1, t1)
    end.

(** [try: m] with the outcome handed to the continuation. *)
Definition attempt {A} (m : M A) : M (result A) :=
  fun w => let '(r, w1, t1) := m w in (Ok r, w1, t1).

Definition emit (e : event) : M unit := fun w => (Ok tt, w, [e]).

Declare Scope py_scope.
Delimit Scope py_scope with py.
Notation "x ← y ; z" := (bind y (fun x => z))
  (at level 20, y at level 100, z at level 200, only parsing) : py_scope.
Notation "y ;; z" := (bind y (fun _ => z))
  (at level 100, z at level 200, only parsing, right associativity) : py_scope.
Local Open Scope py_scope.

(** [for x in xs: body(x)] *)
Fixpoint for_each {A} (body : A -> M unit) (xs : list A) : M unit :=
  match xs with
  | [] => ret tt
  | x :: rest => body x ;; for_each body rest
  end.

Definition final {A} (o : result A * world * list event) : world := o.1.2.
Definition outcome {A} (o : result A * world * list event) : result A := o.1.1.
Definition trace {A} (o : result A * world * list event) : list event := o.2.
Arguments final {A} !o /.
Arguments outcome {A} !o /.
Arguments trace {A} !o /.

(** ** The library calls of [run.py] *)

Module OS.

Definition lift (f : gmap loc node -> result unit * gmap loc node) : M unit :=
  fun w => let '(r, fs') := f (w_fs w) in (r, World fs' (w_cwd w), []).

Definition at_path {A} (p : string) (f : loc -> M A) : M A :=
  fun w =>
    match Path.locate (w_cwd w) p with
    | Some l => f l w
    | None => (Raise FileNotFoundError, w, [])
    end.

Definition stat_path (w : world) (p : string) : option node :=
  match Path.locate (w_cwd w) p with
  | Some l => FS.stat (w_fs w) l
  | None => None
  end.

Definition lstat_path (w : world) (p : string) : option node :=
  match Path.locate (w_cwd w) p with
  | Some l => FS.node_at (w_fs w) l
  | None => None
  end.

(** [os.path.exists] *)
Definition exists_ (w : world) (p : string) : bool :=
  bool_decide (is_Some (stat_path w p)).
Definition path_exists (p : string) : M bool := fun w => (Ok (exists_ w p), w, []).

(** [os.path.isfile] *)
Definition isfile_ (w : world) (p : string) : bool :=
  match stat_path w p with Some (File _ _) => true | _ => false end.
Definition path_isfile (p : string) : M bool := fun w => (Ok (isfile_ w p), w, []).

(** [os.path.isdir] *)
Definition isdir_ (w : world) (p : string) : bool :=
  match stat_path w p with Some Dir => true | _ => false end.
Definition path_isdir (p : string) : M bool := fun w => (Ok (isdir_ w p), w, []).

(** [os.path.islink] *)
Definition islink_ (w : world) (p : string) : bool :=
  match lstat_path w p with Some (Symlink _) => true | _ => false end.
Definition path_islink (p : string) : M bool := fun w => (Ok (islink_ w p), w, []).

(** [os.remove] *)
Definition remove (p : string) : M unit := at_path p (fun l => lift (FS.unlink l)).

(** [os.chmod] *)
Definition chmod (p : string) (m : Z) : M unit :=
  at_path p (fun l => lift (FS.chmod l m)).

(** [os.symlink(src, dst)] *)
Definition symlink (src dst : string) : M unit :=
  at_path dst (fun l => lift (FS.symlink src l)).

(** [os.makedirs(p, exist_ok=True)] *)
Definition makedirs (p : string) : M unit :=
  at_path p (fun l => lift (FS.mkdirs [] l)).

(** [os.access(p, os.W_OK)].  Permissions are recorded, not enforced:
    whatever exists can be written. *)
Definition access_w (p : string) : M bool := fun w => (Ok (exists_ w p), w, []).

(** [os.rmdir(p)]: the directory must be empty, and the operating system
    refuses the root ([EBUSY]) and a path that names the directory through
    its [.] entry ([EINVAL]). *)
Definition rmdir (p : string) : M unit :=
  at_path p (fun l => lift (fun fs =>
    match FS.node_at fs l with
    | Some Dir =>
        if Path.dot_end p then (Raise (OSError "EINVAL"), fs)
        else
          match l with
          | [] => (Raise (OSError "EBUSY"), fs)
          | _ => if FS.has_children l fs then (Raise (OSError "ENOTEMPTY"), fs)
                 else (Ok tt, delete l fs)
          end
    | Some _ => (Raise NotADirectoryError, fs)
    | None => (Raise FileNotFoundError, fs)
    end)).

(** [shutil.rmtree(p, onerror=handler)].  On a directory, what lies below
    [p] is removed and then [os.rmdir(p)] is called; if that fails, the
    directory is left behind, emptied, and the handler is called with
    [os.rmdir], the path and the error, and ends the call.  On anything
    but a directory the first step fails already. *)
Definition rmtree (p : string)
  (handler : (string -> M unit) -> string -> exn -> M unit) : M unit :=
  at_path p (fun l w =>
    match FS.node_at (w_fs w) l with
    | Some Dir =>
        match rmdir p (World (FS.empty_out l (w_fs w)) (w_cwd w)) with
        | (Raise e, w1, _) => handler rmdir p e w1
        | r => r
        end
    | Some (Symlink _) =>
        (Raise (OSError "Cannot call rmtree on a symbolic link"), w, [])
    | Some (File _ _) => (Raise NotADirectoryError, w, [])
    | None => (Raise FileNotFoundError, w, [])
    end).

(** [os.replace(src, dst)]; a directory named through its [.] entry
    cannot be renamed ([EBUSY]). *)
Definition replace (src dst : string) : M unit :=
  at_path src (fun ls => at_path dst (fun ld => lift (fun fs =>
    match Path.dot_end src, FS.node_at fs ls with
    | true, Some Dir => (Raise (OSError "EBUSY"), fs)
    | _, _ => FS.replace ls ld fs
    end))).

(** [os.getcwd()]; the absolute path it returns is kept as a location.
    It fails once the working directory is no longer there. *)
Definition getcwd : M loc :=
  fun w =>
    match FS.node_at (w_fs w) (w_cwd w) with
    | Some Dir => (Ok (w_cwd w), w, [])
    | _ => (Raise FileNotFoundError, w, [])
    end.

Definition enter (l : loc) : M unit :=
  fun w =>
    match FS.follow FS.symloop_max (w_fs w) l with
    | None => (Raise FileNotFoundError, w, [])
    | Some t =>
        match FS.node_at (w_fs w) t with
        | Some Dir => (Ok tt, World (w_fs w) t, [])
        | _ => (Raise NotADirectoryError, w, [])
        end
    end.

(** [os.chdir(p)] *)
Definition chdir (p : string) : M unit := at_path p enter.

(** [open(p).read()]: a read in text mode, which hands out [\r\n] and a
    lone [\r] as [\n]. *)
Definition read_text (p : string) : M string :=
  fun w =>
    match stat_path w p with
    | Some (File (Text s) _) => (Ok (PyStr.universal_newlines s), w, [])
    | Some (File _ _) => (Raise UnicodeDecodeError, w, [])
    | Some Dir => (Raise IsADirectoryError, w, [])
    | _ => (Raise FileNotFoundError, w, [])
    end.

(** [open(p).readlines()] *)
Definition readlines (p : string) : M (list string) :=
  s ← read_text p;
  ret (PyStr.keepends s).

(** [with open(p, 'w') as f: f.write(s)].  The text is stored as given;
    the [\r\n] a Windows host stores for each [\n], and reads back as
    [\n], is left out. *)
Definition write_text (p : string) (s : string) : M unit :=
  at_path p (fun l => lift (FS.write l (Text s))).

(** [tarfile.open(p)], then [getmembers()] *)
Definition tarfile_open (p : string) : M (list TarInfo) :=
  fun w =>
    match stat_path w p with
    | Some (File (TarBytes ms) _) => (Ok ms, w, [])
    | Some (File _ _) => (Raise ReadError, w, [])
    | Some Dir => (Raise IsADirectoryError, w, [])
    | _ => (Raise FileNotFoundError, w, [])
    end.

(** [zipfile.ZipFile(p)], then [infolist()] *)
Definition zipfile_open (p : string) : M (list ZipInfo) :=
  fun w =>
    match stat_path w p with
    | Some (File (ZipBytes zs) _) => (Ok zs, w, [])
    | Some (File _ _) => (Raise BadZipFile, w, [])
    | Some Dir => (Raise IsADirectoryError, w, [])
    | _ => (Raise FileNotFoundError, w, [])
    end.

(** The directory members are extracted into; the empty path is the
    working directory. *)
Definition extract_base (w : world) (path : string) : loc :=
  match Path.locate (w_cwd w) path with
  | Some l => l
  | None => w_cwd w
  end.

(** The segments of a member name that extraction keeps. *)
Definition safe_parts (name : string) : list string :=
  List.filter (fun x => negb (String.eqb x "" || String.eqb x "." || String.eqb x ".."))
              (PyStr.split PyStr.slash name).

(** Create the directories above [target] unless they are there. *)
Definition upperdirs (target : loc) (fs : gmap loc node)
  : result unit * gmap loc node :=
  match FS.stat fs (Path.parent target) with
  | Some _ => (Ok tt, fs)
  | None => FS.mkdirs [] (Path.parent target) fs
  end.

Definition seq_fs (f g : gmap loc node -> result unit * gmap loc node)
  (fs : gmap loc node) : result unit * gmap loc node :=
  match f fs with
  | (Ok _, fs1) => g fs1
  | (Raise e, fs1) => (Raise e, fs1)
  end.

(** [ZipFile._extract_member]: a directory is created, anything else is
    written as a regular file holding the stored bytes. *)
Definition zip_extract_member (base : loc) (z : ZipInfo) : M unit :=
  let parts := safe_parts (zi_filename z) in
  let target := (base ++ parts)%list in
  match parts, zip_is_dir z with
  | [], false => raise ValueError
  | _, true => lift (seq_fs (upperdirs target) (FS.ensure_dir target))
  | _, false => lift (seq_fs (upperdirs target) (FS.write target (Text (zi_data z))))
  end.

(** [ZipFile.extractall(path)] *)
Definition zip_extractall (zs : list ZipInfo) (path : string) : M unit :=
  fun w => for_each (zip_extract_member (extract_base w path)) zs w.

(** [TarFile._extract_member]: files with their mode, directories, and
    symbolic links as links. *)
Definition tar_extract_member (base : loc) (t : TarInfo) : M unit :=
  let target := (base ++ safe_parts (ti_name t))%list in
  match ti_type t with
  | REGTYPE =>
      lift (seq_fs (upperdirs target)
             (seq_fs (FS.write target (Text (ti_data t)))
                     (FS.chmod target (Z.land (ti_mode t) 4095))))
  | DIRTYPE => lift (seq_fs (upperdirs target) (FS.ensure_dir target))
  | SYMTYPE =>
      lift (seq_fs (upperdirs target)
             (seq_fs (fun fs => match FS.node_at fs target with
                                | Some (File _ _) | Some (Symlink _) => FS.unlink target fs
                                | _ => (Ok tt, fs)
                                end)
                     (FS.symlink (ti_linkname t) target)))
  end.

(** [TarFile.extractall(path)] *)
Definition tar_extractall (ts : list TarInfo) (path : string) : M unit :=
  fun w => for_each (tar_extract_member (extract_base w path)) ts w.

End OS.

(** ** The functions of [run.py] *)

(** The function a [@versioned] decorator wraps: it receives the version,
    the remaining positional and keyword arguments, and acts on the world. *)
Definition step : Type :=
  string -> list pyval -> gmap string pyval -> world -> result pyval * world.

(** [0o120000], the file-type bits of a symbolic link. *)
Definition S_IFLNK : Z := 40960.
(** [0o777] *)
Definition PERM_MASK : Z := 511.

Section Program.

Context `{Host}.

(** [with cd(cwd): body] -- [ChangeDirectory.__enter__] saves the working
    directory and changes it; [__exit__] restores it and lets an exception
    of the body through. *)
Definition cd {A} (cwd : string) (body : M A) : M A :=
  old ← OS.getcwd;
  OS.chdir cwd ;;
  r ← attempt body;
  OS.enter old ;;
  match r with
  | Ok a => ret a
  | Raise e => raise e
  end.

(** [cmd(args)] as every caller here uses it: no keyword argument, hence
    [check=True] and [resolve=True]. *)
Definition cmd (args : list string) : M unit :=
  match args with
  | [] => raise IndexError
  | a0 :: rest =>
      fun w =>
        match which a0 w with
        | None => (Raise TypeError, w, [])
        | Some exe =>
            let argv := exe :: rest in
            let '(code, fs') := subprocess_run argv w in
            let w' := World fs' (w_cwd w) in
            if code =? 0 then (Ok tt, w', [EvRun args (w_cwd w)])
            else (Raise (CalledProcessError code argv), w', [EvRun args (w_cwd w)])
        end
  end.

Definition S_IWUSR : Z := 128.

(** The error handler given to [shutil.rmtree]: a path that cannot be
    written is made writable and [func] is tried once more; any other
    error is raised again. *)
Definition onerror (func : string -> M unit) (path : string) (exc_info : exn) : M unit :=
  a ← OS.access_w path;
  if negb a then OS.chmod path S_IWUSR ;; func path
  else raise exc_info.

Definition rm_rf (path : string) : M unit :=
  e ← OS.path_exists path;
  if negb e then ret tt
  else
    f ← OS.path_isfile path;
    l ← OS.path_islink path;
    (if f || l then OS.remove path else ret tt) ;;
    d ← OS.path_isdir path;
    if d then OS.rmtree path onerror else ret tt.

Definition mkdir_p (path : string) : M unit :=
  e ← OS.path_exists path;
  if e then ret tt else OS.makedirs path.

(** The destination [download] computes before touching anything. *)
Definition download_path (url : string) (output_dir filename : option string)
  : string :=
  let output_path :=
    match filename with
    | None => List.last (PyStr.split PyStr.slash (urlparse_path url)) ""
    | Some f => f
    end in
  match output_dir with
  | Some d => Path.join d output_path
  | None => output_path
  end.

(** The network fetch inside the [try]. *)
Definition fetch (url output_path : string) : M unit :=
  fun w =>
    match which "curl" w with
    | Some _ => cmd ["curl"; "-fLo"; output_path; url] w
    | None => cmd ["wget"; "-cO"; output_path; url] w
    end.

Definition download (url : string) (output_dir filename : option string)
  : M string :=
  let output_path := download_path url output_dir filename in
  e ← OS.path_exists output_path;
  if e then ret output_path
  else
    r ← attempt (fetch url output_path);
    match r with
    | Ok _ => ret output_path
    | Raise err =>
        e' ← OS.path_exists output_path;
        (if e' then OS.remove output_path else ret tt) ;;
        raise err
    end.

(** Calling the wrapped function is an observable event. *)
Definition invoke (func : step) (version : string) (args : list pyval)
  (kwargs : gmap string pyval) : M pyval :=
  emit (EvCall version args kwargs) ;;
  (fun w => let '(r, w') := func version args kwargs w in (r, w', [])).

(** The end of [wrapper]: call [func], then record the version. *)
Definition wrapper_run (func : step) (version version_file : string)
  (args : list pyval) (kwargs : gmap string pyval) : M pyval :=
  r ← invoke func version args kwargs;
  OS.write_text version_file version ;;
  ret r.

(** [wrapper] from the marker check on; [ret PNone] is the bare [return]. *)
Definition wrapper_check (func : step) (version version_file : string)
  (args : list pyval) (kwargs : gmap string pyval) : M pyval :=
  e ← OS.path_exists version_file;
  if e then
    ver ← OS.read_text version_file;
    if String.eqb (PyStr.strip ver) (PyStr.strip version) then ret PNone
    else wrapper_run func version version_file args kwargs
  else wrapper_run func version version_file args kwargs.

(** [versioned(func)] is [wrapper]: first the handling of
    [ignore_version], which is removed from the keyword arguments. *)
Definition versioned (func : step) (version version_file : string)
  (args : list pyval) (kwargs : gmap string pyval) : M pyval :=
  kwargs' ← match kwargs !! "ignore_version" with
            | Some v =>
                (if truthy v then rm_rf version_file else ret tt) ;;
                ret (delete "ignore_version" kwargs)
            | None => ret kwargs
            end;
  wrapper_check func version version_file args kwargs'.

Definition is_single_dir_tar (t : list TarInfo) : option string :=
  _is_single_dir ti_name tar_isdir t.

Definition is_single_dir_zip (z : list ZipInfo) : option string :=
  _is_single_dir zi_filename zip_is_dir z.

(** The body of the loop of [_extractzip] for one member. *)
Definition extractzip_entry (path : string) (info : ZipInfo) : M unit :=
  if zip_is_dir info then ret tt
  else
    let filepath := Path.join path (zi_filename info) in
    let mod_ := Z.shiftr (zi_external_attr info) 16 in
    (if Z.land mod_ S_IFLNK =? S_IFLNK then
       src ← OS.read_text filepath;
       OS.remove filepath ;;
       cd (Path.dirname filepath)
          (e ← OS.path_exists src;
           if e then OS.symlink src filepath else ret tt)
     else ret tt) ;;
    e ← OS.path_exists filepath;
    if e then OS.chmod filepath (Z.land mod_ PERM_MASK) else ret tt.

Definition _extractzip (z : list ZipInfo) (path : string) : M unit :=
  OS.zip_extractall z path ;;
  if String.eqb platform_system "Windows" then ret tt
  else for_each (extractzip_entry path) z.

Definition extract (file output_dir output_dirname : string)
  (filetype : option string) : M unit :=
  let path := Path.join output_dir output_dirname in
  if bool_decide (filetype = Some "gzip") || PyStr.endswith file ".tar.gz" then
    rm_rf path ;;
    t ← OS.tarfile_open file;
    match is_single_dir_tar t with
    | None =>
        OS.makedirs path ;;
        OS.tar_extractall t path
    | Some dir =>
        let path2 := Path.join output_dir dir in
        rm_rf path2 ;;
        OS.tar_extractall t output_dir ;;
        if bool_decide (path <> path2) then OS.replace path2 path else ret tt
    end
  else if bool_decide (filetype = Some "zip") || PyStr.endswith file ".zip" then
    rm_rf path ;;
    z ← OS.zipfile_open file;
    match is_single_dir_zip z with
    | None =>
        OS.makedirs path ;;
        _extractzip z path
    | Some dir =>
        let path2 := Path.join output_dir dir in
        rm_rf path2 ;;
        _extractzip z output_dir ;;
        if bool_decide (path <> path2) then OS.replace path2 path else ret tt
    end
  else raise (PyException "file should end with .tar.gz or .zip").


Definition git_clone_shallow (url hash dir : string) : M unit :=
  rm_rf dir ;;
  mkdir_p dir ;;
  cd dir
     (cmd ["git"; "init"] ;;
      cmd ["git"; "remote"; "add"; "origin"; url] ;;
      cmd ["git"; "fetch"; "--depth=1"; "origin"; hash] ;;
      cmd ["git"; "reset"; "--hard"; "FETCH_HEAD"]).


End Program.

(** ** Vocabulary of the specification *)

(** [ignore_version] is present among the keyword arguments and truthy. *)
Definition forced (kwargs : gmap string pyval) : bool :=
  match kwargs !! "ignore_version" with
  | Some v => truthy v
  | None => false
  end.

(** The marker exists and its contents, as a text-mode read hands them
    out and trimmed, equal the trimmed version. *)
Definition marker_matches (w : world) (version_file version : string) : bool :=
  match OS.stat_path w version_file with
  | Some (File (Text ver) _) =>
      String.eqb (PyStr.strip (PyStr.universal_newlines ver)) (PyStr.strip version)
  | _ => false
  end.

(** The marker is absent, or readable with other contents: the check of
    [versioned] lets the wrapped function run. *)
Definition marker_misses (w : world) (version_file version : string) : bool :=
  match OS.stat_path w version_file with
  | None => true
  | Some (File (Text ver) _) =>
      negb (String.eqb (PyStr.strip (PyStr.universal_newlines ver)) (PyStr.strip version))
  | Some _ => false
  end.

(** The path names something other than the root of the file system. *)
Definition not_root (w : world) (p : string) : Prop :=
  Path.locate (w_cwd w) p <> Some [].

(** No directory on the way to the place a path names is a symbolic
    link: the path is resolved component by component as it is written. *)
Definition direct (w : world) (p : string) : Prop :=
  forall l k t,
    Path.locate (w_cwd w) p = Some l ->
    Path.is_prefix k l = true -> k <> l ->
    FS.node_at (w_fs w) k <> Some (Symlink t).

(** Every node hangs below a directory. *)
Definition tree (fs : gmap loc node) : Prop :=
  forall k n, fs !! k = Some n -> FS.node_at fs (Path.parent k) = Some Dir.


(** A computation that spawns no process, calls no wrapped function and
    stays in the working directory. *)
Definition silent {A} (m : M A) : Prop :=
  forall w, trace (m w) = [] /\ w_cwd (final (m w)) = w_cwd w.

(** A property of the world that a computation maintains, whether it
    returns or raises. *)
Definition keeps {A} (P : world -> Prop) (m : M A) : Prop :=
  forall w, P w -> P (final (m w)).


(** The test [_extractzip] applies to the stored mode of a member. *)
Definition link_bits (z : ZipInfo) : bool :=
  Z.land (Z.shiftr (zi_external_attr z) 16) S_IFLNK =? S_IFLNK.


(** The wrapped function was called during a run. *)
Definition invoked {A} (o : result A * world * list event) : Prop :=
  exists version args kwargs, In (EvCall version args kwargs) (trace o).

(** ** Concrete scenarios *)

Module Scenario.

(** A POSIX host on which every program is found and exits with 0 without
    touching the file system. *)
Definition linux : Host := {|
  platform_system := "Linux";
  which := fun prog _ => Some ("/usr/bin/" +:+ prog);
  subprocess_run := fun _ w => (0, w_fs w);
  urlparse_path := fun url => url
|}.

Definition step_ok : step := fun _ _ _ w => (Ok (PStr "installed"), w).

Definition step_fail : step := fun _ _ _ w => (Raise (StepError "boom"), w).

(** A working directory [/w] with nothing in it. *)
Definition fresh : world := World {[ ["w"] := Dir ]} ["w"].

(** The same with the marker [cmake.version] holding ["1.0"]. *)
Definition marked : world :=
  World (<[ ["w"; "cmake.version"] := File (Text "1.0") 420 ]> {[ ["w"] := Dir ]}) ["w"].

Definition force : gmap string pyval := {[ "ignore_version" := PBool true ]}.

(** [external_attr] of a zip member with the given [st_mode]. *)
Definition attr (st_mode : Z) : Z := Z.shiftl st_mode 16.

(** [d/], [d/a.txt], [d/b.txt] and a file [LICENSE] at the root, as a zip
    archive: directory [0o40755], files [0o100644]. *)
Definition licensed_zip (a b l : string) : list ZipInfo :=
  [ mkZipInfo "d/" (attr 16877) "";
    mkZipInfo "d/a.txt" (attr 33188) a;
    mkZipInfo "d/b.txt" (attr 33188) b;
    mkZipInfo "LICENSE" (attr 33188) l ].

(** The same members as a tar archive. *)
Definition licensed_tar (a b l : string) : list TarInfo :=
  [ mkTarInfo "d" DIRTYPE 493 "" "";
    mkTarInfo "d/a.txt" REGTYPE 420 "" a;
    mkTarInfo "d/b.txt" REGTYPE 420 "" b;
    mkTarInfo "LICENSE" REGTYPE 420 "" l ].

(** [d/], [d/a.txt] and [d/link], stored with mode [0o120777] and the
    content ["a.txt"]: a symbolic link to its sibling. *)
Definition linked_zip : list ZipInfo :=
  [ mkZipInfo "d/" (attr 16877) "";
    mkZipInfo "d/a.txt" (attr 33188) "A";
    mkZipInfo "d/link" (attr 41471) "a.txt" ].



(** The working directory [/w] holding one archive. *)
Definition shipped (file : string) (c : content) : world :=
  World (<[ ["w"; file] := File c 420 ]> {[ ["w"] := Dir ]}) ["w"].

(** The working directory [/w] with an earlier checkout [msquic] in it. *)
Definition stale : world :=
  World (<[ ["w"; "msquic"; "stale.c"] := File (Text "old") 420 ]>
           (<[ ["w"; "msquic"] := Dir ]> {[ ["w"] := Dir ]})) ["w"].

(** The member names the comment above [_is_single_dir] gives for a tar
    file and for a zip file. *)
Definition commented_tar : list TarInfo :=
  [ mkTarInfo "path" DIRTYPE 493 "" "";
    mkTarInfo "path/to" DIRTYPE 493 "" "";
    mkTarInfo "path/to/file.txt" REGTYPE 420 "" "x" ].

Definition commented_zip : list ZipInfo :=
  [ mkZipInfo "path/" (attr 16877) "";
    mkZipInfo "path/to/" (attr 16877) "";
    mkZipInfo "path/to/file.txt" (attr 33188) "x" ].

(** The archive of the first example in the comment above [extract]. *)
Definition libsora_tar : list TarInfo :=
  [ mkTarInfo "libsora-1.23" DIRTYPE 493 "" "";
    mkTarInfo "libsora-1.23/file1" REGTYPE 420 "" "1";
    mkTarInfo "libsora-1.23/file2" REGTYPE 420 "" "2" ].

(** The working directory [/w] where [msquic] is a link to nothing. *)
Definition dangling : world :=
  World (<[ ["w"; "msquic"] := Symlink "gone" ]> {[ ["w"] := Dir ]}) ["w"].

(** A host whose programs all exit with 22, after leaving a partial file at
    their third argument. *)
Definition offline : Host := {|
  platform_system := "Linux";
  which := fun prog _ => Some ("/usr/bin/" +:+ prog);
  subprocess_run := fun argv w =>
    match argv with
    | [_; _; out; _] =>
        match Path.locate (w_cwd w) out with
        | Some l => (22, <[ l := File (Text "partial") 420 ]> (w_fs w))
        | None => (22, w_fs w)
        end
    | _ => (22, w_fs w)
    end;
  urlparse_path := fun url => url
|}.

End Scenario.

(** ** The claims that do not hold as stated *)

(** C3 as the specification words it: whenever the marker file exists and
    its trimmed contents equal the trimmed version, the wrapped function is
    not called and the marker is left as it is. *)
Definition C3_as_stated : Prop :=
  forall (func : step) version version_file args kwargs w,
    marker_matches w version_file version = true ->
    let o := versioned func version version_file args kwargs w in
    ~ invoked o
    /\ OS.stat_path (final o) version_file = OS.stat_path w version_file.

(** C4 as the specification words it: whenever the wrapped function raises,
    the exception reaches the caller and the marker is what it was before
    the call. *)
Definition C4_as_stated : Prop :=
  forall (func : step) version version_file args kwargs w e,
    let o := versioned func version version_file args kwargs w in
    invoked o ->
    (forall v a k w1, func v a k w1 = (Raise e, w1)) ->
    outcome o = Raise e
    /\ OS.stat_path (final o) version_file = OS.stat_path w version_file.

(** C7 as the specification words it: with a truthy [ignore_version] the
    wrapped function is always called. *)
Definition C7_as_stated : Prop :=
  forall (func : step) version version_file args kwargs w,
    forced kwargs = true ->
    invoked (versioned func version version_file args kwargs w).


(** C2 as the specification words it: extracting the archive [d/],
    [d/a.txt], [d/b.txt], [LICENSE] to [out] under the name [name] yields
    [out/name/a.txt], [out/name/b.txt] and [out/LICENSE]. *)
Definition C2_as_stated : Prop :=
  forall (H : Host) (a b l : string),
    let w' := final (extract "pkg.zip" "out" "name" None
                       (Scenario.shipped "pkg.zip" (ZipBytes (Scenario.licensed_zip a b l)))) in
    (exists m, OS.stat_path w' "out/name/a.txt" = Some (File (Text a) m))
    /\ (exists m, OS.stat_path w' "out/name/b.txt" = Some (File (Text b) m))
    /\ (exists m, OS.stat_path w' "out/LICENSE" = Some (File (Text l) m)).

(** ** Further functions of [run.py] *)

(** The body of the loop of [read_version_file] for one line; the
    dictionary is threaded through. *)
Definition read_version_line (line : string) (versions : gmap string string)
  : result (gmap string string) :=
  let line := PyStr.strip line in
  if String.eqb (PyStr.slice0 line 1) "#" then Ok versions
  else if PyStr.len line =? 0 then Ok versions
  else
    match List.map PyStr.strip (PyStr.split_max "=" line 2) with
    | [a; b] => Ok (<[a := PyStr.strip_char PyStr.dquote b]> versions)
    | _ => Raise ValueError
    end.

Fixpoint read_version_lines (lines : list string) (versions : gmap string string)
  : result (gmap string string) :=
  match lines with
  | [] => Ok versions
  | line :: rest =>
      match read_version_line line versions with
      | Ok versions' => read_version_lines rest versions'
      | Raise e => Raise e
      end
  end.

Definition read_version_file (path : string) : M (gmap string string) :=
  lines ← OS.readlines path;
  match read_version_lines lines ∅ with
  | Ok versions => ret versions
  | Raise e => raise e
  end.

(** [cmake_path]: [path.replace('\\', '/')] *)
Definition cmake_path (path : string) : string :=
  PyStr.replace PyStr.backslash PyStr.slash path.

Section Tools.

Context `{Host}.

Definition PATH_SEPARATOR : string :=
  if String.eqb platform_system "Windows" then ";" else ":".

(** [add_path] acts on [os.environ] only, which is passed explicitly. *)
Definition add_path (path : string) (is_after : bool) (environ : gmap string string)
  : gmap string string :=
  match environ !! "PATH" with
  | None => <["PATH" := path]> environ
  | Some old =>
      if is_after then <["PATH" := old +:+ PATH_SEPARATOR +:+ path]> environ
      else <["PATH" := path +:+ PATH_SEPARATOR +:+ old]> environ
  end.

Definition clone_and_checkout (url version dir : string) (fetch fetch_force : bool)
  : M unit :=
  (if fetch_force then rm_rf dir else ret tt) ;;
  e ← OS.path_exists (Path.join dir ".git");
  fetch ← (if negb e then cmd ["git"; "clone"; url; dir] ;; ret true else ret fetch);
  if fetch then
    cd dir
       (cmd ["git"; "fetch"] ;;
        cmd ["git"; "reset"; "--hard"] ;;
        cmd ["git"; "clean"; "-df"] ;;
        cmd ["git"; "checkout"; "-f"; version])
  else ret tt.

(** The function [install_cmake] decorates. *)
Definition install_cmake (version source_dir install_dir platform ext : string)
  : M unit :=
  let url := "https://github.com/Kitware/CMake/releases/download/v" +:+ version
             +:+ "/cmake-" +:+ version +:+ "-" +:+ platform +:+ "." +:+ ext in
  path ← download url (Some source_dir) None;
  extract path install_dir "cmake" None.

(** The function [install_android_ndk] decorates. *)
Definition install_android_ndk (version install_dir source_dir : string) : M unit :=
  archive ← download ("https://dl.google.com/android/repository/android-ndk-"
                      +:+ version +:+ "-linux.zip") (Some source_dir) None;
  rm_rf (Path.join install_dir "android-ndk") ;;
  extract archive install_dir "android-ndk" None.

End Tools.

(** The four git invocations [clone_and_checkout] makes inside [dir]. *)
Definition checkout_commands (version : string) : list (list string) :=
  [ ["git"; "fetch"];
    ["git"; "reset"; "--hard"];
    ["git"; "clean"; "-df"];
    ["git"; "checkout"; "-f"; version] ].

(** A line [read_version_file] accepts: blank, a comment, or with exactly
    one [=]. *)
Definition version_line_ok (line : string) : bool :=
  let s := PyStr.strip line in
  String.eqb s "" || PyStr.startswith s "#" || (PyStr.count "=" s =? 1)%nat.

(** The text of a file with the given lines, each ended by a newline. *)
Definition unlines (lines : list string) : string :=
  fold_right (fun l acc => l +:+ String PyStr.LF acc) "" lines.

(** A line holds no line break of its own. *)
Definition one_line (l : string) : Prop :=
  PyStr.occurs PyStr.LF l = false /\ PyStr.occurs PyStr.CR l = false.

(** A computation that spawns no process and calls no wrapped function. *)
Definition quiet {A} (m : M A) : Prop := forall w, trace (m w) = [].

(** An entry of a version file as one writes it: key and value without
    [=], line break or outer white space, the key not opening a comment. *)
Definition clean_entry (kv : string * string) : Prop :=
  one_line kv.1 /\ one_line kv.2
  /\ PyStr.occurs "=" kv.1 = false /\ PyStr.occurs "=" kv.2 = false
  /\ PyStr.strip kv.1 = kv.1 /\ PyStr.strip kv.2 = kv.2
  /\ PyStr.startswith kv.1 "#" = false.

(** * Properties *)

Example rstrip_ex : PyStr.rstrip PyStr.slash "path/to//" = "path/to".
Proof. reflexivity. Qed.
Example find_ex : PyStr.find PyStr.slash "path/to" = 4.
Proof. reflexivity. Qed.
Example split_ex : PyStr.split PyStr.slash "/a//b/" = [""; "a"; ""; "b"; ""].
Proof. reflexivity. Qed.
Example strip_ex : PyStr.strip "  1.0
" = "1.0".
Proof. reflexivity. Qed.
Example endswith_ex : PyStr.endswith "a.tar.gz" ".tar.gz" = true /\ PyStr.endswith "gz" ".tar.gz" = false.
Proof. split; reflexivity. Qed.

(** ** Facts about the string primitives *)

Module PyStrFacts.
Import PyStr.

Lemma find_absent c s : occurs c s = false -> find c s = -1.
Proof.
  induction s as [|a r IH]; simpl; [reflexivity|].
  destruct (Ascii.eqb a c); simpl; [discriminate|].
  intros Hr. rewrite (IH Hr). reflexivity.
Qed.

Lemma find_present c s : occurs c s = true -> 0 <= find c s.
Proof.
  induction s as [|a r IH]; simpl; [discriminate|].
  destruct (Ascii.eqb a c); simpl; [lia|].
  intros Hr. specialize (IH Hr).
  destruct (Z.eqb_spec (find c r) (-1)); lia.
Qed.

Lemma find_minus1 c s : find c s = -1 <-> occurs c s = false.
Proof.
  split; [|apply find_absent].
  destruct (occurs c s) eqn:E; [|reflexivity].
  apply find_present in E. lia.
Qed.

Lemma before_absent c s : occurs c s = false -> before c s = s.
Proof.
  induction s as [|a r IH]; simpl; [reflexivity|].
  destruct (Ascii.eqb a c); simpl; [discriminate|].
  intros Hr. rewrite (IH Hr). reflexivity.
Qed.

Lemma take_find_before c s t :
  occurs c s = true -> take (Z.to_nat (find c s)) (s +:+ t) = before c s.
Proof.
  induction s as [|a r IH]; simpl; [discriminate|].
  destruct (Ascii.eqb a c); simpl; [reflexivity|].
  intros Hr. pose proof (find_present c r Hr) as Hge.
  destruct (Z.eqb_spec (find c r) (-1)); [lia|].
  replace (Z.to_nat (find c r + 1)) with (S (Z.to_nat (find c r))) by lia.
  simpl. rewrite (IH Hr). reflexivity.
Qed.

Lemma rstrip_prefix c s : exists t, s = rstrip c s +:+ t.
Proof.
  induction s as [|a r [t Ht]]; simpl; [exists ""; reflexivity|].
  destruct (rstrip c r) as [|b r'] eqn:E.
  - destruct (Ascii.eqb a c).
    + exists (String a r). reflexivity.
    + exists r. reflexivity.
  - exists t. rewrite Ht at 1. reflexivity.
Qed.

Lemma occurs_app c s t : occurs c (s +:+ t) = occurs c s || occurs c t.
Proof.
  induction s as [|a r IH]; simpl; [reflexivity|].
  rewrite IH. apply orb_assoc.
Qed.

Lemma before_app c s t :
  occurs c s = false -> before c (s +:+ String c t) = s.
Proof.
  induction s as [|a r IH]; simpl.
  - rewrite Ascii.eqb_refl. reflexivity.
  - destruct (Ascii.eqb a c); simpl; [discriminate|].
    intros Hr. rewrite (IH Hr). reflexivity.
Qed.

Lemma universal_newlines_id s :
  occurs CR s = false -> universal_newlines s = s.
Proof.
  induction s as [|a r IH]; simpl; [reflexivity|].
  destruct (Ascii.eqb a CR); simpl; [discriminate|].
  intros Hr. rewrite (IH Hr). reflexivity.
Qed.

(** What a text-mode read hands out holds no carriage return. *)
Lemma universal_newlines_clean s : occurs CR (universal_newlines s) = false.
Proof.
  assert (Hn : forall n s, (String.length s <= n)%nat ->
                           occurs CR (universal_newlines s) = false).
  { induction n as [|n IH]; intros [|a r] Hlen; try reflexivity; [simpl in Hlen; lia|].
    simpl in Hlen. destruct (Ascii.eqb_spec a CR) as [->|Hne].
    - destruct r as [|b r']; [reflexivity|]. simpl in Hlen.
      destruct (Ascii.eqb_spec b LF) as [->|Hb].
      + change (occurs CR (universal_newlines r') = false). apply IH. lia.
      + replace (universal_newlines (String CR (String b r')))
          with (String LF (universal_newlines (String b r')))
          by (simpl; apply Ascii.eqb_neq in Hb; rewrite Hb; reflexivity).
        change (occurs CR (universal_newlines (String b r')) = false).
        apply IH. simpl. lia.
    - apply Ascii.eqb_neq in Hne.
      replace (universal_newlines (String a r)) with (String a (universal_newlines r))
        by (simpl; rewrite Hne; reflexivity).
      change (Ascii.eqb a CR || occurs CR (universal_newlines r) = false).
      rewrite Hne. apply IH. lia. }
  apply (Hn (String.length s)). lia.
Qed.

Lemma universal_newlines_idem s :
  universal_newlines (universal_newlines s) = universal_newlines s.
Proof. apply universal_newlines_id, universal_newlines_clean. Qed.

End PyStrFacts.

(** ** Facts about paths *)

Module PathFacts.

Lemma split_nonempty (c : ascii) (s : string) : PyStr.split c s <> [].
Proof.
  destruct s as [|a r]; simpl; [discriminate|].
  destruct (Ascii.eqb a c); [discriminate|]. destruct (PyStr.split c r); discriminate.
Qed.

Lemma norm_snoc (base : loc) (segs : list string) (x : string) :
  Path.norm base (segs ++ [x]) = Path.step (Path.norm base segs) x.
Proof. unfold Path.norm. rewrite fold_left_app. reflexivity. Qed.

(** A plain path names a place that has a name: it is not the root. *)
Lemma plain_locate (cwd : loc) (p : string) :
  Path.plain p = true -> exists l x, Path.locate cwd p = Some (l ++ [x])%list.
Proof.
  unfold Path.plain, Path.locate. intros Hp. apply andb_true_iff in Hp as [Hall Hlast].
  destruct (exists_last (split_nonempty PyStr.slash p)) as (init & lst & Heq).
  rewrite Heq in Hall, Hlast |- *. rewrite last_last in Hlast.
  rewrite forallb_app in Hall. apply andb_true_iff in Hall as [_ Hl]. simpl in Hl.
  rewrite andb_true_r in Hl.
  destruct (String.eqb p "") eqn:Hp0.
  - apply String.eqb_eq in Hp0. subst p. simpl in Heq.
    destruct init as [|i0 [|i1 init]]; inversion Heq; subst; discriminate.
  - rewrite norm_snoc. unfold Path.step.
    apply negb_true_iff in Hlast. rewrite Hlast. simpl.
    apply negb_true_iff, orb_false_iff in Hl as [Hd Hdd].
    rewrite Hd, Hdd. eauto.
Qed.

Lemma plain_dot_end (p : string) : Path.plain p = true -> Path.dot_end p = false.
Proof.
  unfold Path.plain, Path.dot_end. intros Hp. apply andb_true_iff in Hp as [Hall _].
  apply String.eqb_neq.
  induction (PyStr.split PyStr.slash p) as [|x rest IH]; simpl in *; [discriminate|].
  apply andb_true_iff in Hall as [Hx Hrest].
  destruct (String.eqb x ""); simpl; [apply IH, Hrest|].
  destruct (List.filter _ rest) eqn:E; [|apply IH, Hrest].
  apply negb_true_iff, orb_false_iff in Hx as [Hd _].
  apply String.eqb_neq. exact Hd.
Qed.

Lemma plain_not_root (w : world) (p : string) : Path.plain p = true -> not_root w p.
Proof.
  intros Hp. destruct (plain_locate (w_cwd w) p Hp) as (l & x & Hl).
  unfold not_root. rewrite Hl. intros Heq. inversion Heq as [Hnil].
  destruct l; discriminate.
Qed.

End PathFacts.

(** ** Root detection *)

Section SingleDirFacts.

Context {Info : Type}.
Variable get_name : Info -> string.
Variable is_dir : Info -> bool.

Local Abbreviation edir := (entry_dir get_name is_dir).
Local Abbreviation loop := (single_dir_loop get_name is_dir).
Local Abbreviation top := (top_segment get_name).
Local Abbreviation root := (at_root get_name).

(** The loop body computes the first segment, and rejects a file that sits
    at the archive root. *)
Lemma entry_dir_spec info :
  edir info =
    if root info && negb (is_dir info) then None else Some (top info).
Proof.
  unfold entry_dir, at_root, top_segment.
  set (s := PyStr.rstrip PyStr.slash (get_name info)).
  destruct (PyStr.occurs PyStr.slash s) eqn:E; simpl.
  - pose proof (PyStrFacts.find_present _ _ E) as Hge.
    destruct (Z.eqb_spec (PyStr.find PyStr.slash s) (-1)); [lia|].
    f_equal. unfold PyStr.slice0.
    destruct (Z.ltb_spec (PyStr.find PyStr.slash s) 0); [lia|].
    destruct (PyStrFacts.rstrip_prefix PyStr.slash (get_name info)) as [t Ht].
    fold s in Ht. rewrite Ht at 1.
    apply PyStrFacts.take_find_before, E.
  - rewrite (PyStrFacts.find_absent _ _ E). simpl.
    destruct (is_dir info); simpl; [|reflexivity].
    rewrite (PyStrFacts.before_absent _ _ E). reflexivity.
Qed.

(** What the loop returns, in terms of the entries it walks. *)
Lemma loop_Some infos acc d :
  loop infos acc = Some d <->
    Forall (fun i => edir i = Some d) infos
    /\ (acc = None \/ acc = Some d)
    /\ (infos <> [] \/ acc = Some d).
Proof.
  revert acc. induction infos as [|i rest IH]; intros acc; simpl.
  - split.
    + intros ->. repeat split; auto.
    + intros (_ & _ & [Hne | ->]); [congruence|reflexivity].
  - destruct (edir i) as [dir|] eqn:Ei.
    + destruct acc as [a|].
      * case_bool_decide as Hd.
        -- split; [discriminate|].
           intros (Hall & [Hn | Ha] & _); [discriminate|].
           inversion Hall; subst. congruence.
        -- assert (a = dir) as -> by (destruct (decide (a = dir)); [assumption|contradiction]).
           rewrite IH. split.
           ++ intros (Hall & [Hn | Hs] & _); [discriminate|].
              inversion Hs; subst. repeat split; auto.
           ++ intros (Hall & [Hn | Hs] & _); [discriminate|].
              inversion Hs; subst. inversion Hall; subst.
              repeat split; auto.
      * rewrite IH. split.
        -- intros (Hall & [Hn | Hs] & _); [discriminate|].
           inversion Hs; subst. repeat split; auto.
        -- intros (Hall & _ & _). inversion Hall; subst.
           assert (dir = d) as -> by congruence.
           repeat split; auto.
    + split; [discriminate|].
      intros (Hall & _). inversion Hall; subst. congruence.
Qed.

Lemma is_single_dir_Some infos d :
  _is_single_dir get_name is_dir infos = Some d <->
    infos <> [] /\ Forall (fun i => edir i = Some d) infos.
Proof.
  unfold _is_single_dir. rewrite loop_Some. split.
  - intros (Hall & _ & [Hne | Hs]); [auto | discriminate].
  - intros (Hne & Hall). auto.
Qed.

Lemma under_dir_entry d info :
  PyStr.occurs PyStr.slash d = false ->
  under_dir get_name is_dir d info -> edir info = Some d.
Proof.
  intros Hd Hu. rewrite entry_dir_spec. unfold at_root, top_segment.
  destruct Hu as [[Hs Hdir] | [rest Hs]]; rewrite Hs.
  - rewrite Hdir, andb_false_r. f_equal. apply PyStrFacts.before_absent, Hd.
  - rewrite PyStrFacts.occurs_app. simpl. rewrite orb_true_r. simpl.
    f_equal. apply (PyStrFacts.before_app PyStr.slash d rest Hd).
Qed.

(** C1. Root detection ([_is_single_dir]): a non-empty archive whose
    entries all are the directory [d] or lie below it yields [Some d];
    two entries with distinct first path segments yield [None]; so does a
    non-directory entry sitting at the archive root; and so does the empty
    entry list. *)
Theorem C1_root_detection :
  (forall infos d,
      infos <> [] ->
      PyStr.occurs PyStr.slash d = false ->
      Forall (under_dir get_name is_dir d) infos ->
      _is_single_dir get_name is_dir infos = Some d)
  /\ (forall infos i j,
         In i infos -> In j infos -> top i <> top j ->
         _is_single_dir get_name is_dir infos = None)
  /\ (forall infos i,
         In i infos -> root i = true -> is_dir i = false ->
         _is_single_dir get_name is_dir infos = None)
  /\ _is_single_dir get_name is_dir [] = None.
Proof.
  split; [|split; [|split]].
  - intros infos d Hne Hd Hall. apply is_single_dir_Some. split; [assumption|].
    eapply Forall_impl; [apply Hall|]. intros i Hi. simpl.
    apply under_dir_entry; assumption.
  - intros infos i j Hi Hj Hneq.
    destruct (_is_single_dir get_name is_dir infos) as [d|] eqn:E; [|reflexivity].
    apply is_single_dir_Some in E as [_ Hall].
    rewrite List.Forall_forall in Hall.
    pose proof (Hall i Hi) as Ei. pose proof (Hall j Hj) as Ej.
    rewrite entry_dir_spec in Ei, Ej.
    destruct (root i && negb (is_dir i)); [discriminate|].
    destruct (root j && negb (is_dir j)); [discriminate|].
    congruence.
  - intros infos i Hi Hr Hd.
    destruct (_is_single_dir get_name is_dir infos) as [d|] eqn:E; [|reflexivity].
    apply is_single_dir_Some in E as [_ Hall].
    rewrite List.Forall_forall in Hall. specialize (Hall i Hi).
    rewrite entry_dir_spec, Hr, Hd in Hall. discriminate.
  - reflexivity.
Qed.

End SingleDirFacts.

(** ** The monad *)

Section MonadFacts.

Context {A B C : Type}.

Lemma bind_ret_l (a : A) (k : A -> M B) w : bind (ret a) k w = k a w.
Proof. unfold bind, ret. destruct (k a w) as [[r w2] t2]. reflexivity. Qed.

Lemma bind_assoc (m : M A) (f : A -> M B) (g : B -> M C) w :
  bind (bind m f) g w = bind m (fun a => bind (f a) g) w.
Proof.
  unfold bind. destruct (m w) as [[[a|e] w1] t1]; [|reflexivity].
  destruct (f a w1) as [[[b|e] w2] t2]; [|reflexivity].
  destruct (g b w2) as [[r w3] t3]. rewrite app_assoc. reflexivity.
Qed.

Lemma bind_Ok_nil (m : M A) (k : A -> M B) w a w1 :
  m w = (Ok a, w1, []) -> bind m k w = k a w1.
Proof.
  intros Hm. unfold bind. rewrite Hm.
  destruct (k a w1) as [[r w2] t2]. reflexivity.
Qed.

Lemma bind_Raise (m : M A) (k : A -> M B) w e w1 t1 :
  m w = (Raise e, w1, t1) -> bind m k w = (Raise e, w1, t1).
Proof. intros Hm. unfold bind. rewrite Hm. reflexivity. Qed.

Lemma bind_ext (m : M A) (k1 k2 : A -> M B) w :
  (forall a w1, k1 a w1 = k2 a w1) -> bind m k1 w = bind m k2 w.
Proof.
  intros Hk. unfold bind. destruct (m w) as [[[a|e] w1] t1]; [|reflexivity].
  rewrite Hk. reflexivity.
Qed.

(** A step that only reads the world. *)
Lemma bind_pure (f : world -> A) (k : A -> M B) w :
  bind (fun w => (Ok (f w), w, [])) k w = k (f w) w.
Proof. unfold bind. destruct (k (f w) w) as [[r w2] t2]. reflexivity. Qed.

End MonadFacts.


(** ** The file system *)

Module FSFacts.
Import FS.

Lemma node_at_insert_eq (k : loc) (v : node) (fs : gmap loc node) :
  k <> [] -> node_at (<[k := v]> fs) k = Some v.
Proof. destruct k; [congruence|]. intros _. simpl. apply lookup_insert_eq. Qed.

Lemma node_at_insert_ne (k : loc) (v : node) (fs : gmap loc node) (l : loc) :
  k <> l -> node_at (<[k := v]> fs) l = node_at fs l.
Proof. destruct l; [reflexivity|]. intros Hne. simpl. apply lookup_insert_ne, Hne. Qed.

Lemma node_at_delete_eq (k : loc) (fs : gmap loc node) :
  k <> [] -> node_at (delete k fs) k = None.
Proof. destruct k; [congruence|]. intros _. simpl. apply lookup_delete_eq. Qed.

Lemma node_at_delete_ne (k : loc) (fs : gmap loc node) (l : loc) :
  k <> l -> node_at (delete k fs) l = node_at fs l.
Proof. destruct l; [reflexivity|]. intros Hne. simpl. apply lookup_delete_ne, Hne. Qed.

Lemma is_prefix_refl l : Path.is_prefix l l = true.
Proof. induction l as [|a l IH]; simpl; [reflexivity|]. rewrite String.eqb_refl. exact IH. Qed.

Lemma lookup_prune (l : loc) (fs : gmap loc node) (k : loc) :
  prune l fs !! k = if Path.is_prefix l k then None else fs !! k.
Proof.
  unfold prune. destruct (Path.is_prefix l k) eqn:E.
  - apply map_lookup_filter_None. right. intros x _. simpl. congruence.
  - destruct (fs !! k) as [x|] eqn:Hk.
    + apply map_lookup_filter_Some. split; [assumption|exact E].
    + apply map_lookup_filter_None. left. assumption.
Qed.

Lemma node_at_prune_self (l : loc) (fs : gmap loc node) :
  l <> [] -> node_at (prune l fs) l = None.
Proof.
  destruct l as [|a l]; [congruence|]. intros _. unfold node_at.
  rewrite lookup_prune, is_prefix_refl. reflexivity.
Qed.

Lemma follow_here n fs l x :
  node_at fs l = Some x -> (forall t, x <> Symlink t) -> follow n fs l = Some l.
Proof.
  intros Hx Hns. destruct n; simpl; rewrite Hx; destruct x; try reflexivity;
    exfalso; eapply Hns; reflexivity.
Qed.

Lemma follow_absent n fs l : node_at fs l = None -> follow n fs l = None.
Proof. intros Hx. destruct n; simpl; rewrite Hx; reflexivity. Qed.

Lemma stat_absent fs l : node_at fs l = None -> stat fs l = None.
Proof. intros Hx. unfold stat. rewrite (follow_absent _ _ _ Hx). reflexivity. Qed.

Lemma stat_here fs l x :
  node_at fs l = Some x -> (forall t, x <> Symlink t) -> stat fs l = Some x.
Proof. intros Hx Hns. unfold stat. rewrite (follow_here _ _ _ _ Hx Hns). exact Hx. Qed.

Lemma follow_node n fs l t : follow n fs l = Some t -> is_Some (node_at fs l).
Proof.
  destruct n; simpl; destruct (node_at fs l); intros Hf; try discriminate; eauto.
Qed.

Lemma stat_node fs l x : stat fs l = Some x -> is_Some (node_at fs l).
Proof.
  unfold stat. destruct (follow symloop_max fs l) eqn:E; [|discriminate].
  intros _. eapply follow_node, E.
Qed.

(** What [follow] reaches is never a link. *)
Lemma follow_target n fs l t :
  follow n fs l = Some t ->
  exists x, node_at fs t = Some x /\ forall s, x <> Symlink s.
Proof.
  revert l. induction n as [|n IH]; intros l; simpl.
  - destruct (node_at fs l) as [[c m| |s]|] eqn:E; intros Hf; inversion Hf; subst;
      eexists; split; [exact E|discriminate|exact E|discriminate].
  - destruct (node_at fs l) as [[c m| |s]|] eqn:E; intros Hf.
    + inversion Hf; subst. eexists; split; [exact E|discriminate].
    + inversion Hf; subst. eexists; split; [exact E|discriminate].
    + destruct (Path.locate (Path.parent l) s); [|discriminate]. eapply IH, Hf.
    + discriminate.
Qed.

Lemma stat_not_link fs l x : stat fs l = Some x -> forall s, x <> Symlink s.
Proof.
  unfold stat. destruct (follow symloop_max fs l) as [t|] eqn:E; [|discriminate].
  destruct (follow_target _ _ _ _ E) as (y & Hy & Hns). rewrite Hy.
  intros Hx; inversion Hx; subst. exact Hns.
Qed.

End FSFacts.

(** ** The library calls *)

Module OSFacts.

Lemma at_path_lift (p : string) (f : loc -> gmap loc node -> result unit * gmap loc node)
  (w : world) (l : loc) :
  Path.locate (w_cwd w) p = Some l ->
  OS.at_path p (fun l => OS.lift (f l)) w =
    ((f l (w_fs w)).1, World (f l (w_fs w)).2 (w_cwd w), []).
Proof.
  intros Hl. unfold OS.at_path, OS.lift. rewrite Hl.
  destruct (f l (w_fs w)) as [r fs']. reflexivity.
Qed.


Lemma remove_ok (p : string) (w : world) (l : loc) (x : node) :
  Path.locate (w_cwd w) p = Some l ->
  FS.node_at (w_fs w) l = Some x -> x <> Dir ->
  OS.remove p w = (Ok tt, World (delete l (w_fs w)) (w_cwd w), []).
Proof.
  intros Hl Hx Hd. unfold OS.remove. rewrite (at_path_lift _ _ _ _ Hl).
  unfold FS.unlink. rewrite Hx. destruct x; [reflexivity|congruence|reflexivity].
Qed.

Lemma exists_stat w p : OS.exists_ w p = true <-> is_Some (OS.stat_path w p).
Proof. unfold OS.exists_. apply bool_decide_eq_true. Qed.

Lemma exists_false w p : OS.exists_ w p = false <-> OS.stat_path w p = None.
Proof.
  unfold OS.exists_. rewrite bool_decide_eq_false, <- eq_None_not_Some. reflexivity.
Qed.

Lemma stat_path_cwd (fs : gmap loc node) (c : loc) (p : string) :
  OS.stat_path (World fs c) p =
    match Path.locate c p with Some l => FS.stat fs l | None => None end.
Proof. reflexivity. Qed.

End OSFacts.

(** ** The handler of [shutil.rmtree] *)

Lemma node_at_empty_out (l : loc) (fs : gmap loc node) :
  FS.node_at (FS.empty_out l fs) l = FS.node_at fs l.
Proof.
  destruct l as [|a l]; [reflexivity|]. simpl. unfold FS.empty_out.
  destruct (fs !! (a :: l)) as [n|] eqn:E.
  - apply map_lookup_filter_Some. split; [exact E|]. right. reflexivity.
  - apply map_lookup_filter_None. left. exact E.
Qed.

Lemma has_children_empty_out (l : loc) (fs : gmap loc node) :
  FS.has_children l (FS.empty_out l fs) = false.
Proof.
  unfold FS.has_children. apply bool_decide_eq_false. intros Hne. apply Hne.
  apply map_empty. intros k. apply map_lookup_filter_None. right.
  intros n Hk [Hpre Hkl].
  apply map_lookup_filter_Some in Hk as [_ [Hno | Heq]]; simpl in *; congruence.
Qed.

Lemma delete_empty_out (l : loc) (fs : gmap loc node) :
  delete l (FS.empty_out l fs) = FS.prune l fs.
Proof.
  apply map_eq. intros k. unfold FS.empty_out, FS.prune.
  destruct (decide (l = k)) as [<-|Hne].
  - rewrite lookup_delete_eq. symmetry. apply map_lookup_filter_None. right.
    intros n _. simpl. rewrite FSFacts.is_prefix_refl. discriminate.
  - rewrite lookup_delete_ne by exact Hne.
    destruct (fs !! k) as [n|] eqn:E.
    + destruct (Path.is_prefix l k) eqn:Hp.
      * transitivity (@None node); [|symmetry]; apply map_lookup_filter_None; right;
          intros n' _; simpl; rewrite Hp; [intros [?|?]; congruence | discriminate].
      * transitivity (Some n); [|symmetry]; apply map_lookup_filter_Some;
          (split; [exact E|]); simpl; auto.
    + transitivity (@None node); [|symmetry]; apply map_lookup_filter_None; left; exact E.
Qed.

(** [shutil.rmtree] with the handler [onerror] of [run.py]: the error of
    [os.rmdir] on the emptied directory, which exists and so can be
    written, is raised again. *)
Lemma rmtree_onerror (p : string) (w : world) :
  OS.rmtree p onerror w =
    OS.at_path p (fun l => OS.lift (fun fs =>
      match FS.node_at fs l with
      | Some Dir =>
          if Path.dot_end p then (Raise (OSError "EINVAL"), FS.empty_out l fs)
          else
            match l with
            | [] => (Raise (OSError "EBUSY"), FS.empty_out l fs)
            | _ => (Ok tt, FS.prune l fs)
            end
      | Some (Symlink _) => (Raise (OSError "Cannot call rmtree on a symbolic link"), fs)
      | Some (File _ _) => (Raise NotADirectoryError, fs)
      | None => (Raise FileNotFoundError, fs)
      end)) w.
Proof.
  unfold OS.rmtree, OS.at_path. destruct (Path.locate (w_cwd w) p) as [l|] eqn:Hl;
    [|reflexivity].
  unfold OS.lift at 1.
  destruct (FS.node_at (w_fs w) l) as [[c m| |t]|] eqn:Hn; try (destruct w; reflexivity).
  set (w1 := World (FS.empty_out l (w_fs w)) (w_cwd w)).
  assert (Hd : FS.node_at (w_fs w1) l = Some Dir)
    by (unfold w1; simpl; rewrite node_at_empty_out; exact Hn).
  assert (Hsee : OS.exists_ w1 p = true).
  { apply OSFacts.exists_stat. unfold OS.stat_path. change (w_cwd w1) with (w_cwd w).
    rewrite Hl, (FSFacts.stat_here _ _ _ Hd) by discriminate. eauto. }
  assert (Hraise : forall e, onerror OS.rmdir p e w1 = (Raise e, w1, [])).
  { intros e. unfold onerror, OS.access_w. rewrite bind_pure, Hsee. reflexivity. }
  unfold OS.rmdir, OS.at_path. change (w_cwd w1) with (w_cwd w). rewrite Hl.
  unfold OS.lift. rewrite Hd.
  destruct (Path.dot_end p); [apply Hraise|].
  destruct l as [|a l]; [apply Hraise|].
  unfold w1 at 1. simpl w_fs. rewrite has_children_empty_out, delete_empty_out.
  reflexivity.
Qed.

(** ** Removal and the unsupported format: [rm_rf], [extract] *)

Section ProgramFacts.

Context `{Host}.

Ltac pure_step :=
  unfold OS.path_exists, OS.path_isfile, OS.path_isdir, OS.path_islink, OS.getcwd;
  rewrite bind_pure.

(** What [rm_rf] does to a path other than the root: it leaves nothing
    that [os.path.exists] would see, unless the path names a directory
    through its [.] entry, which [shutil.rmtree] empties and cannot
    remove. *)
Lemma rm_rf_cases p w :
  not_root w p ->
  (exists fs',
      rm_rf p w = (Ok tt, World fs' (w_cwd w), [])
      /\ OS.exists_ (World fs' (w_cwd w)) p = false
      /\ (fs' = w_fs w
          \/ exists l, Path.locate (w_cwd w) p = Some l
                       /\ ((FS.node_at (w_fs w) l <> Some Dir /\ fs' = delete l (w_fs w))
                           \/ fs' = FS.prune l (w_fs w))))
  \/ (Path.dot_end p = true
      /\ exists l, Path.locate (w_cwd w) p = Some l
                   /\ FS.node_at (w_fs w) l = Some Dir
                   /\ rm_rf p w = (Raise (OSError "EINVAL"),
                                   World (FS.empty_out l (w_fs w)) (w_cwd w), [])).
Proof.
  intros Hroot. unfold rm_rf. pure_step.
  destruct (OS.exists_ w p) eqn:Hex; simpl.
  2:{ left. exists (w_fs w). destruct w as [fs c]. simpl in *. split; [reflexivity|]. split; [exact Hex|]. left; reflexivity. }
  pure_step. pure_step.
  apply OSFacts.exists_stat in Hex. destruct Hex as [x Hx].
  unfold OS.isfile_, OS.islink_, OS.lstat_path. rewrite Hx.
  unfold OS.stat_path in Hx.
  destruct (Path.locate (w_cwd w) p) as [l|] eqn:Hl; [|discriminate].
  destruct (FSFacts.stat_node _ _ _ Hx) as [y Hy]. rewrite Hy.
  assert (Hne : l <> []) by (intros ->; apply Hroot; exact Hl).
  assert (Hgone : forall fs', FS.node_at fs' l = None ->
            OS.exists_ (World fs' (w_cwd w)) p = false).
  { intros fs' Hn. apply OSFacts.exists_false. rewrite OSFacts.stat_path_cwd, Hl.
    apply FSFacts.stat_absent, Hn. }
  destruct y as [c m| |t].
  - (* a regular file *)
    rewrite (FSFacts.stat_here _ _ _ Hy) in Hx by discriminate.
    inversion Hx; subst x. simpl. left.
    exists (delete l (w_fs w)).
    pose proof (FSFacts.node_at_delete_eq l (w_fs w) Hne) as Hd.
    split; [|split; [apply Hgone, Hd|right; exists l; split; [reflexivity|left; split; [rewrite Hy; discriminate|reflexivity]]]].
    rewrite (bind_Ok_nil _ _ _ _ _ (OSFacts.remove_ok _ _ _ _ Hl Hy ltac:(discriminate))).
    pure_step. unfold OS.isdir_. rewrite OSFacts.stat_path_cwd, Hl.
    rewrite (FSFacts.stat_absent _ _ Hd). reflexivity.
  - (* a directory *)
    rewrite (FSFacts.stat_here _ _ _ Hy) in Hx by discriminate.
    inversion Hx; subst x. simpl. rewrite bind_ret_l. pure_step.
    unfold OS.isdir_, OS.stat_path. rewrite Hl.
    rewrite (FSFacts.stat_here _ _ _ Hy) by discriminate.
    rewrite rmtree_onerror, (OSFacts.at_path_lift _ _ _ _ Hl). rewrite Hy.
    destruct (Path.dot_end p) eqn:Hdot.
    + right. split; [reflexivity|]. exists l. split; [reflexivity|]. split; [exact Hy|reflexivity].
    + left. exists (FS.prune l (w_fs w)).
      split; [|split; [apply Hgone, FSFacts.node_at_prune_self, Hne|right; exists l; split; [reflexivity|right; reflexivity]]].
      destruct l; [congruence|reflexivity].
  - (* a link *)
    replace ((match x with File _ _ => true | _ => false end) || true) with true
      by (destruct x; reflexivity).
    left. exists (delete l (w_fs w)).
    pose proof (FSFacts.node_at_delete_eq l (w_fs w) Hne) as Hd.
    split; [|split; [apply Hgone, Hd|right; exists l; split; [reflexivity|left; split; [rewrite Hy; discriminate|reflexivity]]]].
    rewrite (bind_Ok_nil _ _ _ _ _ (OSFacts.remove_ok _ _ _ _ Hl Hy ltac:(discriminate))).
    pure_step. unfold OS.isdir_. rewrite OSFacts.stat_path_cwd, Hl.
    rewrite (FSFacts.stat_absent _ _ Hd). reflexivity.
Qed.

(** [rm_rf] leaves nothing that [os.path.exists] would see, and never
    raises, for a path that is neither the root nor a directory's own [.]
    entry. *)
Lemma rm_rf_spec p w :
  not_root w p ->
  Path.dot_end p = false ->
  exists fs',
    rm_rf p w = (Ok tt, World fs' (w_cwd w), [])
    /\ OS.exists_ (World fs' (w_cwd w)) p = false
    /\ (fs' = w_fs w
        \/ exists l, Path.locate (w_cwd w) p = Some l
                     /\ ((FS.node_at (w_fs w) l <> Some Dir /\ fs' = delete l (w_fs w))
                         \/ fs' = FS.prune l (w_fs w))).
Proof.
  intros Hroot Hdot. destruct (rm_rf_cases p w Hroot) as [Hok | [Hd _]]; [exact Hok|].
  congruence.
Qed.

(** The root cannot be removed. *)
Lemma rm_rf_root p w :
  Path.locate (w_cwd w) p = Some [] -> exists e, outcome (rm_rf p w) = Raise e.
Proof.
  intros Hl. unfold rm_rf.
  unfold OS.path_exists, OS.path_isfile, OS.path_isdir, OS.path_islink.
  rewrite bind_pure.
  assert (Hs : OS.stat_path w p = Some Dir) by (unfold OS.stat_path; rewrite Hl; reflexivity).
  assert (OS.exists_ w p = true) as -> by (apply OSFacts.exists_stat; rewrite Hs; eauto).
  simpl. rewrite !bind_pure.
  unfold OS.isfile_, OS.islink_, OS.lstat_path. rewrite Hs, Hl. simpl.
  rewrite bind_ret_l, bind_pure. unfold OS.isdir_. rewrite Hs.
  rewrite rmtree_onerror. unfold OS.at_path, OS.lift. rewrite Hl. simpl.
  destruct (Path.dot_end p); eauto.
Qed.

(** Whenever [rm_rf] returns, it has spawned nothing, stayed in the working
    directory and left nothing that [os.path.exists] would see. *)
Lemma rm_rf_ok p w w1 t :
  rm_rf p w = (Ok tt, w1, t) ->
  t = [] /\ w_cwd w1 = w_cwd w /\ OS.exists_ w1 p = false
  /\ (w_fs w1 = w_fs w
      \/ exists l, Path.locate (w_cwd w) p = Some l
                   /\ ((FS.node_at (w_fs w) l <> Some Dir /\ w_fs w1 = delete l (w_fs w))
                       \/ w_fs w1 = FS.prune l (w_fs w))).
Proof.
  intros Hrm.
  assert (Hroot : not_root w p).
  { intros Hl. destruct (rm_rf_root p w Hl) as [e He]. rewrite Hrm in He. discriminate. }
  destruct (rm_rf_cases p w Hroot) as [(fs' & Hok & Hex & Hcase) | (_ & l & _ & _ & Hbad)].
  - rewrite Hok in Hrm. inversion Hrm; subst. auto.
  - rewrite Hbad in Hrm. discriminate.
Qed.

(** For a plain path [rm_rf] returns. *)
Lemma rm_rf_plain p w :
  Path.plain p = true ->
  exists fs',
    rm_rf p w = (Ok tt, World fs' (w_cwd w), [])
    /\ OS.exists_ (World fs' (w_cwd w)) p = false
    /\ (fs' = w_fs w
        \/ exists l, Path.locate (w_cwd w) p = Some l
                     /\ ((FS.node_at (w_fs w) l <> Some Dir /\ fs' = delete l (w_fs w))
                         \/ fs' = FS.prune l (w_fs w))).
Proof.
  intros Hp. apply rm_rf_spec; [apply PathFacts.plain_not_root | apply PathFacts.plain_dot_end];
    exact Hp.
Qed.

(** C8. [extract] with a format hint that is neither ['gzip'] nor ['zip']
    and a file name that ends with neither [.tar.gz] nor [.zip] raises the
    unsupported-format exception and touches nothing: the world, and with
    it the destination directory, is as before. *)
Theorem C8_unsupported_format file output_dir output_dirname filetype w :
  filetype <> Some "gzip" ->
  filetype <> Some "zip" ->
  PyStr.endswith file ".tar.gz" = false ->
  PyStr.endswith file ".zip" = false ->
  extract file output_dir output_dirname filetype w
    = (Raise (PyException "file should end with .tar.gz or .zip"), w, []).
Proof.
  intros Hg Hz Htgz Hzip. unfold extract.
  rewrite (bool_decide_eq_false_2 _ Hg), (bool_decide_eq_false_2 _ Hz), Htgz, Hzip.
  reflexivity.
Qed.

End ProgramFacts.

(** ** The version gate: [versioned] *)

Module WriteFacts.
Import FS.

Lemma follow_new_target (n : nat) (fs : gmap loc node) (l t : loc) :
  follow_new n fs l = Some t -> forall s, node_at fs t <> Some (Symlink s).
Proof.
  revert l. induction n as [|n IH]; intros l; simpl;
    destruct (node_at fs l) as [[c m| |s0]|] eqn:E; intros Hf s;
    try (inversion Hf; subst; rewrite E; discriminate).
  destruct (Path.locate (Path.parent l) s0); [|discriminate].
  eapply IH, Hf.
Qed.

(** Writing at the end of a chain of links does not disturb the chain. *)
Lemma follow_after_write (n : nat) (fs : gmap loc node) (l t : loc) (d : content) (m : Z) :
  follow_new n fs l = Some t -> t <> [] ->
  follow n (<[t := File d m]> fs) l = Some t.
Proof.
  intros Hf Hne. pose proof (follow_new_target _ _ _ _ Hf) as Hns.
  revert l Hf. induction n as [|n IH]; intros l; simpl.
  - destruct (node_at fs l) as [[c m0| |s0]|] eqn:E; intros Hf;
      inversion Hf; subst; rewrite (FSFacts.node_at_insert_eq _ _ _ Hne); reflexivity.
  - destruct (node_at fs l) as [[c m0| |s0]|] eqn:E; intros Hf;
      try (inversion Hf; subst; rewrite (FSFacts.node_at_insert_eq _ _ _ Hne); reflexivity).
    assert (t <> l) as Htl by (intros ->; eapply Hns; exact E).
    rewrite (FSFacts.node_at_insert_ne _ _ _ _ Htl), E.
    destruct (Path.locate (Path.parent l) s0); [|discriminate].
    apply IH, Hf.
Qed.

(** After a successful write the path shows a regular file with the data. *)
Lemma write_stat (l : loc) (d : content) (fs fs' : gmap loc node) :
  write l d fs = (Ok tt, fs') -> exists m, stat fs' l = Some (File d m).
Proof.
  unfold write. destruct (follow_new symloop_max fs l) as [t|] eqn:Hf; [|discriminate].
  assert (Hok : forall m, t <> [] -> stat (<[t := File d m]> fs) l = Some (File d m)).
  { intros m Hne. unfold stat. rewrite (follow_after_write _ _ _ _ d m Hf Hne).
    apply FSFacts.node_at_insert_eq, Hne. }
  destruct (node_at fs t) as [[c m| |s0]|] eqn:E; try discriminate.
  - intros Hw; inversion Hw; subst. exists m. apply Hok.
    intros ->. discriminate.
  - destruct (node_at fs (Path.parent t)) as [[c m| |s0]|]; try discriminate.
    intros Hw; inversion Hw; subst. exists default_mode. apply Hok.
    intros ->. discriminate.
Qed.

End WriteFacts.

Section VersionGate.

Implicit Types (func : step) (version version_file : string)
  (args : list pyval) (kwargs : gmap string pyval) (w : world).

(** A write never spawns a process nor calls the wrapped function. *)
Lemma write_text_trace version_file version w :
  trace (OS.write_text version_file version w) = []
  /\ w_cwd (final (OS.write_text version_file version w)) = w_cwd w.
Proof.
  unfold OS.write_text, OS.at_path.
  destruct (Path.locate (w_cwd w) version_file) as [l|]; [|split; reflexivity].
  unfold OS.lift. destruct (FS.write l (Text version) (w_fs w)) as [r fs'].
  split; reflexivity.
Qed.

(** A successful write of a version without carriage return leaves a
    marker that matches the version written. *)
Lemma write_text_matches version_file version w w' t :
  PyStr.occurs PyStr.CR version = false ->
  OS.write_text version_file version w = (Ok tt, w', t) ->
  marker_matches w' version_file version = true.
Proof.
  intros Hcr. unfold OS.write_text, OS.at_path, marker_matches, OS.stat_path.
  destruct (Path.locate (w_cwd w) version_file) as [l|] eqn:Hl; [|discriminate].
  unfold OS.lift. destruct (FS.write l (Text version) (w_fs w)) as [r fs'] eqn:Hw.
  intros Heq; inversion Heq; subst. simpl. rewrite Hl.
  destruct (WriteFacts.write_stat _ _ _ _ Hw) as [m ->].
  rewrite (PyStrFacts.universal_newlines_id _ Hcr). apply String.eqb_refl.
Qed.

(** What [wrapper_run] does, by the outcome of the wrapped function. *)
Lemma wrapper_run_unfold func version version_file args kwargs w :
  wrapper_run func version version_file args kwargs w =
    match func version args kwargs w with
    | (Ok r, w1) =>
        match OS.write_text version_file version w1 with
        | (Ok _, w2, _) => (Ok r, w2, [EvCall version args kwargs])
        | (Raise e, w2, _) => (Raise e, w2, [EvCall version args kwargs])
        end
    | (Raise e, w1) => (Raise e, w1, [EvCall version args kwargs])
    end.
Proof.
  unfold wrapper_run, invoke, bind, emit. simpl.
  destruct (func version args kwargs w) as [[r|e] w1]; [|reflexivity].
  pose proof (write_text_trace version_file version w1) as [Ht _].
  destruct (OS.write_text version_file version w1) as [[[u|e] w2] t2];
    simpl in Ht; subst t2; reflexivity.
Qed.

Lemma wrapper_run_trace func version version_file args kwargs w :
  trace (wrapper_run func version version_file args kwargs w)
    = [EvCall version args kwargs].
Proof.
  rewrite wrapper_run_unfold.
  destruct (func version args kwargs w) as [[r|e] w1]; [|reflexivity].
  destruct (OS.write_text version_file version w1) as [[[u|e] w2] t2]; reflexivity.
Qed.

Lemma wrapper_check_hit func version version_file args kwargs w :
  marker_matches w version_file version = true ->
  wrapper_check func version version_file args kwargs w = (Ok PNone, w, []).
Proof.
  unfold marker_matches, wrapper_check. intros Hm.
  unfold OS.path_exists. rewrite bind_pure.
  destruct (OS.stat_path w version_file) as [[[ver| |] m| |]|] eqn:Hs; try discriminate.
  assert (OS.exists_ w version_file = true) as ->
    by (apply OSFacts.exists_stat; rewrite Hs; eauto).
  unfold OS.read_text, bind. rewrite Hs, Hm. reflexivity.
Qed.

Lemma wrapper_check_miss func version version_file args kwargs w :
  marker_misses w version_file version = true ->
  wrapper_check func version version_file args kwargs w
    = wrapper_run func version version_file args kwargs w.
Proof.
  unfold marker_misses, wrapper_check. intros Hm.
  unfold OS.path_exists. rewrite bind_pure.
  destruct (OS.stat_path w version_file) as [[[ver| |] m| |]|] eqn:Hs; try discriminate.
  - assert (OS.exists_ w version_file = true) as ->
      by (apply OSFacts.exists_stat; rewrite Hs; eauto).
    rewrite (bind_Ok_nil _ _ _ (PyStr.universal_newlines ver) w)
      by (unfold OS.read_text; rewrite Hs; reflexivity).
    apply negb_true_iff in Hm. rewrite Hm. reflexivity.
  - assert (OS.exists_ w version_file = false) as ->
      by (apply OSFacts.exists_false; exact Hs).
    reflexivity.
Qed.

(** Without [ignore_version] (or with a falsy one) the wrapper goes
    straight to the marker check. *)
Lemma versioned_unforced func version version_file args kwargs w :
  forced kwargs = false ->
  versioned func version version_file args kwargs w
    = wrapper_check func version version_file args (delete "ignore_version" kwargs) w.
Proof.
  unfold forced, versioned. intros Hf.
  destruct (kwargs !! "ignore_version") as [v|] eqn:Hk.
  - rewrite Hf. rewrite bind_assoc, bind_ret_l, bind_ret_l. reflexivity.
  - rewrite bind_ret_l. rewrite delete_id by exact Hk. reflexivity.
Qed.

(** With a truthy [ignore_version], [rm_rf] runs first; when it returns,
    the check that follows finds no marker. *)
Lemma versioned_forced func version version_file args kwargs w w1 t :
  forced kwargs = true ->
  rm_rf version_file w = (Ok tt, w1, t) ->
  OS.exists_ w1 version_file = false
  /\ versioned func version version_file args kwargs w
     = wrapper_run func version version_file args (delete "ignore_version" kwargs) w1.
Proof.
  unfold forced, versioned. intros Hf Hrm.
  destruct (kwargs !! "ignore_version") as [v|] eqn:Hk; [|discriminate].
  rewrite Hf. destruct (rm_rf_ok _ _ _ _ Hrm) as (-> & _ & Hex & _).
  split; [exact Hex|].
  rewrite bind_assoc. rewrite (bind_Ok_nil _ _ _ _ _ Hrm).
  rewrite bind_ret_l. apply wrapper_check_miss.
  unfold marker_misses. apply OSFacts.exists_false in Hex. rewrite Hex. reflexivity.
Qed.

(** With a truthy [ignore_version], an exception of [rm_rf] ends the call. *)
Lemma versioned_forced_raise func version version_file args kwargs w e w1 t :
  forced kwargs = true ->
  rm_rf version_file w = (Raise e, w1, t) ->
  versioned func version version_file args kwargs w = (Raise e, w1, t).
Proof.
  unfold forced, versioned. intros Hf Hrm.
  destruct (kwargs !! "ignore_version") as [v|] eqn:Hk; [|discriminate].
  rewrite Hf, bind_assoc. apply bind_Raise, Hrm.
Qed.

End VersionGate.

Section VersionGateClaims.

Implicit Types (func : step) (version version_file : string)
  (args : list pyval) (kwargs : gmap string pyval) (w : world).

(** C7 (amended). With a truthy [ignore_version], [rm_rf] is called on
    the marker path before the check.  Whenever it returns,
    [os.path.exists] no longer sees a marker, whatever was there, and the
    wrapped function is applied exactly once, in the world [rm_rf] left:
    its result is returned once the version is written to the marker, and
    its exception, or that of the write, reaches the caller.  For a marker
    path written without [.] or [..] components and without a trailing
    separator [rm_rf] does return. *)
Theorem C7_force_invalidate func version version_file args kwargs w :
  forced kwargs = true ->
  (forall w1 t,
      rm_rf version_file w = (Ok tt, w1, t) ->
      OS.exists_ w1 version_file = false
      /\ versioned func version version_file args kwargs w
         = match func version args (delete "ignore_version" kwargs) w1 with
           | (Ok r, w2) =>
               match OS.write_text version_file version w2 with
               | (Ok _, w3, _) =>
                   (Ok r, w3, [EvCall version args (delete "ignore_version" kwargs)])
               | (Raise e, w3, _) =>
                   (Raise e, w3, [EvCall version args (delete "ignore_version" kwargs)])
               end
           | (Raise e, w2) =>
               (Raise e, w2, [EvCall version args (delete "ignore_version" kwargs)])
           end)
  /\ (Path.plain version_file = true ->
      exists w1, rm_rf version_file w = (Ok tt, w1, [])).
Proof.
  intros Hf. split.
  - intros w1 t Hrm.
    destruct (versioned_forced func version version_file args kwargs w w1 t Hf Hrm)
      as [Hex Hv].
    split; [exact Hex|]. rewrite Hv. apply wrapper_run_unfold.
  - intros Hp. destruct (rm_rf_plain version_file w Hp) as (fs' & Hrm & _). eauto.
Qed.

(** C3 (amended). Without a truthy [ignore_version]: when the marker
    exists and its contents, read and trimmed, equal the trimmed version,
    the wrapped function is not called and the world, marker included, is
    unchanged; hence, when a first call with a version that holds no
    carriage return finds no matching marker, applies the function and
    returns normally, it has applied it exactly once and a second call with
    the same version and marker path calls nothing and changes nothing. *)
Theorem C3_skip_when_marker_matches func1 func2 version version_file
  args1 args2 kwargs1 kwargs2 w :
  forced kwargs1 = false ->
  forced kwargs2 = false ->
  (marker_matches w version_file version = true ->
   versioned func1 version version_file args1 kwargs1 w = (Ok PNone, w, []))
  /\ (forall r w2 tr,
         PyStr.occurs PyStr.CR version = false ->
         marker_misses w version_file version = true ->
         versioned func1 version version_file args1 kwargs1 w = (Ok r, w2, tr) ->
         tr = [EvCall version args1 (delete "ignore_version" kwargs1)]
         /\ (exists w1 t,
                func1 version args1 (delete "ignore_version" kwargs1) w = (Ok r, w1)
                /\ OS.write_text version_file version w1 = (Ok tt, w2, t))
         /\ versioned func2 version version_file args2 kwargs2 w2 = (Ok PNone, w2, [])).
Proof.
  intros Hf1 Hf2. split.
  - intros Hm. rewrite versioned_unforced by exact Hf1.
    apply wrapper_check_hit, Hm.
  - intros r w2 tr Hcr Hmiss. rewrite versioned_unforced by exact Hf1.
    rewrite wrapper_check_miss by exact Hmiss. rewrite wrapper_run_unfold.
    destruct (func1 version args1 (delete "ignore_version" kwargs1) w) as [[r1|e] w1];
      [|discriminate].
    destruct (OS.write_text version_file version w1) as [[[u|e] w3] t3] eqn:Hw;
      [|discriminate].
    intros Heq; inversion Heq; subst. destruct u. split; [reflexivity|].
    split; [eauto|].
    rewrite versioned_unforced by exact Hf2.
    apply wrapper_check_hit. eapply write_text_matches; [exact Hcr | exact Hw].
Qed.

(** C4 (amended). When the wrapped function is reached -- without a
    truthy [ignore_version] because the check finds no matching marker,
    with one because [rm_rf] returned -- and raises, the exception reaches
    the caller and the wrapper writes nothing: the world is the one the
    function left.  Without [ignore_version], if the function did not
    itself change what the marker path shows, the same call made again
    applies the function again.  With it, [os.path.exists] saw no marker
    when the function ran, and the same call made again applies the
    function again whenever its [rm_rf] returns. *)
Theorem C4_failed_step_keeps_marker func version version_file args kwargs w w0 w1 e :
  (forced kwargs = false /\ w0 = w /\ marker_misses w version_file version = true)
  \/ (forced kwargs = true /\ rm_rf version_file w = (Ok tt, w0, [])) ->
  func version args (delete "ignore_version" kwargs) w0 = (Raise e, w1) ->
  versioned func version version_file args kwargs w
    = (Raise e, w1, [EvCall version args (delete "ignore_version" kwargs)])
  /\ (forced kwargs = false ->
      OS.stat_path w1 version_file = OS.stat_path w version_file ->
      trace (versioned func version version_file args kwargs w1)
        = [EvCall version args (delete "ignore_version" kwargs)])
  /\ (forced kwargs = true ->
      OS.exists_ w0 version_file = false
      /\ forall w2 t,
           rm_rf version_file w1 = (Ok tt, w2, t) ->
           trace (versioned func version version_file args kwargs w1)
             = [EvCall version args (delete "ignore_version" kwargs)]).
Proof.
  intros Hreach Hfail. destruct Hreach as [(Hf & -> & Hmiss) | (Hf & Hrm)].
  - split; [|split].
    + rewrite versioned_unforced by exact Hf.
      rewrite wrapper_check_miss by exact Hmiss.
      rewrite wrapper_run_unfold, Hfail. reflexivity.
    + intros _ Hsame. rewrite versioned_unforced by exact Hf.
      rewrite wrapper_check_miss; [apply wrapper_run_trace|].
      unfold marker_misses in *. rewrite Hsame. exact Hmiss.
    + congruence.
  - destruct (versioned_forced func version version_file args kwargs w w0 [] Hf Hrm)
      as [Hex Hv].
    split; [|split].
    + rewrite Hv, wrapper_run_unfold, Hfail. reflexivity.
    + congruence.
    + intros _. split; [exact Hex|]. intros w2 t Hrm2.
      destruct (versioned_forced func version version_file args kwargs w1 w2 t Hf Hrm2)
        as [_ Hv2].
      rewrite Hv2. apply wrapper_run_trace.
Qed.

End VersionGateClaims.

(** The call [versioned(func)("1.0", "cmake.version", ignore_version=True)]
    where the marker already holds ["1.0"]: the function is called. *)
Lemma C3_counterexample : ~ C3_as_stated.
Proof.
  intros Hc.
  destruct (Hc Scenario.step_ok "1.0" "cmake.version" [] Scenario.force Scenario.marked
              eq_refl) as [Hni _].
  apply Hni. exists "1.0", [], ∅. vm_compute. left. reflexivity.
Qed.

(** The same call with a function that raises: the marker that held ["1.0"]
    is gone afterwards. *)
Lemma C4_counterexample : ~ C4_as_stated.
Proof.
  intros Hc.
  destruct (Hc Scenario.step_fail "1.0" "cmake.version" [] Scenario.force Scenario.marked
              (StepError "boom")) as [_ Hsame].
  - exists "1.0", [], ∅. vm_compute. left. reflexivity.
  - reflexivity.
  - vm_compute in Hsame. discriminate.
Qed.

(** The forced call at the marker path [msquic/.], which names an
    existing directory: [rm_rf] empties the directory and raises, and the
    wrapped function is not called. *)
Lemma C7_counterexample : ~ C7_as_stated.
Proof.
  intros Hc.
  destruct (Hc Scenario.step_ok "1.0" "msquic/." [] Scenario.force Scenario.stale eq_refl)
    as (v & a & k & Hin).
  vm_compute in Hin. exact Hin.
Qed.

Lemma C7_witness :
  let o := versioned Scenario.step_ok "1.0" "cmake.version" [] Scenario.force
             Scenario.marked in
  outcome o = Ok (PStr "installed")
  /\ trace o = [EvCall "1.0" [] (delete "ignore_version" Scenario.force)]
  /\ OS.stat_path (final o) "cmake.version" = Some (File (Text "1.0") 420).
Proof.
  assert (Hf : forced Scenario.force = true) by reflexivity.
  destruct (C7_force_invalidate Scenario.step_ok "1.0" "cmake.version" [] _
              Scenario.marked Hf) as [Hrun Hplain].
  destruct (Hplain eq_refl) as [w1 Hrm].
  destruct (Hrun w1 [] Hrm) as [_ Hv].
  assert (Hw1 : w1 = Scenario.fresh).
  { assert (Hc : rm_rf "cmake.version" Scenario.marked = (Ok tt, Scenario.fresh, []))
      by (vm_compute; reflexivity).
    rewrite Hc in Hrm. inversion Hrm. reflexivity. }
  subst w1. cbv zeta. rewrite Hv. vm_compute. repeat split; reflexivity.
Defined.

Lemma C3_witness :
  versioned Scenario.step_ok "1.0" "cmake.version" [] ∅ Scenario.marked
    = (Ok PNone, Scenario.marked, [])
  /\ versioned Scenario.step_fail "1.0" "cmake.version" [] ∅
       (final (versioned Scenario.step_ok "1.0" "cmake.version" [] ∅ Scenario.fresh))
     = (Ok PNone,
        final (versioned Scenario.step_ok "1.0" "cmake.version" [] ∅ Scenario.fresh), []).
Proof.
  assert (Hf : forced ∅ = false) by reflexivity.
  split.
  - apply (C3_skip_when_marker_matches Scenario.step_ok Scenario.step_ok "1.0"
             "cmake.version" [] [] ∅ ∅ Scenario.marked Hf Hf).
    vm_compute. reflexivity.
  - destruct (C3_skip_when_marker_matches Scenario.step_ok Scenario.step_fail "1.0"
                "cmake.version" [] [] ∅ ∅ Scenario.fresh Hf Hf) as [_ Hsecond].
    destruct (Hsecond (PStr "installed")
                (final (versioned Scenario.step_ok "1.0" "cmake.version" [] ∅ Scenario.fresh))
                (trace (versioned Scenario.step_ok "1.0" "cmake.version" [] ∅ Scenario.fresh)))
      as (_ & _ & Hskip).
    + reflexivity.
    + vm_compute. reflexivity.
    + vm_compute. reflexivity.
    + exact Hskip.
Defined.

Lemma C4_witness :
  versioned Scenario.step_fail "1.1" "cmake.version" [] ∅ Scenario.marked
    = (Raise (StepError "boom"), Scenario.marked, [EvCall "1.1" [] (delete "ignore_version" ∅)])
  /\ trace (versioned Scenario.step_fail "1.1" "cmake.version" [] ∅ Scenario.marked)
     = [EvCall "1.1" [] (delete "ignore_version" ∅)]
  /\ versioned Scenario.step_fail "1.0" "cmake.version" [] Scenario.force Scenario.marked
     = (Raise (StepError "boom"), Scenario.fresh,
        [EvCall "1.0" [] (delete "ignore_version" Scenario.force)]).
Proof.
  assert (Hf : forced ∅ = false) by reflexivity.
  assert (Hm : marker_misses Scenario.marked "cmake.version" "1.1" = true)
    by (vm_compute; reflexivity).
  destruct (C4_failed_step_keeps_marker Scenario.step_fail "1.1" "cmake.version" [] ∅
              Scenario.marked Scenario.marked Scenario.marked (StepError "boom")
              (or_introl (conj Hf (conj eq_refl Hm))) eq_refl) as (H1 & H2 & _).
  split; [exact H1|]. split; [apply H2; [exact Hf|reflexivity]|].
  assert (Hff : forced Scenario.force = true) by reflexivity.
  assert (Hrm : rm_rf "cmake.version" Scenario.marked = (Ok tt, Scenario.fresh, []))
    by (vm_compute; reflexivity).
  exact (proj1 (C4_failed_step_keeps_marker Scenario.step_fail "1.0" "cmake.version" []
                  Scenario.force Scenario.marked Scenario.fresh Scenario.fresh
                  (StepError "boom") (or_intror (conj Hff Hrm)) eq_refl)).
Defined.

Lemma C8_witness :
  extract (H := Scenario.linux) "cmake.tar.bz2" "out" "cmake" None Scenario.marked
    = (Raise (PyException "file should end with .tar.gz or .zip"), Scenario.marked, []).
Proof.
  apply (C8_unsupported_format (H := Scenario.linux)); [discriminate | discriminate | reflexivity | reflexivity].
Defined.

(** ** The download cache: [download] *)

Lemma bind_Ok_tr {A B} (m : M A) (k : A -> M B) w a w1 t1 r w2 t2 :
  m w = (Ok a, w1, t1) -> k a w1 = (r, w2, t2) ->
  bind m k w = (r, w2, (t1 ++ t2)%list).
Proof. intros Hm Hk. unfold bind. rewrite Hm, Hk. reflexivity. Qed.

Section Download.

Context `{Host}.

(** C9. When the destination [download] computes already exists, it is
    returned and no process is spawned; when it does not and the fetch
    raises (leaving no directory at the destination), the same exception is
    raised after the destination has been cleared: a file the fetch left
    there is removed, and [os.path.exists] no longer sees the destination,
    so a later call fetches again. *)
Theorem C9_download_cache_and_cleanup url output_dir filename w :
  let p := download_path url output_dir filename in
  (OS.exists_ w p = true ->
   download url output_dir filename w = (Ok p, w, []))
  /\ (forall e w1 tr,
         OS.exists_ w p = false ->
         fetch url p w = (Raise e, w1, tr) ->
         OS.lstat_path w1 p <> Some Dir ->
         exists w2,
           download url output_dir filename w = (Raise e, w2, tr)
           /\ OS.exists_ w2 p = false
           /\ (forall c m, OS.lstat_path w1 p = Some (File c m) -> OS.lstat_path w2 p = None)).
Proof.
  intros p. split.
  - intros Hex. unfold download. fold p. unfold OS.path_exists.
    rewrite bind_pure, Hex. reflexivity.
  - intros e w1 tr Hex Hfetch Hnd. unfold download. fold p. unfold OS.path_exists at 1.
    rewrite bind_pure, Hex.
    assert (Hatt : attempt (fetch url p) w = (Ok (Raise e), w1, tr))
      by (unfold attempt; rewrite Hfetch; reflexivity).
    destruct (OS.exists_ w1 p) eqn:Hex1.
    + (* something is there: it is removed *)
      pose proof Hex1 as Hs. apply OSFacts.exists_stat in Hs. destruct Hs as [x Hx].
      unfold OS.stat_path in Hx. unfold OS.lstat_path in *.
      destruct (Path.locate (w_cwd w1) p) as [l|] eqn:Hl; [|discriminate].
      destruct (FSFacts.stat_node _ _ _ Hx) as [y Hy]. rewrite Hy in Hnd.
      assert (Hyd : y <> Dir) by congruence.
      assert (Hne : l <> []) by (intros ->; simpl in Hy; congruence).
      exists (World (delete l (w_fs w1)) (w_cwd w1)). split; [|split].
      * rewrite <- (app_nil_r tr). eapply bind_Ok_tr; [exact Hatt|].
        unfold OS.path_exists. rewrite bind_pure, Hex1.
        rewrite (bind_Ok_nil _ _ _ _ _ (OSFacts.remove_ok _ _ _ _ Hl Hy Hyd)).
        reflexivity.
      * apply OSFacts.exists_false. rewrite OSFacts.stat_path_cwd, Hl.
        apply FSFacts.stat_absent, FSFacts.node_at_delete_eq, Hne.
      * intros c m _. simpl. rewrite Hl. apply FSFacts.node_at_delete_eq, Hne.
    + (* nothing is there *)
      exists w1. split; [|split].
      * rewrite <- (app_nil_r tr). eapply bind_Ok_tr; [exact Hatt|].
        unfold OS.path_exists. rewrite bind_pure, Hex1. reflexivity.
      * exact Hex1.
      * intros c m Hfile. apply OSFacts.exists_false in Hex1.
        unfold OS.stat_path, OS.lstat_path in *.
        destruct (Path.locate (w_cwd w1) p) as [l|]; [|reflexivity].
        rewrite (FSFacts.stat_here _ _ _ Hfile) in Hex1 by discriminate. discriminate.
Qed.

End Download.

(** ** Trees: what [rm_rf] followed by [mkdir_p] leaves *)

Module TreeFacts.
Import FS.

Lemma is_prefix_app (l k : loc) :
  Path.is_prefix l k = true <-> exists r, k = (l ++ r)%list.
Proof.
  revert k. induction l as [|a l IH]; intros k; simpl.
  - split; [intros _; exists k; reflexivity | reflexivity].
  - destruct k as [|b k].
    + split; [discriminate | intros [r Hr]; discriminate].
    + rewrite andb_true_iff, String.eqb_eq, IH. split.
      * intros [-> [r ->]]. exists r. reflexivity.
      * intros [r Hr]. inversion Hr; subst. split; [reflexivity | exists r; reflexivity].
Qed.

Lemma is_prefix_self_app (l r : loc) : Path.is_prefix l (l ++ r) = true.
Proof. apply is_prefix_app. exists r. reflexivity. Qed.

Lemma is_prefix_longer (l r : loc) : r <> [] -> Path.is_prefix (l ++ r) l = false.
Proof.
  intros Hr. destruct (Path.is_prefix (l ++ r) l) eqn:E; [|reflexivity].
  apply is_prefix_app in E as [q Hq]. exfalso. apply Hr.
  rewrite <- app_assoc in Hq. rewrite <- (app_nil_r l) in Hq at 1.
  apply app_inv_head in Hq. symmetry in Hq. apply app_eq_nil in Hq. tauto.
Qed.

Lemma parent_snoc (l : loc) (x : string) : Path.parent (l ++ [x]) = l.
Proof. unfold Path.parent. apply removelast_last. Qed.

(** In a tree every proper ancestor of a node is a directory. *)
Lemma tree_ancestor (fs : gmap loc node) (a r : loc) (n : node) :
  tree fs -> fs !! (a ++ r)%list = Some n -> r <> [] -> node_at fs a = Some Dir.
Proof.
  intros Ht. revert n. induction r as [|x r IH] using rev_ind; intros n Hn Hr; [congruence|].
  pose proof (Ht _ _ Hn) as Hp. rewrite app_assoc, parent_snoc in Hp.
  destruct r as [|y r]; [rewrite app_nil_r in Hp; exact Hp|].
  eapply IH; [|discriminate].
  destruct (a ++ y :: r)%list eqn:E; [destruct a; discriminate|exact Hp].
Qed.

(** In a tree nothing hangs below what is not a directory. *)
Lemma tree_no_orphans (fs : gmap loc node) (l k : loc) :
  tree fs -> node_at fs l <> Some Dir ->
  Path.is_prefix l k = true -> k <> l -> fs !! k = None.
Proof.
  intros Ht Hl Hp Hk. apply is_prefix_app in Hp as [r ->].
  destruct (fs !! (l ++ r)%list) as [n|] eqn:E; [|reflexivity].
  exfalso. apply Hl. eapply tree_ancestor; [exact Ht | exact E |].
  intros ->. apply Hk. apply app_nil_r.
Qed.

Lemma tree_prune (fs : gmap loc node) (l : loc) : tree fs -> tree (prune l fs).
Proof.
  intros Ht k n Hk. rewrite FSFacts.lookup_prune in Hk.
  destruct (Path.is_prefix l k) eqn:E; [discriminate|].
  pose proof (Ht _ _ Hk) as Hp.
  destruct (Path.parent k) as [|a q] eqn:Eq; [reflexivity|].
  simpl in *. rewrite FSFacts.lookup_prune.
  destruct (Path.is_prefix l (a :: q)) eqn:E2; [|exact Hp].
  exfalso. apply is_prefix_app in E2 as [r Hr].
  assert (Path.is_prefix l k = true); [|congruence].
  destruct k as [|x k] using rev_ind; [discriminate|].
  rewrite parent_snoc in Eq. subst. rewrite Hr, <- app_assoc.
  apply is_prefix_self_app.
Qed.

Lemma tree_delete_leaf (fs : gmap loc node) (l : loc) :
  tree fs -> node_at fs l <> Some Dir -> tree (delete l fs).
Proof.
  intros Ht Hl k n Hk.
  destruct (decide (l = k)) as [->|Hne]; [rewrite lookup_delete_eq in Hk; discriminate|].
  rewrite lookup_delete_ne in Hk by exact Hne.
  pose proof (Ht _ _ Hk) as Hp.
  rewrite FSFacts.node_at_delete_ne; [exact Hp|].
  intros ->. contradiction.
Qed.

(** [mkdirs] on a path where nothing is: the directory is created and
    whatever lies below the path is left alone. *)
Lemma mkdirs_fresh (segs base : loc) (fs fs' : gmap loc node) :
  mkdirs base segs fs = (Ok tt, fs') ->
  segs <> [] ->
  node_at fs (base ++ segs) = None ->
  node_at fs' (base ++ segs) = Some Dir
  /\ forall k, Path.is_prefix (base ++ segs) k = true -> k <> (base ++ segs)%list ->
               fs' !! k = fs !! k.
Proof.
  revert base fs. induction segs as [|s rest IH]; intros base fs Hm Hne Hnone; [congruence|].
  simpl in Hm. destruct rest as [|s2 rest].
  - rewrite Hnone in Hm. simpl in Hm. inversion Hm; subst. split.
    + apply FSFacts.node_at_insert_eq. destruct base; discriminate.
    + intros k _ Hk. apply lookup_insert_ne. congruence.
  - assert (Hassoc : ((base ++ [s]) ++ s2 :: rest)%list = (base ++ s :: s2 :: rest)%list)
      by (rewrite <- app_assoc; reflexivity).
    assert (Hstep : forall fs1, node_at fs1 (base ++ s :: s2 :: rest) = None ->
              (forall k, Path.is_prefix (base ++ s :: s2 :: rest) k = true -> fs1 !! k = fs !! k) ->
              mkdirs (base ++ [s]) (s2 :: rest) fs1 = (Ok tt, fs') ->
              node_at fs' (base ++ s :: s2 :: rest) = Some Dir
              /\ forall k, Path.is_prefix (base ++ s :: s2 :: rest) k = true ->
                           k <> (base ++ s :: s2 :: rest)%list -> fs' !! k = fs !! k).
    { intros fs1 Hn1 Hsame Hm1. rewrite <- Hassoc in *.
      destruct (IH _ _ Hm1 ltac:(discriminate) Hn1) as [Hd Hk]. split; [exact Hd|].
      intros k Hp Hkne. rewrite (Hk k Hp Hkne). apply Hsame, Hp. }
    destruct (node_at fs (base ++ [s])) as [[c m| |t]|] eqn:E; try discriminate.
    + apply (Hstep fs); [exact Hnone | reflexivity | exact Hm].
    + apply (Hstep (<[(base ++ [s])%list := Dir]> fs)); [| | exact Hm].
      * rewrite FSFacts.node_at_insert_ne; [exact Hnone|].
        rewrite <- Hassoc. intros Heq. rewrite <- (app_nil_r (base ++ [s])) in Heq at 1.
        apply app_inv_head in Heq. discriminate.
      * intros k Hp. apply lookup_insert_ne. intros <-.
        rewrite <- Hassoc in Hp. rewrite is_prefix_longer in Hp; [discriminate|discriminate].
Qed.

(** In a tree [mkdirs] does not succeed on a path occupied by a link that
    leads to no directory. *)
Lemma mkdirs_dangling (segs base : loc) (fs fs' : gmap loc node) (t : string) :
  tree fs ->
  mkdirs base segs fs = (Ok tt, fs') ->
  segs <> [] ->
  node_at fs (base ++ segs) = Some (Symlink t) ->
  stat fs (base ++ segs) = Some Dir.
Proof.
  intros Ht. revert base. induction segs as [|s rest IH]; intros base Hm Hne Hl; [congruence|].
  simpl in Hm. destruct rest as [|s2 rest].
  - rewrite Hl in Hm. destruct (stat fs (base ++ [s])) as [[c m| |t']|]; try discriminate.
    reflexivity.
  - assert (Hassoc : ((base ++ [s]) ++ s2 :: rest)%list = (base ++ s :: s2 :: rest)%list)
      by (rewrite <- app_assoc; reflexivity).
    assert (Hdir : node_at fs (base ++ [s]) = Some Dir).
    { rewrite <- Hassoc in Hl.
      destruct ((base ++ [s]) ++ s2 :: rest)%list eqn:E; [destruct base; discriminate|].
      simpl in Hl. rewrite <- E in Hl.
      eapply tree_ancestor; [exact Ht | exact Hl | discriminate]. }
    rewrite Hdir in Hm. rewrite <- Hassoc in *.
    apply (IH _ Hm); [discriminate|exact Hl].
Qed.

End TreeFacts.

(** ** Computations that leave no trace *)

Section Silent.

Lemma silent_ret {A} (a : A) : silent (ret a).
Proof. intros w. split; reflexivity. Qed.

Lemma silent_read {A} (f : world -> A) : silent (fun w => (Ok (f w), w, [])).
Proof. intros w. split; reflexivity. Qed.

Lemma silent_bind {A B} (m : M A) (k : A -> M B) :
  silent m -> (forall a, silent (k a)) -> silent (bind m k).
Proof.
  intros Hm Hk w. unfold bind. specialize (Hm w).
  destruct (m w) as [[[a|e] w1] t1]; simpl in Hm; destruct Hm as [-> Hc].
  - specialize (Hk a w1). destruct (k a w1) as [[r w2] t2]. simpl in *.
    destruct Hk as [-> Hc2]. split; [reflexivity | congruence].
  - split; [reflexivity | exact Hc].
Qed.

Lemma silent_lift (f : gmap loc node -> result unit * gmap loc node) : silent (OS.lift f).
Proof. intros w. unfold OS.lift. destruct (f (w_fs w)) as [r fs']. split; reflexivity. Qed.

Lemma silent_at_path {A} (p : string) (f : loc -> M A) :
  (forall l, silent (f l)) -> silent (OS.at_path p f).
Proof.
  intros Hf w. unfold OS.at_path.
  destruct (Path.locate (w_cwd w) p) as [l|]; [apply Hf | split; reflexivity].
Qed.

Lemma silent_remove (p : string) : silent (OS.remove p).
Proof. apply silent_at_path. intros l. apply silent_lift. Qed.

Lemma silent_rm_rf (p : string) : silent (rm_rf p).
Proof.
  unfold rm_rf. apply silent_bind; [apply silent_read|]. intros e.
  destruct (negb e); [apply silent_ret|].
  apply silent_bind; [apply silent_read|]. intros f.
  apply silent_bind; [apply silent_read|]. intros l.
  apply silent_bind.
  - destruct (f || l); [apply silent_remove | apply silent_ret].
  - intros _. apply silent_bind; [apply silent_read|]. intros d.
    destruct d; [|apply silent_ret].
    intros w. rewrite rmtree_onerror.
    apply (silent_at_path p (fun k => OS.lift _)). intros k. apply silent_lift.
Qed.


End Silent.

(** ** The shallow clone: [git_clone_shallow] *)

Section ShallowClone.

Context `{Host}.


Lemma cmd_cases (args : list string) (w : world) :
  w_cwd (final (cmd args w)) = w_cwd w
  /\ ((trace (cmd args w) = [] /\ outcome (cmd args w) <> Ok tt)
      \/ trace (cmd args w) = [EvRun args (w_cwd w)]).
Proof.
  unfold cmd. destruct args as [|a0 rest]; [split; [reflexivity|left; split; [reflexivity|discriminate]]|].
  destruct (which a0 w) as [exe|]; [|split; [reflexivity|left; split; [reflexivity|discriminate]]].
  destruct (subprocess_run (exe :: rest) w) as [code fs'].
  destruct (code =? 0); split; try reflexivity; right; reflexivity.
Qed.

(** A run of commands: the processes spawned are an initial part of the
    list, in order, and all of it when every command succeeded. *)
Lemma for_each_cmd_trace (cmds : list (list string)) (w : world) :
  w_cwd (final (for_each cmd cmds w)) = w_cwd w
  /\ (exists n, trace (for_each cmd cmds w) = take n (map (fun a => EvRun a (w_cwd w)) cmds))
  /\ (outcome (for_each cmd cmds w) = Ok tt ->
      trace (for_each cmd cmds w) = map (fun a => EvRun a (w_cwd w)) cmds).
Proof.
  revert w. induction cmds as [|a rest IH]; intros w.
  - simpl. split; [reflexivity|]. split; [exists 0%nat; reflexivity | reflexivity].
  - simpl. unfold bind. destruct (cmd_cases a w) as [Hc Ht].
    destruct (cmd a w) as [[[u|e] w1] t1]; simpl in Hc, Ht.
    + destruct (IH w1) as (Hc1 & [n Hn] & Hfull). rewrite Hc in *.
      destruct (for_each cmd rest w1) as [[r w2] t2]. simpl in *.
      destruct Ht as [[_ Hbad]| ->]; [destruct u; contradiction|].
      split; [exact Hc1|]. split.
      * exists (S n). simpl. rewrite Hn. reflexivity.
      * intros Hok. simpl. rewrite (Hfull Hok). reflexivity.
    + simpl. split; [exact Hc|]. split; [|discriminate].
      destruct Ht as [[-> _]| ->]; [exists 0%nat | exists 1%nat]; reflexivity.
Qed.

Lemma chdir_cases (p : string) (w : world) :
  trace (OS.chdir p w) = [] /\ w_fs (final (OS.chdir p w)) = w_fs w.
Proof.
  unfold OS.chdir, OS.at_path, OS.enter.
  destruct (Path.locate (w_cwd w) p) as [l|]; [|split; reflexivity].
  destruct (FS.follow FS.symloop_max (w_fs w) l) as [t|]; [|split; reflexivity].
  destruct (FS.node_at (w_fs w) t) as [[c m| |s]|]; split; reflexivity.
Qed.

Lemma enter_cases (l : loc) (w : world) :
  trace (OS.enter l w) = [] /\ w_fs (final (OS.enter l w)) = w_fs w.
Proof.
  unfold OS.enter.
  destruct (FS.follow FS.symloop_max (w_fs w) l) as [t|]; [|split; reflexivity].
  destruct (FS.node_at (w_fs w) t) as [[c m| |s]|]; split; reflexivity.
Qed.

Lemma enter_dir (k : loc) (w : world) :
  FS.node_at (w_fs w) k = Some Dir -> OS.enter k w = (Ok tt, World (w_fs w) k, []).
Proof.
  intros Hd. unfold OS.enter.
  rewrite (FSFacts.follow_here _ _ _ _ Hd) by discriminate. rewrite Hd. reflexivity.
Qed.

(** [with cd(p): body], step by step: [os.getcwd()] needs the working
    directory to be there still. *)
Lemma cd_unfold {A} (p : string) (body : M A) (w : world) :
  cd p body w =
    match FS.node_at (w_fs w) (w_cwd w) with
    | Some Dir =>
        match OS.chdir p w with
        | (Ok _, w1, _) =>
            let '(r, w2, t) := body w1 in
            match OS.enter (w_cwd w) w2 with
            | (Ok _, w3, _) => (r, w3, t)
            | (Raise e, w3, _) => (Raise e, w3, t)
            end
        | (Raise e, w1, _) => (Raise e, w1, [])
        end
    | _ => (Raise FileNotFoundError, w, [])
    end.
Proof.
  unfold cd. unfold bind at 1. unfold OS.getcwd.
  destruct (FS.node_at (w_fs w) (w_cwd w)) as [[c m| |s]|]; try reflexivity.
  unfold bind at 1.
  pose proof (chdir_cases p w) as [Ht _].
  destruct (OS.chdir p w) as [[[u|e] w1] t1]; simpl in Ht; subst t1; [|reflexivity].
  unfold bind, attempt. destruct (body w1) as [[r w2] t].
  pose proof (enter_cases (w_cwd w) w2) as [Ht2 _].
  destruct (OS.enter (w_cwd w) w2) as [[[u2|e2] w3] t3]; simpl in Ht2; subst t3.
  - destruct r; simpl; rewrite !app_nil_r; reflexivity.
  - simpl. rewrite app_nil_r. reflexivity.
Qed.

Lemma cd_alive {A} (p : string) (body : M A) (w : world) :
  FS.node_at (w_fs w) (w_cwd w) = Some Dir ->
  cd p body w =
    match OS.chdir p w with
    | (Ok _, w1, _) =>
        let '(r, w2, t) := body w1 in
        match OS.enter (w_cwd w) w2 with
        | (Ok _, w3, _) => (r, w3, t)
        | (Raise e, w3, _) => (Raise e, w3, t)
        end
    | (Raise e, w1, _) => (Raise e, w1, [])
    end.
Proof. intros Hd. rewrite cd_unfold, Hd. reflexivity. Qed.

Lemma cd_dead {A} (p : string) (body : M A) (w : world) :
  FS.node_at (w_fs w) (w_cwd w) <> Some Dir ->
  cd p body w = (Raise FileNotFoundError, w, []).
Proof.
  intros Hd. rewrite cd_unfold.
  destruct (FS.node_at (w_fs w) (w_cwd w)) as [[c m| |s]|]; try reflexivity.
  contradiction.
Qed.

Lemma bind_ret_unit (m : M unit) (w : world) : bind m (fun _ => ret tt) w = m w.
Proof.
  unfold bind, ret. destruct (m w) as [[[[]|e] w1] t1]; [|reflexivity].
  rewrite app_nil_r. reflexivity.
Qed.

Lemma cd_ext {A} (p : string) (b1 b2 : M A) (w : world) :
  (forall w1, b1 w1 = b2 w1) -> cd p b1 w = cd p b2 w.
Proof.
  intros Hb. rewrite !cd_unfold.
  destruct (FS.node_at (w_fs w) (w_cwd w)) as [[c m| |s]|]; try reflexivity.
  destruct (OS.chdir p w) as [[[u|e] w1] t]; [|reflexivity]. rewrite Hb. reflexivity.
Qed.

Lemma cd_commands_trace (p : string) (cmds : list (list string)) (w : world) :
  exists d n, trace (cd p (for_each cmd cmds) w) = take n (map (fun a => EvRun a d) cmds).
Proof.
  rewrite cd_unfold.
  destruct (FS.node_at (w_fs w) (w_cwd w)) as [[c m| |s]|];
    try (exists [], 0%nat; reflexivity).
  destruct (OS.chdir p w) as [[[u|e] w1] t1]; [|exists [], 0%nat; reflexivity].
  destruct (for_each_cmd_trace cmds w1) as (_ & [n Hn] & _).
  destruct (for_each cmd cmds w1) as [[r w2] t]. simpl in Hn.
  exists (w_cwd w1), n. rewrite <- Hn.
  destruct (OS.enter (w_cwd w) w2) as [[[u2|e2] w3] t3]; reflexivity.
Qed.




End ShallowClone.

(** ** Extraction on concrete archives *)

(** The archive of C2 has a file at its root, so no directory is stripped:
    everything lands below [out/name], [d] included. *)
Lemma C2_counterexample : ~ C2_as_stated.
Proof.
  intros Hc. destruct (Hc Scenario.linux "A" "B" "L") as [[m Ha] _].
  vm_compute in Ha. discriminate.
Qed.

(** C2 (amended). For the archive [d/], [d/a.txt], [d/b.txt], [LICENSE],
    as a zip or as a tar file, [extract(archive, "out", "name")] succeeds
    and yields [out/name/d/a.txt], [out/name/d/b.txt] and
    [out/name/LICENSE]: the file at the root keeps [_is_single_dir] from
    stripping [d].  Nothing is put at [out/name/a.txt] or [out/LICENSE]. *)
Theorem C2_root_file_prevents_stripping (a b l : string) :
  let produced (o : result unit * world * list event) :=
    outcome o = Ok tt
    /\ OS.stat_path (final o) "out/name/d/a.txt" = Some (File (Text a) 420)
    /\ OS.stat_path (final o) "out/name/d/b.txt" = Some (File (Text b) 420)
    /\ OS.stat_path (final o) "out/name/LICENSE" = Some (File (Text l) 420)
    /\ OS.lstat_path (final o) "out/name/a.txt" = None
    /\ OS.lstat_path (final o) "out/name/b.txt" = None
    /\ OS.lstat_path (final o) "out/LICENSE" = None in
  is_single_dir_zip (Scenario.licensed_zip a b l) = None
  /\ is_single_dir_tar (Scenario.licensed_tar a b l) = None
  /\ produced (extract (H := Scenario.linux) "pkg.zip" "out" "name" None
                 (Scenario.shipped "pkg.zip" (ZipBytes (Scenario.licensed_zip a b l))))
  /\ produced (extract (H := Scenario.linux) "pkg.tar.gz" "out" "name" None
                 (Scenario.shipped "pkg.tar.gz" (TarBytes (Scenario.licensed_tar a b l)))).
Proof.
  cbv zeta. repeat split; vm_compute; reflexivity.
Qed.

(** ** What a computation maintains *)

Section Keeps.

Context {A B : Type} (P : world -> Prop).

Lemma keeps_ret (a : A) : keeps P (ret a).
Proof. intros w Pw. exact Pw. Qed.


Lemma keeps_read (f : world -> A) : keeps P (fun w => (Ok (f w), w, [])).
Proof. intros w Pw. exact Pw. Qed.

Lemma keeps_bind (m : M A) (k : A -> M B) :
  keeps P m -> (forall a, keeps P (k a)) -> keeps P (bind m k).
Proof.
  intros Hm Hk w Pw. unfold bind. specialize (Hm w Pw).
  destruct (m w) as [[[a|e] w1] t1]; simpl in *; [|exact Hm].
  specialize (Hk a w1 Hm). destruct (k a w1) as [[r w2] t2]. exact Hk.
Qed.


(** Past a first computation, what the rest maintains still holds. *)
Lemma final_bind (m : M A) (k : A -> M B) (w : world) :
  P (final (m w)) -> (forall a, keeps P (k a)) -> P (final (bind m k w)).
Proof.
  intros Hm Hk. unfold bind. destruct (m w) as [[[a|e] w1] t1]; simpl in *; [|exact Hm].
  specialize (Hk a w1 Hm). destruct (k a w1) as [[r w2] t2]. exact Hk.
Qed.

End Keeps.


(** ** A place where nothing is *)

Section Absent.

Variable l : loc.












End Absent.

(** ** Zip members stored as symbolic links: [_extractzip] *)





Section DanglingLink.

Context `{Host}.


End DanglingLink.



(** C5. The member [d/link] of [Scenario.linked_zip] is stored as a
    symbolic link to its sibling [a.txt], which is extracted and exists.
    With the relative destination ["out"], [os.symlink(src, filepath)] runs
    inside [cd(os.path.dirname(filepath))] and resolves the relative
    [filepath] a second time, below [out/d]: it raises, the extraction
    stops after the placeholder was removed, and no link exists.  With the
    absolute destination ["/w/out"] the link is made. *)
Theorem C5_relative_destination_loses_link :
  let w := Scenario.shipped "pkg.zip" (ZipBytes Scenario.linked_zip) in
  let direct := _extractzip (H := Scenario.linux) Scenario.linked_zip "out" Scenario.fresh in
  let rel := extract (H := Scenario.linux) "pkg.zip" "out" "name" None w in
  let abs := extract (H := Scenario.linux) "pkg.zip" "/w/out" "name" None w in
  (outcome direct = Raise FileNotFoundError
   /\ OS.stat_path (final direct) "out/d/a.txt" = Some (File (Text "A") 420)
   /\ OS.lstat_path (final direct) "out/d/link" = None)
  /\ (outcome rel = Raise FileNotFoundError
      /\ OS.lstat_path (final rel) "out/d/link" = None
      /\ OS.lstat_path (final rel) "out/name/link" = None)
  /\ (outcome abs = Ok tt
      /\ OS.lstat_path (final abs) "out/name/link" = Some (Symlink "a.txt")).
Proof.
  cbv zeta. repeat split; vm_compute; reflexivity.
Qed.

(** ** Members stored as links, with an absolute destination *)

Lemma locate_absolute (p : string) (d d' : loc) :
  PyStr.startswith p "/" = true -> Path.locate d p = Path.locate d' p.
Proof.
  intros Habs. unfold Path.locate. destruct (String.eqb p ""); [reflexivity|].
  rewrite Habs. reflexivity.
Qed.

Lemma keeps_link_chmod (l : loc) (src p : string) (m : Z) :
  keeps (fun w => FS.node_at (w_fs w) l = Some (Symlink src)) (OS.chmod p m).
Proof.
  intros w Pw. unfold OS.chmod, OS.at_path.
  destruct (Path.locate (w_cwd w) p) as [k|]; [|exact Pw].
  unfold OS.lift, FS.chmod.
  destruct (FS.follow FS.symloop_max (w_fs w) k) as [t|] eqn:Ef; [|exact Pw].
  destruct (FSFacts.follow_target _ _ _ _ Ef) as (x & Hx & Hns). rewrite Hx.
  destruct x as [c m0| |s]; try exact Pw. simpl.
  rewrite FSFacts.node_at_insert_ne; [exact Pw|]. intros ->. congruence.
Qed.

(** With an absolute destination, the turn of the loop for a member stored
    as a link whose target exists replaces the placeholder by a symbolic
    link holding the stored target. *)
Lemma entry_link_made_absolute (path : string) (e : ZipInfo) (w1 wd : world)
  (t : list event) (l : loc) (raw src : string) (m : Z) :
  zip_is_dir e = false ->
  link_bits e = true ->
  PyStr.startswith (Path.join path (zi_filename e)) "/" = true ->
  Path.locate (w_cwd w1) (Path.join path (zi_filename e)) = Some l ->
  FS.node_at (w_fs w1) l = Some (File (Text raw) m) ->
  src = PyStr.universal_newlines raw ->
  FS.node_at (w_fs w1) (w_cwd w1) = Some Dir ->
  FS.node_at (w_fs w1) (Path.parent l) = Some Dir ->
  OS.chdir (Path.dirname (Path.join path (zi_filename e)))
           (World (delete l (w_fs w1)) (w_cwd w1)) = (Ok tt, wd, t) ->
  OS.exists_ wd src = true ->
  FS.node_at (w_fs (final (extractzip_entry path e w1))) l = Some (Symlink src).
Proof.
  intros Hnd Hbits Habs Hl Hfile -> Hcwd Hpar Hch Hex. unfold extractzip_entry. rewrite Hnd.
  fold (link_bits e). rewrite Hbits.
  set (src := PyStr.universal_newlines raw) in *.
  set (filepath := Path.join path (zi_filename e)) in *.
  set (w1' := World (delete l (w_fs w1)) (w_cwd w1)) in *.
  assert (Hne : l <> []) by (intros ->; discriminate).
  assert (Halive : FS.node_at (w_fs w1') (w_cwd w1') = Some Dir).
  { unfold w1'. simpl. rewrite FSFacts.node_at_delete_ne; [exact Hcwd|].
    intros ->. congruence. }
  assert (Hread : OS.read_text filepath w1 = (Ok src, w1, [])).
  { unfold OS.read_text, OS.stat_path. rewrite Hl.
    rewrite (FSFacts.stat_here _ _ _ Hfile) by discriminate. reflexivity. }
  assert (Hrm : OS.remove filepath w1 = (Ok tt, w1', []))
    by (apply (OSFacts.remove_ok _ _ _ _ Hl Hfile); discriminate).
  rewrite bind_assoc, (bind_Ok_nil _ _ _ _ _ Hread).
  rewrite bind_assoc, (bind_Ok_nil _ _ _ _ _ Hrm).
  apply (final_bind (fun w => FS.node_at (w_fs w) l = Some (Symlink src))).
  - rewrite (cd_alive _ _ _ Halive), Hch.
    pose proof (chdir_cases (Path.dirname filepath) w1') as [_ Hfs].
    rewrite Hch in Hfs. simpl in Hfs.
    assert (Hmk : OS.symlink src filepath wd
                  = (Ok tt, World (<[l := Symlink src]> (w_fs wd)) (w_cwd wd), [])).
    { unfold OS.symlink.
      rewrite (OSFacts.at_path_lift _ (fun k => FS.symlink src k) _ l)
        by (rewrite (locate_absolute _ _ (w_cwd w1) Habs); exact Hl).
      unfold FS.symlink. rewrite Hfs.
      rewrite (FSFacts.node_at_delete_eq _ _ Hne).
      rewrite FSFacts.node_at_delete_ne by (intros Heq; rewrite <- Heq in Hpar; congruence).
      rewrite Hpar. reflexivity. }
    unfold OS.path_exists. rewrite bind_pure, Hex, Hmk.
    pose proof (enter_cases (w_cwd w1')
                  (World (<[l := Symlink src]> (w_fs wd)) (w_cwd wd))) as [_ Hfs2].
    destruct (OS.enter (w_cwd w1') _) as [[[[]|e0] w3] t3]; simpl in Hfs2 |- *;
      rewrite Hfs2; apply FSFacts.node_at_insert_eq, Hne.
  - intros _. apply keeps_bind; [apply keeps_read|]. intros ex.
    destruct ex; [apply keeps_link_chmod | apply keeps_ret].
Qed.

(** ** The examples of the source comments, and the claims at work *)

Example single_dir_commented :
  is_single_dir_tar Scenario.commented_tar = Some "path"
  /\ is_single_dir_zip Scenario.commented_zip = Some "path".
Proof. split; reflexivity. Qed.

(** [extract('libsora-1.23.tar.gz', 'out', 'libsora')] strips the single
    root directory. *)
Example extract_libsora :
  let o := extract (H := Scenario.linux) "libsora-1.23.tar.gz" "out" "libsora" None
             (Scenario.shipped "libsora-1.23.tar.gz" (TarBytes Scenario.libsora_tar)) in
  outcome o = Ok tt
  /\ OS.stat_path (final o) "out/libsora/file1" = Some (File (Text "1") 420)
  /\ OS.stat_path (final o) "out/libsora/file2" = Some (File (Text "2") 420)
  /\ OS.lstat_path (final o) "out/libsora-1.23" = None.
Proof. cbv zeta. repeat split; vm_compute; reflexivity. Qed.

Lemma C1_witness :
  _is_single_dir zi_filename zip_is_dir Scenario.commented_zip = Some "path"
  /\ _is_single_dir zi_filename zip_is_dir (Scenario.licensed_zip "A" "B" "L") = None
  /\ _is_single_dir zi_filename zip_is_dir
       [mkZipInfo "a/x" 0 ""; mkZipInfo "b/y" 0 ""] = None.
Proof.
  destruct (C1_root_detection zi_filename zip_is_dir) as (Hone & Htwo & Hfile & _).
  split; [|split].
  - apply Hone; [discriminate | reflexivity |].
    apply List.Forall_cons; [left; split; reflexivity|].
    apply List.Forall_cons; [right; exists "to"; reflexivity|].
    apply List.Forall_cons; [right; exists "to/file.txt"; reflexivity|].
    apply List.Forall_nil.
  - apply (Hfile _ (mkZipInfo "LICENSE" (Scenario.attr 33188) "L")).
    + simpl. tauto.
    + reflexivity.
    + reflexivity.
  - apply (Htwo _ (mkZipInfo "a/x" 0 "") (mkZipInfo "b/y" 0 "")).
    + simpl. tauto.
    + simpl. tauto.
    + vm_compute. discriminate.
Defined.

Lemma stale_tree : tree (w_fs Scenario.stale).
Proof.
  intros k n Hk. unfold Scenario.stale in Hk. simpl in Hk.
  apply lookup_insert_Some in Hk as [[<- _]|[_ Hk]]; [reflexivity|].
  apply lookup_insert_Some in Hk as [[<- _]|[_ Hk]]; [reflexivity|].
  apply lookup_singleton_Some in Hk as [<- _]. reflexivity.
Qed.


Lemma C9_witness :
  download (H := Scenario.offline) "https://example.org/dl/cmake.version" None None
           Scenario.marked
    = (Ok "cmake.version", Scenario.marked, [])
  /\ exists w2,
       download (H := Scenario.offline) "https://example.org/dl/cmake.tar.gz" None None
                Scenario.fresh
         = (Raise (CalledProcessError 22
                     ["/usr/bin/curl"; "-fLo"; "cmake.tar.gz";
                      "https://example.org/dl/cmake.tar.gz"]),
            w2, [EvRun ["curl"; "-fLo"; "cmake.tar.gz";
                        "https://example.org/dl/cmake.tar.gz"] ["w"]])
       /\ OS.exists_ w2 "cmake.tar.gz" = false.
Proof.
  split.
  - destruct (C9_download_cache_and_cleanup (H := Scenario.offline)
                "https://example.org/dl/cmake.version" None None Scenario.marked)
      as [Hcached _].
    apply Hcached. vm_compute. reflexivity.
  - destruct (C9_download_cache_and_cleanup (H := Scenario.offline)
                "https://example.org/dl/cmake.tar.gz" None None Scenario.fresh)
      as [_ Hfail].
    set (f := fetch (H := Scenario.offline) "https://example.org/dl/cmake.tar.gz"
                "cmake.tar.gz" Scenario.fresh).
    destruct (Hfail (CalledProcessError 22
                       ["/usr/bin/curl"; "-fLo"; "cmake.tar.gz";
                        "https://example.org/dl/cmake.tar.gz"])
                (final f) (trace f)) as (w2 & Hd & Hgone & _).
    + vm_compute. reflexivity.
    + vm_compute. reflexivity.
    + vm_compute. discriminate.
    + exists w2. split; [exact Hd | exact Hgone].
Defined.

(** * Further properties of the helpers *)

(** ** [rm_rf] and [mkdir_p] *)

Lemma rm_rf_unseen (p : string) (w : world) :
  OS.exists_ w p = false -> rm_rf p w = (Ok tt, w, []).
Proof.
  intros Hex. unfold rm_rf, OS.path_exists. rewrite bind_pure, Hex. reflexivity.
Qed.

(** [rm_rf(path)], for a path written without [.] or [..] components and
    without a trailing separator: it returns normally without spawning
    anything and [os.path.exists(path)] is false afterwards; and when no
    directory on the way to the path is a symbolic link, whatever does not
    lie at or below the path is as it was. *)
Theorem rm_rf_removes (p : string) (w : world) :
  Path.plain p = true ->
  exists fs',
    rm_rf p w = (Ok tt, World fs' (w_cwd w), [])
    /\ OS.exists_ (World fs' (w_cwd w)) p = false
    /\ (direct w p ->
        forall l k, Path.locate (w_cwd w) p = Some l ->
                    Path.is_prefix l k = false -> fs' !! k = w_fs w !! k).
Proof.
  intros Hp. destruct (rm_rf_plain p w Hp) as (fs' & Hrm & Hex & Hcase).
  exists fs'. split; [exact Hrm|]. split; [exact Hex|].
  intros _ l k Hl Hk.
  destruct Hcase as [->|(l' & Hl' & [[_ ->]| ->])]; [reflexivity| |];
    rewrite Hl in Hl'; inversion Hl'; subst l'.
  - apply lookup_delete_ne. intros ->. rewrite FSFacts.is_prefix_refl in Hk. discriminate.
  - rewrite FSFacts.lookup_prune, Hk. reflexivity.
Qed.

(** [rm_rf] twice is [rm_rf] once, for a path written without [.] or [..]
    components and without a trailing separator: the second call finds
    nothing to do. *)
Theorem rm_rf_idempotent (p : string) (w : world) :
  Path.plain p = true ->
  rm_rf p (final (rm_rf p w)) = (Ok tt, final (rm_rf p w), []).
Proof.
  intros Hp. destruct (rm_rf_plain p w Hp) as (fs' & Hrm & Hex & _).
  rewrite Hrm. simpl. apply rm_rf_unseen, Hex.
Qed.

Lemma parent_ne (k : loc) : k <> [] -> Path.parent k <> k.
Proof.
  destruct k as [|x k] using rev_ind; [congruence|]. intros _.
  rewrite TreeFacts.parent_snoc. intros Heq.
  apply (f_equal length) in Heq. rewrite length_app in Heq. simpl in Heq. lia.
Qed.

Lemma tree_insert_dir (fs : gmap loc node) (l : loc) :
  tree fs -> l <> [] -> FS.node_at fs (Path.parent l) = Some Dir ->
  tree (<[l := Dir]> fs).
Proof.
  intros Ht Hne Hp k n Hk. destruct (decide (l = k)) as [<-|Hlk].
  - rewrite FSFacts.node_at_insert_ne; [exact Hp|]. intros Heq.
    symmetry in Heq. exact (parent_ne l Hne Heq).
  - rewrite lookup_insert_ne in Hk by exact Hlk. pose proof (Ht _ _ Hk) as Hd.
    destruct (decide (l = Path.parent k)) as [<-|Hlp].
    + apply FSFacts.node_at_insert_eq, Hne.
    + rewrite FSFacts.node_at_insert_ne; assumption.
Qed.

Lemma mkdirs_tree (segs base : loc) (fs : gmap loc node) :
  tree fs -> FS.node_at fs base = Some Dir -> tree (FS.mkdirs base segs fs).2.
Proof.
  revert base fs. induction segs as [|s rest IH]; intros base fs Ht Hb; [exact Ht|].
  simpl. destruct (FS.node_at fs (base ++ [s])) as [[c m| |t]|] eqn:E.
  - destruct rest; exact Ht.
  - apply IH; assumption.
  - destruct rest; [|exact Ht].
    destruct (FS.stat fs (base ++ [s])) as [[c m| |t']|]; exact Ht.
  - assert (Hne : (base ++ [s])%list <> []) by (destruct base; discriminate).
    apply IH.
    + apply tree_insert_dir; [exact Ht | exact Hne |].
      rewrite TreeFacts.parent_snoc. exact Hb.
    + apply FSFacts.node_at_insert_eq, Hne.
Qed.

Lemma tree_empty_out (fs : gmap loc node) (l : loc) :
  tree fs -> tree (FS.empty_out l fs).
Proof.
  intros Ht k n Hk. unfold FS.empty_out in Hk.
  apply map_lookup_filter_Some in Hk as [Hk Hkeep]. simpl in Hkeep.
  pose proof (Ht _ _ Hk) as Hp.
  destruct (Path.parent k) as [|a q] eqn:Eq; [reflexivity|].
  simpl in *. unfold FS.empty_out. apply map_lookup_filter_Some.
  split; [exact Hp|]. simpl.
  destruct (Path.is_prefix l (a :: q)) eqn:E2; [|left; reflexivity].
  right. apply TreeFacts.is_prefix_app in E2 as [r Hr].
  destruct k as [|x k] using rev_ind; [discriminate|].
  rewrite TreeFacts.parent_snoc in Eq. subst k.
  assert (Hpre : Path.is_prefix l ((a :: q) ++ [x]) = true).
  { rewrite Hr, <- app_assoc. apply TreeFacts.is_prefix_self_app. }
  destruct Hkeep as [Hf | Heq]; [congruence|].
  exfalso. rewrite Hr in Heq. apply (f_equal length) in Heq.
  rewrite !length_app in Heq. simpl in Heq. lia.
Qed.

Lemma keeps_tree_rm_rf (p : string) : keeps (fun w => tree (w_fs w)) (rm_rf p).
Proof.
  unfold rm_rf. apply keeps_bind; [apply keeps_read|]. intros e.
  destruct (negb e); [apply keeps_ret|].
  apply keeps_bind; [apply keeps_read|]. intros f.
  apply keeps_bind; [apply keeps_read|]. intros l.
  apply keeps_bind.
  - destruct (f || l); [|apply keeps_ret].
    intros w Ht. unfold OS.remove, OS.at_path.
    destruct (Path.locate (w_cwd w) p) as [k|]; [|exact Ht].
    unfold OS.lift, FS.unlink.
    destruct (FS.node_at (w_fs w) k) as [[c m| |t]|] eqn:E; simpl; try exact Ht;
      apply TreeFacts.tree_delete_leaf; try exact Ht; rewrite E; discriminate.
  - intros _. apply keeps_bind; [apply keeps_read|]. intros d.
    destruct d; [|apply keeps_ret].
    intros w Ht. rewrite rmtree_onerror. unfold OS.at_path.
    destruct (Path.locate (w_cwd w) p) as [k|]; [|exact Ht].
    unfold OS.lift.
    destruct (FS.node_at (w_fs w) k) as [[c m| |t]|]; simpl; try exact Ht.
    destruct (Path.dot_end p); [apply tree_empty_out, Ht|].
    destruct k; simpl; [apply tree_empty_out, Ht | apply TreeFacts.tree_prune, Ht].
Qed.

Lemma keeps_tree_mkdir_p (p : string) : keeps (fun w => tree (w_fs w)) (mkdir_p p).
Proof.
  unfold mkdir_p. apply keeps_bind; [apply keeps_read|]. intros e.
  destruct e; [apply keeps_ret|].
  intros w Ht. unfold OS.makedirs, OS.at_path.
  destruct (Path.locate (w_cwd w) p) as [k|]; [|exact Ht].
  unfold OS.lift. pose proof (mkdirs_tree k [] (w_fs w) Ht eq_refl) as Hm.
  destruct (FS.mkdirs [] k (w_fs w)) as [r fs']. exact Hm.
Qed.

(** [rm_rf] and [mkdir_p] keep the file system a tree, whether they return
    or raise: they never leave a node without a directory above it. *)
Theorem rm_rf_mkdir_p_keep_tree (p : string) :
  keeps (fun w => tree (w_fs w)) (rm_rf p)
  /\ keeps (fun w => tree (w_fs w)) (mkdir_p p).
Proof. split; [apply keeps_tree_rm_rf | apply keeps_tree_mkdir_p]. Qed.

(** [mkdir_p(path)] on a tree, when it returns normally: the path exists
    afterwards; if it existed before -- as a directory or as anything else,
    a regular file included -- nothing was changed; otherwise it is now a
    directory. *)
Theorem mkdir_p_postcondition (p : string) (w : world) :
  tree (w_fs w) ->
  outcome (mkdir_p p w) = Ok tt ->
  OS.exists_ (final (mkdir_p p w)) p = true
  /\ (OS.exists_ w p = true -> mkdir_p p w = (Ok tt, w, []))
  /\ (OS.exists_ w p = false -> OS.isdir_ (final (mkdir_p p w)) p = true).
Proof.
  intros Ht. unfold mkdir_p, OS.path_exists. rewrite bind_pure.
  destruct (OS.exists_ w p) eqn:Hex.
  - intros _. simpl. split; [exact Hex|]. split; [reflexivity|discriminate].
  - intros Hok.
    assert (Hdir : OS.isdir_ (final (OS.makedirs p w)) p = true).
    { unfold OS.makedirs, OS.at_path in *.
      destruct (Path.locate (w_cwd w) p) as [l|] eqn:Hl; [|discriminate].
      unfold OS.lift in *.
      destruct (FS.mkdirs [] l (w_fs w)) as [r fs'] eqn:Hm. simpl in Hok. subst r.
      apply OSFacts.exists_false in Hex. unfold OS.stat_path in Hex. rewrite Hl in Hex.
      assert (Hne : l <> []) by (intros ->; discriminate).
      assert (Hnone : FS.node_at (w_fs w) l = None).
      { destruct (FS.node_at (w_fs w) l) as [[c m| |s]|] eqn:E; [| |exfalso|reflexivity].
        - rewrite (FSFacts.stat_here _ _ _ E) in Hex by discriminate. discriminate.
        - rewrite (FSFacts.stat_here _ _ _ E) in Hex by discriminate. discriminate.
        - pose proof (TreeFacts.mkdirs_dangling l [] _ _ s Ht Hm Hne E) as Hd.
          simpl in Hd. congruence. }
      destruct (TreeFacts.mkdirs_fresh l [] _ _ Hm Hne Hnone) as [Hd _].
      simpl in Hd |- *. unfold OS.isdir_, OS.stat_path. simpl. rewrite Hl.
      rewrite (FSFacts.stat_here _ _ _ Hd) by discriminate. reflexivity. }
    split; [|split; [discriminate|intros _; exact Hdir]].
    apply OSFacts.exists_stat. unfold OS.isdir_ in Hdir.
    destruct (OS.stat_path (final (OS.makedirs p w)) p); [eauto|discriminate].
Qed.

Lemma mkdirs_link_blocked (segs base : loc) (fs : gmap loc node) (t : string) :
  tree fs -> segs <> [] ->
  FS.node_at fs (base ++ segs) = Some (Symlink t) ->
  FS.stat fs (base ++ segs) <> Some Dir ->
  FS.mkdirs base segs fs = (Raise FileExistsError, fs).
Proof.
  intros Ht. revert base. induction segs as [|s rest IH]; intros base Hne Hl Hs; [congruence|].
  simpl. destruct rest as [|s2 rest].
  - rewrite Hl. destruct (FS.stat fs (base ++ [s])) as [[c m| |t']|]; congruence.
  - assert (Hassoc : ((base ++ [s]) ++ s2 :: rest)%list = (base ++ s :: s2 :: rest)%list)
      by (rewrite <- app_assoc; reflexivity).
    assert (Hdir : FS.node_at fs (base ++ [s]) = Some Dir).
    { rewrite <- Hassoc in Hl.
      destruct ((base ++ [s]) ++ s2 :: rest)%list eqn:E; [destruct base; discriminate|].
      simpl in Hl. rewrite <- E in Hl.
      eapply TreeFacts.tree_ancestor; [exact Ht | exact Hl | discriminate]. }
    rewrite Hdir. rewrite <- Hassoc in *. apply IH; [discriminate | exact Hl | exact Hs].
Qed.

(** [git_clone_shallow] on a [dir] that is a symbolic link to nothing:
    [rm_rf] does not see the link and leaves it, [mkdir_p] then fails on
    it, so the call raises [FileExistsError] before any git command and
    the world is as it was. *)
Theorem git_clone_shallow_dangling_link `{Host} (url hash dir t : string) (w : world) :
  tree (w_fs w) ->
  OS.lstat_path w dir = Some (Symlink t) ->
  OS.stat_path w dir = None ->
  git_clone_shallow url hash dir w = (Raise FileExistsError, w, []).
Proof.
  intros Ht Hl Hs. unfold git_clone_shallow.
  assert (Hex : OS.exists_ w dir = false) by (apply OSFacts.exists_false; exact Hs).
  rewrite (bind_Ok_nil _ _ _ _ _ (rm_rf_unseen dir w Hex)).
  apply bind_Raise. unfold mkdir_p, OS.path_exists. rewrite bind_pure, Hex.
  unfold OS.lstat_path, OS.stat_path in *.
  destruct (Path.locate (w_cwd w) dir) as [l|] eqn:Hloc; [|discriminate].
  unfold OS.makedirs. rewrite (OSFacts.at_path_lift _ (fun l => FS.mkdirs [] l) _ l Hloc).
  assert (Hne : l <> []) by (intros ->; discriminate).
  rewrite (mkdirs_link_blocked l [] (w_fs w) t Ht Hne Hl) by (simpl; congruence).
  destruct w; reflexivity.
Qed.

Lemma fresh_tree : tree (w_fs Scenario.fresh).
Proof.
  intros k n Hk. unfold Scenario.fresh in Hk. simpl in Hk.
  apply lookup_singleton_Some in Hk as [<- _]. reflexivity.
Qed.

Lemma dangling_tree : tree (w_fs Scenario.dangling).
Proof.
  intros k n Hk. unfold Scenario.dangling in Hk. simpl in Hk.
  apply lookup_insert_Some in Hk as [[<- _]|[_ Hk]]; [reflexivity|].
  apply lookup_singleton_Some in Hk as [<- _]. reflexivity.
Qed.

Lemma stale_direct : direct Scenario.stale "msquic".
Proof.
  intros l k t Hl Hk Hne Hn. vm_compute in Hl. inversion Hl; subst l.
  destruct k as [|a [|b [|c k]]]; simpl in Hk.
  - discriminate Hn.
  - rewrite andb_true_r in Hk. apply String.eqb_eq in Hk. subst a.
    vm_compute in Hn. discriminate.
  - apply andb_true_iff in Hk as [Ha Hb]. rewrite andb_true_r in Hb.
    apply String.eqb_eq in Ha, Hb. subst. congruence.
  - rewrite !andb_false_r in Hk. discriminate.
Qed.

Lemma rm_rf_removes_witness :
  exists fs',
    rm_rf "msquic" Scenario.stale = (Ok tt, World fs' ["w"], [])
    /\ OS.exists_ (World fs' ["w"]) "msquic" = false
    /\ fs' !! ["w"] = Some Dir.
Proof.
  destruct (rm_rf_removes "msquic" Scenario.stale) as (fs' & Hrm & Hex & Hframe).
  - reflexivity.
  - exists fs'. split; [exact Hrm|]. split; [exact Hex|].
    rewrite (Hframe stale_direct ["w"; "msquic"] ["w"]); reflexivity.
Defined.

Lemma rm_rf_idempotent_witness :
  rm_rf "msquic" (final (rm_rf "msquic" Scenario.stale))
    = (Ok tt, final (rm_rf "msquic" Scenario.stale), []).
Proof. apply rm_rf_idempotent. reflexivity. Defined.

Lemma mkdir_p_postcondition_witness :
  OS.isdir_ (final (mkdir_p "_source/cmake" Scenario.fresh)) "_source/cmake" = true
  /\ mkdir_p "cmake.version" Scenario.marked = (Ok tt, Scenario.marked, []).
Proof.
  split.
  - apply (mkdir_p_postcondition "_source/cmake" Scenario.fresh);
      [exact fresh_tree | vm_compute; reflexivity | vm_compute; reflexivity].
  - reflexivity.
Defined.

Lemma git_clone_shallow_dangling_link_witness :
  git_clone_shallow (H := Scenario.linux)
    "https://github.com/microsoft/msquic.git" "0123abc" "msquic" Scenario.dangling
  = (Raise FileExistsError, Scenario.dangling, []).
Proof.
  apply (git_clone_shallow_dangling_link _ _ _ "gone");
    [exact dangling_tree | reflexivity | vm_compute; reflexivity].
Defined.

(** ** [cd] *)

Lemma chdir_raise (p : string) (w w1 : world) (e : exn) (t : list event) :
  OS.chdir p w = (Raise e, w1, t) -> w1 = w /\ t = [].
Proof.
  unfold OS.chdir, OS.at_path, OS.enter.
  destruct (Path.locate (w_cwd w) p) as [l|]; [|intros Heq; inversion Heq; auto].
  destruct (FS.follow FS.symloop_max (w_fs w) l) as [k|]; [|intros Heq; inversion Heq; auto].
  destruct (FS.node_at (w_fs w) k) as [[c m| |s]|]; intros Heq; inversion Heq; auto.
Qed.

(** [with cd(p): body].  If [os.getcwd()] fails, as it does once the
    working directory is no longer there, its exception ends the call and
    the body is not run.  If it returns the path [old]: when [os.chdir(p)]
    fails, the body is not run and nothing changes; when it succeeds, the
    body runs in the new directory, and provided [old] names a directory
    afterwards, it is the working directory again -- whether the body
    returned or raised -- and the outcome is the body's. *)
Theorem cd_restores_cwd {A} (p : string) (body : M A) (w : world) :
  (forall e, outcome (OS.getcwd w) = Raise e -> cd p body w = (Raise e, w, []))
  /\ (forall old, outcome (OS.getcwd w) = Ok old ->
      (forall e, outcome (OS.chdir p w) = Raise e -> cd p body w = (Raise e, w, []))
      /\ (forall w1,
            final (OS.chdir p w) = w1 ->
            outcome (OS.chdir p w) = Ok tt ->
            FS.node_at (w_fs (final (body w1))) old = Some Dir ->
            cd p body w = (outcome (body w1),
                           World (w_fs (final (body w1))) old,
                           trace (body w1)))).
Proof.
  assert (Hget : forall r, outcome (OS.getcwd w) = r ->
            (FS.node_at (w_fs w) (w_cwd w) = Some Dir /\ r = Ok (w_cwd w))
            \/ (FS.node_at (w_fs w) (w_cwd w) <> Some Dir /\ r = Raise FileNotFoundError)).
  { intros r <-. unfold OS.getcwd.
    destruct (FS.node_at (w_fs w) (w_cwd w)) as [[c m| |s]|]; simpl;
      first [left; split; reflexivity | right; split; [discriminate|reflexivity]]. }
  split.
  { intros e He. destruct (Hget _ He) as [[_ Hr]|[Hdead Hr]]; [discriminate|].
    inversion Hr. apply cd_dead, Hdead. }
  intros old Hold. destruct (Hget _ Hold) as [[Halive Hr]|[_ Hr]]; [|discriminate].
  inversion Hr; subst old. clear Hget Hr Hold. split.
  - intros e He. rewrite (cd_alive _ _ _ Halive).
    destruct (OS.chdir p w) as [[[[]|e0] w1] t] eqn:Hch; simpl in He; [discriminate|].
    inversion He; subst e0. destruct (chdir_raise _ _ _ _ _ Hch) as [-> _]. reflexivity.
  - intros w1 Hw1 Hok Hdir. rewrite (cd_alive _ _ _ Halive).
    destruct (OS.chdir p w) as [[[[]|e0] w1'] t] eqn:Hch; simpl in Hok, Hw1; [|discriminate].
    subst w1'. destruct (body w1) as [[r w2] t2]. simpl in *.
    rewrite (enter_dir _ _ Hdir). reflexivity.
Qed.

(** Entering a directory that was removed meanwhile: after [rm_rf] of the
    working directory nothing can be entered, not even an existing
    directory given by its absolute path. *)
Lemma cd_restores_cwd_witness :
  let w := World (w_fs (final (rm_rf "/w" Scenario.stale))) ["w"] in
  cd "/" (ret tt) w = (Raise FileNotFoundError, w, [])
  /\ cd "msquic" OS.getcwd Scenario.stale = (Ok ["w"; "msquic"], Scenario.stale, []).
Proof.
  split.
  - apply (proj1 (cd_restores_cwd "/" (ret tt) _)). vm_compute. reflexivity.
  - apply (proj2 (proj2 (cd_restores_cwd "msquic" OS.getcwd Scenario.stale) ["w"] eq_refl)
             (World (w_fs Scenario.stale) ["w"; "msquic"])); reflexivity.
Defined.

(** ** [versioned] *)

Lemma read_text_cases (p : string) (w w1 : world) (r : result string) (t : list event) :
  OS.read_text p w = (r, w1, t) -> w1 = w /\ t = [].
Proof.
  unfold OS.read_text.
  destruct (OS.stat_path w p) as [[[s| |] m| |]|]; intros Heq; inversion Heq; auto.
Qed.

Lemma wrapper_check_trace (func : step) (version version_file : string)
  (args : list pyval) (kwargs : gmap string pyval) (w : world) :
  trace (wrapper_check func version version_file args kwargs w) = []
  \/ trace (wrapper_check func version version_file args kwargs w)
     = [EvCall version args kwargs].
Proof.
  unfold wrapper_check, OS.path_exists. rewrite bind_pure.
  destruct (OS.exists_ w version_file);
    [|right; apply wrapper_run_trace].
  destruct (OS.read_text version_file w) as [[[ver|e] w1] t] eqn:Hr;
    destruct (read_text_cases _ _ _ _ _ Hr) as [-> ->].
  - rewrite (bind_Ok_nil _ _ _ _ _ Hr).
    destruct (String.eqb (PyStr.strip ver) (PyStr.strip version));
      [left; reflexivity | right; apply wrapper_run_trace].
  - rewrite (bind_Raise _ _ _ _ _ _ Hr). left. reflexivity.
Qed.

Lemma versioned_trace (func : step) (version version_file : string)
  (args : list pyval) (kwargs : gmap string pyval) (w : world) :
  trace (versioned func version version_file args kwargs w) = []
  \/ trace (versioned func version version_file args kwargs w)
     = [EvCall version args (delete "ignore_version" kwargs)].
Proof.
  destruct (forced kwargs) eqn:Hf.
  - unfold forced in Hf. unfold versioned.
    destruct (kwargs !! "ignore_version") as [v|]; [|discriminate]. rewrite Hf.
    rewrite bind_assoc. destruct (silent_rm_rf version_file w) as [Htr _].
    destruct (rm_rf version_file w) as [[[[]|e] w1] t1] eqn:Hrm; simpl in Htr; subst t1.
    + rewrite (bind_Ok_nil _ _ _ _ _ Hrm), bind_ret_l. apply wrapper_check_trace.
    + rewrite (bind_Raise _ _ _ _ _ _ Hrm). left. reflexivity.
  - rewrite (versioned_unforced _ _ _ _ _ _ Hf). apply wrapper_check_trace.
Qed.

(** One call of a [@versioned] function calls the wrapped function at most
    once, with the version and the positional arguments it was given, and
    never passes [ignore_version] on: the keyword arguments are the
    caller's without that key. *)
Theorem versioned_calls_at_most_once (func : step) (version version_file : string)
  (args : list pyval) (kwargs : gmap string pyval) (w : world) :
  let o := versioned func version version_file args kwargs w in
  (length (trace o) <= 1)%nat
  /\ forall v a k, In (EvCall v a k) (trace o) ->
       v = version /\ a = args
       /\ k !! "ignore_version" = None
       /\ forall key, key <> "ignore_version" -> k !! key = kwargs !! key.
Proof.
  cbv zeta. destruct (versioned_trace func version version_file args kwargs w) as [-> | ->].
  - split; [simpl; lia|]. intros v a k [].
  - split; [simpl; lia|]. intros v a k [Heq|[]]. inversion Heq; subst.
    split; [reflexivity|]. split; [reflexivity|]. split; [apply lookup_delete_eq|].
    intros key Hk. apply lookup_delete_ne. congruence.
Qed.

Lemma wrapper_run_wrote (func : step) (version version_file : string)
  (args : list pyval) (kwargs : gmap string pyval) (w w2 : world) (r : pyval)
  (tr : list event) :
  wrapper_run func version version_file args kwargs w = (Ok r, w2, tr) ->
  exists w1 t, OS.write_text version_file version w1 = (Ok tt, w2, t).
Proof.
  rewrite wrapper_run_unfold. destruct (func version args kwargs w) as [[r1|e] w1];
    [|discriminate].
  destruct (OS.write_text version_file version w1) as [[[[]|e] w3] t] eqn:Hw;
    intros Heq; inversion Heq; subst. eauto.
Qed.

Lemma wrapper_check_wrote (func : step) (version version_file : string)
  (args : list pyval) (kwargs : gmap string pyval) (w w2 : world) (r : pyval)
  (tr : list event) :
  wrapper_check func version version_file args kwargs w = (Ok r, w2, tr) ->
  tr <> [] ->
  exists w1 t, OS.write_text version_file version w1 = (Ok tt, w2, t).
Proof.
  unfold wrapper_check, OS.path_exists. rewrite bind_pure.
  destruct (OS.exists_ w version_file);
    [|intros Hrun _; exact (wrapper_run_wrote _ _ _ _ _ _ _ _ _ Hrun)].
  destruct (OS.read_text version_file w) as [[[ver|e] w1] t] eqn:Hr;
    destruct (read_text_cases _ _ _ _ _ Hr) as [-> ->].
  - rewrite (bind_Ok_nil _ _ _ _ _ Hr).
    destruct (String.eqb (PyStr.strip ver) (PyStr.strip version)).
    + intros Heq Hne. inversion Heq; subst. congruence.
    + intros Hrun _. exact (wrapper_run_wrote _ _ _ _ _ _ _ _ _ Hrun).
  - rewrite (bind_Raise _ _ _ _ _ _ Hr). discriminate.
Qed.

Lemma versioned_wrote (func : step) (version version_file : string)
  (args : list pyval) (kwargs : gmap string pyval) (w w2 : world) (r : pyval)
  (tr : list event) :
  versioned func version version_file args kwargs w = (Ok r, w2, tr) ->
  tr <> [] ->
  exists w1 t, OS.write_text version_file version w1 = (Ok tt, w2, t).
Proof.
  destruct (forced kwargs) eqn:Hf.
  - unfold forced in Hf. unfold versioned.
    destruct (kwargs !! "ignore_version") as [v|]; [|discriminate]. rewrite Hf.
    rewrite bind_assoc. destruct (silent_rm_rf version_file w) as [Htr _].
    destruct (rm_rf version_file w) as [[[[]|e] w1] t1] eqn:Hrm; simpl in Htr; subst t1.
    + rewrite (bind_Ok_nil _ _ _ _ _ Hrm), bind_ret_l. apply wrapper_check_wrote.
    + rewrite (bind_Raise _ _ _ _ _ _ Hrm). discriminate.
  - rewrite (versioned_unforced _ _ _ _ _ _ Hf). apply wrapper_check_wrote.
Qed.

Lemma write_text_read (p s : string) (w w' : world) (t : list event) :
  PyStr.occurs PyStr.CR s = false ->
  OS.write_text p s w = (Ok tt, w', t) -> OS.read_text p w' = (Ok s, w', []).
Proof.
  intros Hcr. unfold OS.write_text, OS.at_path, OS.lift.
  destruct (Path.locate (w_cwd w) p) as [l|] eqn:Hl; [|discriminate].
  destruct (FS.write l (Text s) (w_fs w)) as [[[]|e] fs'] eqn:Hw; [|discriminate].
  intros Heq. inversion Heq; subst. destruct (WriteFacts.write_stat _ _ _ _ Hw) as [m Hm].
  unfold OS.read_text, OS.stat_path. simpl. rewrite Hl, Hm.
  rewrite (PyStrFacts.universal_newlines_id _ Hcr). reflexivity.
Qed.

(** After a call of a [@versioned] function that ran the wrapped function
    and returned, with a version that holds no carriage return, reading
    the marker gives the version string as it was passed, and a later call
    without a truthy [ignore_version] runs its function exactly when the
    trimmed version strings differ; with equal ones it returns [None] and
    changes nothing. *)
Theorem versioned_reruns_iff_version_differs
  (func1 func2 : step) (v1 v2 version_file : string) (args1 args2 : list pyval)
  (kw1 kw2 : gmap string pyval) (w w2 : world) (r : pyval) (tr : list event) :
  PyStr.occurs PyStr.CR v1 = false ->
  versioned func1 v1 version_file args1 kw1 w = (Ok r, w2, tr) ->
  tr <> [] ->
  forced kw2 = false ->
  OS.read_text version_file w2 = (Ok v1, w2, [])
  /\ (PyStr.strip v2 = PyStr.strip v1 ->
      versioned func2 v2 version_file args2 kw2 w2 = (Ok PNone, w2, []))
  /\ (PyStr.strip v2 <> PyStr.strip v1 ->
      trace (versioned func2 v2 version_file args2 kw2 w2)
        = [EvCall v2 args2 (delete "ignore_version" kw2)]).
Proof.
  intros Hcr Hrun Hne Hf.
  destruct (versioned_wrote _ _ _ _ _ _ _ _ _ Hrun Hne) as (w1 & t & Hw).
  pose proof (write_text_read _ _ _ _ _ Hcr Hw) as Hread.
  split; [exact Hread|].
  assert (Hstat : exists raw m,
             OS.stat_path w2 version_file = Some (File (Text raw) m)
             /\ PyStr.universal_newlines raw = v1).
  { unfold OS.read_text in Hread.
    destruct (OS.stat_path w2 version_file) as [[[s| |] m| |]|]; try discriminate.
    inversion Hread; subst. eauto. }
  destruct Hstat as (raw & m & Hstat & Hraw).
  rewrite (versioned_unforced _ _ _ _ _ _ Hf). split.
  - intros Heq. apply wrapper_check_hit. unfold marker_matches. rewrite Hstat, Hraw.
    apply String.eqb_eq. congruence.
  - intros Hdiff. rewrite wrapper_check_miss; [apply wrapper_run_trace|].
    unfold marker_misses. rewrite Hstat, Hraw.
    apply negb_true_iff, String.eqb_neq. congruence.
Qed.

Lemma versioned_reruns_iff_version_differs_witness :
  let w2 := final (versioned Scenario.step_ok "3.29.0" "cmake.version" [] ∅ Scenario.fresh) in
  OS.read_text "cmake.version" w2 = (Ok "3.29.0", w2, [])
  /\ versioned Scenario.step_fail " 3.29.0
" "cmake.version" [] ∅ w2 = (Ok PNone, w2, [])
  /\ trace (versioned Scenario.step_fail "3.30.1" "cmake.version" [] ∅ w2)
     = [EvCall "3.30.1" [] (delete "ignore_version" ∅)].
Proof.
  cbv zeta.
  set (o := versioned Scenario.step_ok "3.29.0" "cmake.version" [] ∅ Scenario.fresh).
  assert (Ho : o = (Ok (PStr "installed"), final o, [EvCall "3.29.0" [] ∅]))
    by (vm_compute; reflexivity).
  assert (Hf : forced ∅ = false) by reflexivity.
  assert (Hne : [EvCall "3.29.0" [] ∅] <> []) by discriminate.
  pose proof (versioned_reruns_iff_version_differs Scenario.step_ok Scenario.step_fail
                "3.29.0" " 3.29.0
" "cmake.version" [] [] ∅ ∅ Scenario.fresh (final o)
                (PStr "installed") [EvCall "3.29.0" [] ∅] eq_refl Ho Hne Hf) as (Hread & Hsame & _).
  pose proof (versioned_reruns_iff_version_differs Scenario.step_ok Scenario.step_fail
                "3.29.0" "3.30.1" "cmake.version" [] [] ∅ ∅ Scenario.fresh (final o)
                (PStr "installed") [EvCall "3.29.0" [] ∅] eq_refl Ho Hne Hf) as (_ & _ & Hdiff).
  split; [exact Hread|]. split.
  - apply Hsame. reflexivity.
  - apply Hdiff. vm_compute. discriminate.
Defined.

(** ** [_is_single_dir], both ways *)

Lemma before_split (c : ascii) (s : string) :
  PyStr.occurs c s = true -> exists rest, s = PyStr.before c s +:+ String c rest.
Proof.
  induction s as [|a r IH]; simpl; [discriminate|].
  destruct (Ascii.eqb_spec a c) as [->|Hne]; simpl.
  - intros _. exists r. reflexivity.
  - intros Hr. destruct (IH Hr) as [rest Hrest]. exists rest.
    rewrite Hrest at 1. reflexivity.
Qed.

Lemma before_clean (c : ascii) (s : string) : PyStr.occurs c (PyStr.before c s) = false.
Proof.
  induction s as [|a r IH]; simpl; [reflexivity|].
  destruct (Ascii.eqb a c) eqn:E; simpl; [reflexivity|]. rewrite E. exact IH.
Qed.

Section SingleDirConverse.

Context {Info : Type}.
Variable get_name : Info -> string.
Variable is_dir : Info -> bool.

Lemma entry_under_dir (d : string) (info : Info) :
  entry_dir get_name is_dir info = Some d ->
  PyStr.occurs PyStr.slash d = false /\ under_dir get_name is_dir d info.
Proof.
  rewrite entry_dir_spec. unfold at_root, top_segment, under_dir.
  set (s := PyStr.rstrip PyStr.slash (get_name info)).
  destruct (PyStr.occurs PyStr.slash s) eqn:E; simpl.
  - intros Heq. inversion Heq; subst d. split; [apply before_clean|].
    right. destruct (before_split _ _ E) as [rest Hrest]. exists rest. exact Hrest.
  - destruct (is_dir info); simpl; [|discriminate].
    intros Heq. inversion Heq; subst d.
    rewrite (PyStrFacts.before_absent _ _ E). split; [exact E|]. left. split; reflexivity.
Qed.

(** [_is_single_dir] returns [d] exactly for a non-empty archive in which
    [d] is a single path segment and every entry is the directory [d] or
    lies below it: besides finding such a root, it never reports a root the
    archive does not have. *)
Theorem is_single_dir_exactly (infos : list Info) (d : string) :
  _is_single_dir get_name is_dir infos = Some d <->
    infos <> []
    /\ PyStr.occurs PyStr.slash d = false
    /\ Forall (under_dir get_name is_dir d) infos.
Proof.
  rewrite is_single_dir_Some. split.
  - intros [Hne Hall]. split; [exact Hne|]. split.
    + destruct infos as [|i rest]; [congruence|]. inversion Hall; subst.
      apply (entry_under_dir d i). assumption.
    + eapply Forall_impl; [exact Hall|]. intros i Hi. apply (entry_under_dir d i Hi).
  - intros (Hne & Hd & Hall). split; [exact Hne|].
    eapply Forall_impl; [exact Hall|]. intros i Hi. simpl.
    apply under_dir_entry; assumption.
Qed.

(** The answer of [_is_single_dir] does not depend on the order in which
    the archive lists its members. *)
Theorem is_single_dir_any_order (infos infos' : list Info) :
  Permutation infos infos' ->
  _is_single_dir get_name is_dir infos = _is_single_dir get_name is_dir infos'.
Proof.
  intros Hp.
  assert (Hto : forall l l' d, Permutation l l' ->
            _is_single_dir get_name is_dir l = Some d ->
            _is_single_dir get_name is_dir l' = Some d).
  { intros l l' d Hperm Hd. apply is_single_dir_Some in Hd as [Hne Hall].
    apply is_single_dir_Some. split.
    - intros ->. apply Permutation_nil_r in Hperm. congruence.
    - eapply Permutation_Forall; eassumption. }
  destruct (_is_single_dir get_name is_dir infos) as [d|] eqn:E.
  - symmetry. apply (Hto infos infos' d Hp E).
  - destruct (_is_single_dir get_name is_dir infos') as [d|] eqn:E'; [|reflexivity].
    rewrite (Hto infos' infos d (Permutation_sym Hp) E') in E. discriminate.
Qed.

End SingleDirConverse.

Lemma is_single_dir_any_order_witness :
  is_single_dir_tar (rev Scenario.commented_tar) = Some "path".
Proof.
  unfold is_single_dir_tar.
  rewrite <- (is_single_dir_any_order ti_name tar_isdir Scenario.commented_tar
                (rev Scenario.commented_tar)); [reflexivity|].
  apply Permutation_rev.
Defined.

(** ** [extract] and [download] *)



(** ** [read_version_file] *)

Module VersionFacts.
Import PyStr.

Lemma length_split_max (c : ascii) (s : string) (n : nat) :
  length (split_max c s n) = S (Nat.min n (count c s)).
Proof.
  revert n. induction s as [|a r IH]; intros n; simpl.
  - rewrite Nat.min_0_r. reflexivity.
  - destruct n as [|n]; [reflexivity|].
    destruct (Ascii.eqb a c); simpl.
    + rewrite IH. reflexivity.
    + specialize (IH (S n)). destruct (split_max c r (S n)); [discriminate|exact IH].
Qed.

Lemma split_max_absent (c : ascii) (s : string) (n : nat) :
  occurs c s = false -> split_max c s n = [s].
Proof.
  revert n. induction s as [|a r IH]; intros n; simpl; [reflexivity|].
  destruct n as [|n]; [reflexivity|].
  destruct (Ascii.eqb a c); simpl; [discriminate|].
  intros Hr. rewrite (IH (S n) Hr). reflexivity.
Qed.

Lemma split_max_app (c : ascii) (k v : string) (n : nat) :
  occurs c k = false ->
  split_max c (k +:+ String c v) (S n) = k :: split_max c v n.
Proof.
  induction k as [|a r IH]; simpl.
  - rewrite Ascii.eqb_refl. reflexivity.
  - destruct (Ascii.eqb a c); simpl; [discriminate|].
    intros Hr. rewrite (IH Hr). reflexivity.
Qed.

Lemma slice_hash (s : string) : String.eqb (slice0 s 1) "#" = startswith s "#".
Proof.
  destruct s as [|a r]; [reflexivity|].
  unfold slice0. simpl. destruct r; destruct (Ascii.eqb a "#"); reflexivity.
Qed.

Lemma len_zero (s : string) : (len s =? 0) = String.eqb s "".
Proof. destruct s; reflexivity. Qed.

Lemma line_accepted (line : string) (versions : gmap string string) :
  version_line_ok line = true ->
  exists versions', read_version_line line versions = Ok versions'.
Proof.
  unfold version_line_ok, read_version_line. cbv zeta.
  rewrite slice_hash, len_zero. set (s := strip line).
  destruct (startswith s "#"); [eauto|].
  destruct (String.eqb s ""); [eauto|]. simpl.
  intros Hc. apply Nat.eqb_eq in Hc.
  pose proof (length_split_max "=" s 2) as Hlen. rewrite Hc in Hlen.
  destruct (split_max "=" s 2) as [|a [|b [|x rest]]]; try discriminate. simpl. eauto.
Qed.

Lemma line_rejected (line : string) (versions : gmap string string) :
  version_line_ok line = false ->
  read_version_line line versions = Raise ValueError.
Proof.
  unfold version_line_ok, read_version_line. cbv zeta.
  rewrite slice_hash, len_zero. set (s := strip line).
  destruct (startswith s "#"); [rewrite orb_true_r; discriminate|].
  destruct (String.eqb s ""); [discriminate|]. simpl.
  intros Hc. apply Nat.eqb_neq in Hc.
  pose proof (length_split_max "=" s 2) as Hlen.
  destruct (split_max "=" s 2) as [|a [|b [|x rest]]]; try reflexivity.
  simpl in Hlen. exfalso. apply Hc.
  destruct (count "=" s) as [|[|n]]; simpl in Hlen; [discriminate|reflexivity|discriminate].
Qed.

Lemma lines_accepted (lines : list string) (versions : gmap string string) :
  forallb version_line_ok lines = true ->
  exists versions', read_version_lines lines versions = Ok versions'.
Proof.
  revert versions. induction lines as [|l rest IH]; intros versions; simpl; [eauto|].
  intros Hall. apply andb_true_iff in Hall as [Hl Hrest].
  destruct (line_accepted l versions Hl) as [v' ->]. apply IH, Hrest.
Qed.

Lemma lines_rejected (lines : list string) (versions : gmap string string) :
  forallb version_line_ok lines = false ->
  read_version_lines lines versions = Raise ValueError.
Proof.
  revert versions. induction lines as [|l rest IH]; intros versions; simpl; [discriminate|].
  destruct (version_line_ok l) eqn:Hl; simpl.
  - intros Hrest. destruct (line_accepted l versions Hl) as [v' ->]. apply IH, Hrest.
  - intros _. rewrite (line_rejected l versions Hl). reflexivity.
Qed.

(** What a text-mode read hands out has its line ends translated
    already. *)
Lemma read_text_translated (path text : string) (w w1 : world) (t : list event) :
  OS.read_text path w = (Ok text, w1, t) -> universal_newlines text = text.
Proof.
  unfold OS.read_text.
  destruct (OS.stat_path w path) as [[[s| |] m| |]|]; try discriminate.
  intros Heq. inversion Heq. apply PyStrFacts.universal_newlines_idem.
Qed.

Lemma readlines_text (path text : string) (w : world) :
  OS.read_text path w = (Ok text, w, []) ->
  OS.readlines path w = (Ok (keepends (universal_newlines text)), w, []).
Proof.
  intros Hr. unfold OS.readlines. rewrite (bind_Ok_nil _ _ _ _ _ Hr).
  rewrite (read_text_translated _ _ _ _ _ Hr). reflexivity.
Qed.

Lemma read_version_file_text (path text : string) (w : world) :
  OS.read_text path w = (Ok text, w, []) ->
  read_version_file path w =
    match read_version_lines (keepends (universal_newlines text)) ∅ with
    | Ok versions => (Ok versions, w, [])
    | Raise e => (Raise e, w, [])
    end.
Proof.
  intros Hr. unfold read_version_file.
  rewrite (bind_Ok_nil _ _ _ _ _ (readlines_text _ _ _ Hr)).
  destruct (read_version_lines _ ∅); reflexivity.
Qed.

(** *** Texts made of lines *)

Lemma occurs_unlines (c : ascii) (lines : list string) :
  c <> LF -> Forall (fun l => occurs c l = false) lines ->
  occurs c (unlines lines) = false.
Proof.
  intros Hc. induction 1 as [|l rest Hl _ IH]; [reflexivity|].
  change (unlines (l :: rest)) with (l +:+ String LF (unlines rest)).
  rewrite PyStrFacts.occurs_app, Hl.
  change (occurs c (String LF (unlines rest)))
    with (Ascii.eqb LF c || occurs c (unlines rest)).
  rewrite IH, orb_false_r. change (Ascii.eqb LF c = false).
  apply Ascii.eqb_neq. congruence.
Qed.

Lemma keepends_line (l rest : string) :
  occurs LF l = false ->
  keepends (l +:+ String LF rest) = (l +:+ String LF "") :: keepends rest.
Proof.
  induction l as [|a r IH]; simpl; [reflexivity|].
  destruct (Ascii.eqb a LF); simpl; [discriminate|].
  intros Hr. rewrite (IH Hr). reflexivity.
Qed.

Lemma keepends_unlines (lines : list string) :
  Forall (fun l => occurs LF l = false) lines ->
  keepends (unlines lines) = map (fun l => l +:+ String LF "") lines.
Proof.
  induction 1 as [|l rest Hl _ IH]; simpl; [reflexivity|].
  rewrite (keepends_line _ _ Hl), IH. reflexivity.
Qed.

Lemma readlines_unlines (lines : list string) :
  Forall one_line lines ->
  keepends (universal_newlines (unlines lines)) = map (fun l => l +:+ String LF "") lines.
Proof.
  intros Hall. rewrite PyStrFacts.universal_newlines_id.
  - apply keepends_unlines. eapply Forall_impl; [exact Hall|]. intros l [Hl _]. exact Hl.
  - apply occurs_unlines; [discriminate|].
    eapply Forall_impl; [exact Hall|]. intros l [_ Hl]. exact Hl.
Qed.

(** *** White space at the ends of a line *)

Lemma rstrip_ws_newline (x : string) : rstrip_ws (x +:+ String LF "") = rstrip_ws x.
Proof.
  induction x as [|a r IH]; [reflexivity|].
  change (String a r +:+ String LF "") with (String a (r +:+ String LF "")).
  simpl. rewrite IH. reflexivity.
Qed.

Lemma lstrip_ws_newline (c : string) :
  lstrip_ws (c +:+ String LF "") = lstrip_ws c +:+ String LF ""
  \/ (lstrip_ws (c +:+ String LF "") = "" /\ lstrip_ws c = "").
Proof.
  induction c as [|a r IH]; [right; split; reflexivity|].
  change (String a r +:+ String LF "") with (String a (r +:+ String LF "")).
  simpl. destruct (is_space a); [exact IH|]. left. reflexivity.
Qed.

Lemma strip_newline (c : string) : strip (c +:+ String LF "") = strip c.
Proof.
  unfold strip. destruct (lstrip_ws_newline c) as [-> | [-> ->]]; [|reflexivity].
  apply rstrip_ws_newline.
Qed.

Lemma lstrip_ws_length (s : string) :
  lstrip_ws s = s \/ (String.length (lstrip_ws s) < String.length s)%nat.
Proof.
  induction s as [|a r IH]; simpl; [left; reflexivity|].
  destruct (is_space a); [|left; reflexivity].
  right. destruct IH as [-> | Hlt]; lia.
Qed.

Lemma rstrip_ws_length (s : string) :
  (String.length (rstrip_ws s) <= String.length s)%nat.
Proof.
  induction s as [|a r IH]; simpl; [lia|].
  destruct (rstrip_ws r) as [|b r'] eqn:E; simpl in *; [|lia].
  destruct (is_space a); simpl; lia.
Qed.

Lemma strip_fixed (s : string) : strip s = s -> lstrip_ws s = s /\ rstrip_ws s = s.
Proof.
  unfold strip. intros Hs.
  destruct (lstrip_ws_length s) as [Hl | Hlt].
  - rewrite Hl in Hs. auto.
  - exfalso. pose proof (rstrip_ws_length (lstrip_ws s)) as Hle.
    rewrite Hs in Hle. lia.
Qed.

Lemma lstrip_ws_keeps (k x : string) (a : ascii) :
  lstrip_ws k = k -> is_space a = false ->
  lstrip_ws (k +:+ String a x) = k +:+ String a x.
Proof.
  intros Hk Ha. destruct k as [|b r]; simpl.
  - rewrite Ha. reflexivity.
  - simpl in Hk. destruct (is_space b) eqn:Hb; [|reflexivity].
    exfalso. destruct (lstrip_ws_length r) as [Hr | Hlt].
    + rewrite Hr in Hk. apply (f_equal String.length) in Hk. simpl in Hk. lia.
    + rewrite Hk in Hlt. simpl in Hlt. lia.
Qed.

Lemma rstrip_ws_keeps (y v : string) :
  rstrip_ws v = v -> v <> "" -> rstrip_ws (y +:+ v) = y +:+ v.
Proof.
  intros Hv Hne. induction y as [|a r IH]; [exact Hv|].
  change (String a r +:+ v) with (String a (r +:+ v)).
  simpl. rewrite IH. destruct (r +:+ v) eqn:E; [|reflexivity].
  destruct r; simpl in E; [contradiction|discriminate].
Qed.

Lemma app_cons_assoc (k : string) (c : ascii) (v : string) :
  (k +:+ String c "") +:+ v = k +:+ String c v.
Proof.
  induction k as [|a r IH]; [reflexivity|].
  change (String a ((r +:+ String c "") +:+ v) = String a (r +:+ String c v)).
  rewrite IH. reflexivity.
Qed.

Lemma strip_entry (k v : string) :
  strip k = k -> strip v = v -> strip (k +:+ String "=" v) = k +:+ String "=" v.
Proof.
  intros Hk Hv. apply strip_fixed in Hk as [Hk _]. apply strip_fixed in Hv as [_ Hv].
  unfold strip. rewrite (lstrip_ws_keeps k v "=" Hk eq_refl).
  destruct v as [|b v'].
  - apply (rstrip_ws_keeps k (String "=" "")); [reflexivity|discriminate].
  - rewrite <- (app_cons_assoc k "=" (String b v')).
    apply rstrip_ws_keeps; [exact Hv|discriminate].
Qed.

Lemma entry_line (k v : string) (versions : gmap string string) :
  clean_entry (k, v) ->
  read_version_line ((k +:+ String "=" v) +:+ String LF "") versions
    = Ok (<[k := strip_char dquote v]> versions).
Proof.
  intros (_ & _ & Hek & Hev & Hk & Hv & Hhash). simpl in *.
  unfold read_version_line. cbv zeta.
  rewrite strip_newline, (strip_entry k v Hk Hv), slice_hash, len_zero.
  assert (Hs : startswith (k +:+ String "=" v) "#" = false).
  { destruct k as [|a r]; [reflexivity|]. simpl in Hhash |- *.
    destruct (Ascii.eqb a "#"); [|reflexivity]. destruct r; discriminate. }
  rewrite Hs.
  assert (Hn : String.eqb (k +:+ String "=" v) "" = false) by (destruct k; reflexivity).
  rewrite Hn, (split_max_app "=" k v 1 Hek), (split_max_absent "=" v 1 Hev).
  simpl. rewrite Hk, Hv. reflexivity.
Qed.

Lemma entries_lines (kvs : list (string * string)) (versions : gmap string string) :
  Forall clean_entry kvs ->
  read_version_lines
    (map (fun l => l +:+ String LF "") (map (fun kv => kv.1 +:+ String "=" kv.2) kvs))
    versions
  = Ok (list_to_map (rev (map (fun kv => (kv.1, strip_char dquote kv.2)) kvs)) ∪ versions).
Proof.
  intros Hall. revert versions.
  induction Hall as [|[k v] rest Hkv _ IH]; intros versions; simpl.
  - rewrite (left_id_L ∅ (∪)). reflexivity.
  - rewrite (entry_line k v versions Hkv), IH. f_equal.
    rewrite list_to_map_app. simpl.
    rewrite <- (assoc_L (∪)). f_equal.
    rewrite insert_union_singleton_l, insert_empty. reflexivity.
Qed.

Lemma entry_one_line (kv : string * string) :
  clean_entry kv -> one_line (kv.1 +:+ String "=" kv.2).
Proof.
  intros ([Hk1 Hk2] & [Hv1 Hv2] & _). unfold one_line.
  rewrite !PyStrFacts.occurs_app. simpl. rewrite Hk1, Hk2, Hv1, Hv2. split; reflexivity.
Qed.

Lemma skip_line (before after : list string) (c : string) (versions : gmap string string) :
  (forall v, read_version_line c v = Ok v) ->
  read_version_lines (before ++ c :: after) versions
    = read_version_lines (before ++ after) versions.
Proof.
  intros Hc. revert versions. induction before as [|l rest IH]; intros versions; simpl.
  - rewrite Hc. reflexivity.
  - destruct (read_version_line l versions); [apply IH|reflexivity].
Qed.

Lemma comment_line (c : string) (v : gmap string string) :
  strip c = "" \/ startswith (strip c) "#" = true ->
  read_version_line (c +:+ String LF "") v = Ok v.
Proof.
  intros Hc. unfold read_version_line. cbv zeta.
  rewrite strip_newline, slice_hash, len_zero.
  destruct Hc as [-> | ->]; reflexivity.
Qed.

End VersionFacts.

(** [read_version_file] on a readable text file returns a dictionary
    exactly when every line, once trimmed, is empty, starts with [#] or
    holds exactly one [=]; any other line -- [KEY] alone, or [A=B=C] --
    makes it raise [ValueError]. *)
Theorem read_version_file_accepts (path text : string) (w : world) :
  OS.read_text path w = (Ok text, w, []) ->
  let lines := PyStr.keepends (PyStr.universal_newlines text) in
  (forallb version_line_ok lines = true ->
   exists versions, read_version_file path w = (Ok versions, w, []))
  /\ (forallb version_line_ok lines = false ->
      read_version_file path w = (Raise ValueError, w, [])).
Proof.
  intros Hr lines. rewrite (VersionFacts.read_version_file_text _ _ _ Hr). fold lines. split.
  - intros Hall. destruct (VersionFacts.lines_accepted lines ∅ Hall) as [v ->]. eauto.
  - intros Hbad. rewrite (VersionFacts.lines_rejected lines ∅ Hbad). reflexivity.
Qed.

(** Reading back a version file written as one [KEY=value] line per entry
    gives every key the value of its last line, with the double quotes
    around the value removed. *)
Theorem read_version_file_round_trip (path : string) (w : world)
  (kvs : list (string * string)) :
  Forall clean_entry kvs ->
  OS.read_text path w
    = (Ok (unlines (map (fun kv => kv.1 +:+ String "=" kv.2) kvs)), w, []) ->
  read_version_file path w
    = (Ok (list_to_map
             (rev (map (fun kv => (kv.1, PyStr.strip_char PyStr.dquote kv.2)) kvs))),
       w, []).
Proof.
  intros Hall Hr. rewrite (VersionFacts.read_version_file_text _ _ _ Hr).
  rewrite VersionFacts.readlines_unlines.
  - rewrite (VersionFacts.entries_lines kvs ∅ Hall), (right_id_L ∅ (∪)). reflexivity.
  - apply Forall_map. eapply Forall_impl; [exact Hall|].
    intros kv Hkv. apply VersionFacts.entry_one_line, Hkv.
Qed.

(** Blank lines and comment lines do not count: two version files that
    differ by one such line read the same. *)
Theorem read_version_file_skips_comments (path1 path2 : string) (w1 w2 : world)
  (before after : list string) (c : string) :
  Forall one_line (before ++ c :: after) ->
  PyStr.strip c = "" \/ PyStr.startswith (PyStr.strip c) "#" = true ->
  OS.read_text path1 w1 = (Ok (unlines (before ++ c :: after)), w1, []) ->
  OS.read_text path2 w2 = (Ok (unlines (before ++ after)), w2, []) ->
  outcome (read_version_file path1 w1) = outcome (read_version_file path2 w2).
Proof.
  intros Hall Hc Hr1 Hr2.
  rewrite (VersionFacts.read_version_file_text _ _ _ Hr1).
  rewrite (VersionFacts.read_version_file_text _ _ _ Hr2).
  rewrite !VersionFacts.readlines_unlines.
  - rewrite !map_app. simpl.
    rewrite (VersionFacts.skip_line _ _ _ ∅ (fun v => VersionFacts.comment_line c v Hc)).
    destruct (read_version_lines _ ∅); reflexivity.
  - apply Forall_app in Hall as [Hb Ha]. inversion Ha; subst.
    apply Forall_app. split; assumption.
  - exact Hall.
Qed.

Lemma read_version_file_accepts_witness :
  let w := Scenario.shipped "VERSION" (Text "MSQUIC_VERSION=v2.3.5
CMAKE_VERSION
") in
  read_version_file "VERSION" w = (Raise ValueError, w, []).
Proof.
  intros w.
  apply (read_version_file_accepts "VERSION" "MSQUIC_VERSION=v2.3.5
CMAKE_VERSION
" w); reflexivity.
Defined.

Lemma read_version_file_round_trip_witness :
  let q := String PyStr.dquote "" in
  let kvs := [("MSQUIC_VERSION", "v2.3.5");
              ("CMAKE_VERSION", q +:+ "3.29.0" +:+ q);
              ("MSQUIC_VERSION", "v2.4.0")] in
  let w := Scenario.shipped "VERSION"
             (Text (unlines (map (fun kv => kv.1 +:+ String "=" kv.2) kvs))) in
  exists versions,
    read_version_file "VERSION" w = (Ok versions, w, [])
    /\ versions !! "MSQUIC_VERSION" = Some "v2.4.0"
    /\ versions !! "CMAKE_VERSION" = Some "3.29.0".
Proof.
  intros q kvs w. eexists. split.
  - apply (read_version_file_round_trip "VERSION" w kvs); [|reflexivity].
    repeat (apply List.Forall_cons; [repeat split; reflexivity|]). apply List.Forall_nil.
  - split; vm_compute; reflexivity.
Defined.

Lemma read_version_file_skips_comments_witness :
  outcome (read_version_file "VERSION"
             (Scenario.shipped "VERSION" (Text (unlines ["A=1"; "  # B=2"; "C=3"]))))
  = outcome (read_version_file "VERSION"
               (Scenario.shipped "VERSION" (Text (unlines ["A=1"; "C=3"])))).
Proof.
  apply (read_version_file_skips_comments "VERSION" "VERSION" _ _ ["A=1"] ["C=3"] "  # B=2").
  - repeat (apply List.Forall_cons; [split; reflexivity|]). apply List.Forall_nil.
  - right. reflexivity.
  - reflexivity.
  - reflexivity.
Defined.

(** ** [add_path] and [cmake_path] *)

Lemma split_app (c : ascii) (a b : string) :
  PyStr.split c (a +:+ String c b) = (PyStr.split c a ++ PyStr.split c b)%list.
Proof.
  induction a as [|x r IH].
  - simpl. rewrite Ascii.eqb_refl. reflexivity.
  - change (String x r +:+ String c b) with (String x (r +:+ String c b)).
    simpl. rewrite IH. destruct (Ascii.eqb x c); [reflexivity|].
    pose proof (PathFacts.split_nonempty c r) as Hne.
    destruct (PyStr.split c r); [congruence|reflexivity].
Qed.

(** [add_path] touches no variable but [PATH].  Without a [PATH] it sets
    it to the new path; otherwise the entries of the new [PATH] -- what
    splitting at the separator gives -- are those of the new path followed
    by the old entries, or the old entries followed by those of the new
    path when [is_after] is set: nothing is dropped or reordered. *)
Theorem add_path_entries `{Host} (path : string) (is_after : bool)
  (environ : gmap string string) :
  let environ' := add_path path is_after environ in
  (forall k, k <> "PATH" -> environ' !! k = environ !! k)
  /\ (environ !! "PATH" = None -> environ' !! "PATH" = Some path)
  /\ (forall old, environ !! "PATH" = Some old ->
        exists sep new,
          PATH_SEPARATOR = String sep ""
          /\ environ' !! "PATH" = Some new
          /\ PyStr.split sep new =
               if is_after then (PyStr.split sep old ++ PyStr.split sep path)%list
               else (PyStr.split sep path ++ PyStr.split sep old)%list).
Proof.
  cbv zeta. unfold add_path. split; [|split].
  - intros k Hk. destruct (environ !! "PATH"); [destruct is_after|];
      apply lookup_insert_ne; congruence.
  - intros ->. apply lookup_insert_eq.
  - intros old ->.
    assert (Hsep : exists sep, PATH_SEPARATOR = String sep "").
    { unfold PATH_SEPARATOR. destruct (String.eqb platform_system "Windows"); eauto. }
    destruct Hsep as [sep Hsep]. rewrite Hsep. exists sep.
    destruct is_after; eexists; (split; [reflexivity|]);
      (split; [apply lookup_insert_eq|]); apply split_app.
Qed.

(** [cmake_path] leaves no backslash, keeps the length, and changes
    nothing in a path that has none; applying it twice is applying it
    once. *)
Theorem cmake_path_no_backslash (path : string) :
  PyStr.occurs PyStr.backslash (cmake_path path) = false
  /\ String.length (cmake_path path) = String.length path
  /\ (PyStr.occurs PyStr.backslash path = false -> cmake_path path = path)
  /\ cmake_path (cmake_path path) = cmake_path path.
Proof.
  assert (Hfix : forall p, PyStr.occurs PyStr.backslash p = false -> cmake_path p = p).
  { unfold cmake_path. induction p as [|a r IH]; simpl; [reflexivity|].
    destruct (Ascii.eqb a PyStr.backslash); simpl; [discriminate|].
    intros Hr. rewrite (IH Hr). reflexivity. }
  assert (Hno : forall p, PyStr.occurs PyStr.backslash (cmake_path p) = false).
  { unfold cmake_path. induction p as [|a r IH]; simpl; [reflexivity|].
    rewrite IH, orb_false_r.
    destruct (Ascii.eqb a PyStr.backslash) eqn:E; [reflexivity|exact E]. }
  split; [apply Hno|]. split; [|split; [apply Hfix | apply Hfix, Hno]].
  unfold cmake_path. induction path as [|a r IH]; simpl; [reflexivity|].
  rewrite IH. reflexivity.
Qed.

(** ** [clone_and_checkout] *)

Lemma endswith_slash (s : string) :
  PyStr.endswith s "/" = true -> exists d, s = d +:+ "/".
Proof.
  induction s as [|a r IH]; [discriminate|].
  change (PyStr.endswith (String a r) "/")
    with (String.eqb (String a r) "/" || PyStr.endswith r "/").
  destruct (String.eqb (String a r) "/") eqn:E.
  - apply String.eqb_eq in E. rewrite E. intros _. exists "". reflexivity.
  - intros Hr. destruct (IH Hr) as [d ->]. exists (String a d). reflexivity.
Qed.

Lemma startswith_app (s t : string) :
  s <> "" -> PyStr.startswith (s +:+ t) "/" = PyStr.startswith s "/".
Proof.
  destruct s as [|a r]; [congruence|]. intros _. simpl.
  destruct (Ascii.eqb a "/"); [|reflexivity].
  destruct (r +:+ t); destruct r; reflexivity.
Qed.

(** [dir/.git] lies directly below [dir]. *)
Lemma locate_join_git (cwd : loc) (dir : string) :
  dir <> "" ->
  exists l, Path.locate cwd dir = Some l
            /\ Path.locate cwd (Path.join dir ".git") = Some (l ++ [".git"])%list.
Proof.
  intros Hne. unfold Path.locate.
  assert (Hd : String.eqb dir "" = false) by (apply String.eqb_neq; exact Hne).
  rewrite Hd. eexists. split; [reflexivity|].
  unfold Path.join. simpl PyStr.startswith. cbv iota. rewrite Hd. simpl orb.
  destruct (PyStr.endswith dir "/") eqn:E.
  - destruct (endswith_slash dir E) as [d ->].
    assert (Hj : String.eqb ((d +:+ "/") +:+ ".git") "" = false)
      by (destruct d; reflexivity).
    rewrite Hj, !startswith_app by (destruct d; discriminate).
    rewrite (VersionFacts.app_cons_assoc d "/" ".git").
    rewrite !split_app. f_equal.
    change (PyStr.split "/" "") with [""].
    change (PyStr.split "/" ".git") with [".git"].
    rewrite !PathFacts.norm_snoc. reflexivity.
  - assert (Hj : String.eqb (dir +:+ "/" +:+ ".git") "" = false)
      by (destruct dir; [congruence|reflexivity]).
    rewrite Hj, startswith_app by exact Hne.
    change (dir +:+ "/" +:+ ".git") with (dir +:+ String "/" ".git").
    rewrite split_app. f_equal.
    change (PyStr.split "/" ".git") with [".git"].
    rewrite PathFacts.norm_snoc. reflexivity.
Qed.

Section CloneAndCheckout.

Context `{Host}.

Lemma checkout_body (version : string) (w : world) :
  bind (cmd ["git"; "fetch"]) (fun _ =>
    bind (cmd ["git"; "reset"; "--hard"]) (fun _ =>
      bind (cmd ["git"; "clean"; "-df"]) (fun _ =>
        cmd ["git"; "checkout"; "-f"; version]))) w
  = for_each cmd (checkout_commands version) w.
Proof.
  simpl. do 3 (apply bind_ext; intros _ ?). symmetry. apply bind_ret_unit.
Qed.

Lemma clone_and_checkout_unfold (url version dir : string) (fetch fetch_force : bool)
  (w : world) :
  clone_and_checkout url version dir fetch fetch_force w =
    bind (if fetch_force then rm_rf dir else ret tt)
      (fun _ w0 =>
         if OS.exists_ w0 (Path.join dir ".git") then
           (if fetch then cd dir (for_each cmd (checkout_commands version)) w0
            else (Ok tt, w0, []))
         else
           bind (cmd ["git"; "clone"; url; dir])
                (fun _ => cd dir (for_each cmd (checkout_commands version))) w0) w.
Proof.
  unfold clone_and_checkout. apply bind_ext. intros _ w0.
  unfold OS.path_exists. rewrite bind_pure.
  destruct (OS.exists_ w0 (Path.join dir ".git")); simpl negb; cbv iota.
  - rewrite bind_ret_l. destruct fetch; [|reflexivity].
    apply cd_ext. intros w1. apply checkout_body.
  - rewrite bind_assoc. apply bind_ext. intros _ w1. rewrite bind_ret_l.
    apply cd_ext. intros w2. apply checkout_body.
Qed.

(** [clone_and_checkout] spawns at most a [git clone], from the directory
    it was called in, and then the four commands fetch, reset --hard,
    clean -df, checkout -f [version] in this order, stopping at the first
    that fails.  Without [fetch_force], when [dir/.git] exists no clone is
    made: with [fetch] the four commands run inside [dir], and without it
    nothing happens at all. *)
Theorem clone_and_checkout_processes (url version dir : string)
  (fetch fetch_force : bool) (w : world) :
  let o := clone_and_checkout url version dir fetch fetch_force w in
  (exists pre d n,
      (pre = [] \/ pre = [EvRun ["git"; "clone"; url; dir] (w_cwd w)])
      /\ trace o
         = (pre ++ take n (map (fun a => EvRun a d) (checkout_commands version)))%list)
  /\ (fetch_force = false -> OS.exists_ w (Path.join dir ".git") = true ->
      o = if fetch then cd dir (for_each cmd (checkout_commands version)) w
          else (Ok tt, w, [])).
Proof.
  cbv zeta. rewrite clone_and_checkout_unfold. split.
  - assert (Hsil : silent (if fetch_force then rm_rf dir else ret tt))
      by (destruct fetch_force; [apply silent_rm_rf | apply silent_ret]).
    destruct (Hsil w) as [Htr Hcwd].
    destruct ((if fetch_force then rm_rf dir else ret tt) w) as [[[[]|e] w0] t0] eqn:Hpre;
      simpl in Htr, Hcwd; subst t0.
    2:{ rewrite (bind_Raise _ _ _ _ _ _ Hpre). exists [], [], 0%nat. auto. }
    rewrite (bind_Ok_nil _ _ _ _ _ Hpre).
    destruct (OS.exists_ w0 (Path.join dir ".git")).
    + destruct fetch; [|exists [], [], 0%nat; auto].
      destruct (cd_commands_trace dir (checkout_commands version) w0) as (d & n & Hn).
      exists [], d, n. auto.
    + destruct (cmd_cases ["git"; "clone"; url; dir] w0) as [_ Hc]. rewrite Hcwd in Hc.
      destruct (cmd ["git"; "clone"; url; dir] w0) as [[[[]|e] w1] t1] eqn:Hclone;
        simpl in Hc.
      * destruct Hc as [[_ Hbad]| ->]; [congruence|].
        destruct (cd_commands_trace dir (checkout_commands version) w1) as (d & n & Hn).
        destruct (cd dir (for_each cmd (checkout_commands version)) w1) as [[r w2] t2] eqn:Hcd.
        rewrite (bind_Ok_tr _ _ _ _ _ _ _ _ _ Hclone Hcd). simpl in Hn |- *.
        eexists _, d, n. split; [right; reflexivity|]. rewrite Hn. reflexivity.
      * rewrite (bind_Raise _ _ _ _ _ _ Hclone). simpl.
        destruct Hc as [[-> _]| ->]; [exists [], [], 0%nat; auto|].
        eexists _, [], 0%nat. split; [right; reflexivity|reflexivity].
  - intros -> Hgit. rewrite bind_ret_l, Hgit. reflexivity.
Qed.

(** With [fetch_force], whatever [fetch] says and whatever was at [dir],
    for a [dir] written without [.] or [..] components and without a
    trailing separator (where [rm_rf] cannot fail): [dir] is removed first,
    so no [dir/.git] is found and the repository is cloned anew before the
    four commands run in it. *)
Theorem clone_and_checkout_forced (url version dir : string) (fetch : bool) (w : world) :
  tree (w_fs w) -> Path.plain dir = true ->
  exists w0,
    rm_rf dir w = (Ok tt, w0, [])
    /\ OS.exists_ w0 dir = false
    /\ clone_and_checkout url version dir fetch true w
       = bind (cmd ["git"; "clone"; url; dir])
              (fun _ => cd dir (for_each cmd (checkout_commands version))) w0.
Proof.
  intros Ht Hplain.
  assert (Hne : dir <> "") by (intros ->; discriminate).
  destruct (rm_rf_plain dir w Hplain) as (fs' & Hrm & Hex & _).
  exists (World fs' (w_cwd w)). split; [exact Hrm|]. split; [exact Hex|].
  rewrite clone_and_checkout_unfold, (bind_Ok_nil _ _ _ _ _ Hrm).
  assert (Hgit : OS.exists_ (World fs' (w_cwd w)) (Path.join dir ".git") = false).
  { pose proof (keeps_tree_rm_rf dir w Ht) as Ht'. rewrite Hrm in Ht'. simpl in Ht'.
    apply OSFacts.exists_false in Hex. apply OSFacts.exists_false.
    rewrite OSFacts.stat_path_cwd in *.
    destruct (locate_join_git (w_cwd w) dir Hne) as (l & Hl & Hlg).
    rewrite Hl in Hex. rewrite Hlg. apply FSFacts.stat_absent.
    assert (Hnd : FS.node_at fs' l <> Some Dir).
    { intros Hd. rewrite (FSFacts.stat_here _ _ _ Hd) in Hex by discriminate. discriminate. }
    assert (Hk : (l ++ [".git"])%list <> []) by (destruct l; discriminate).
    destruct (l ++ [".git"])%list as [|a k] eqn:E; [congruence|]. simpl. rewrite <- E.
    apply (TreeFacts.tree_no_orphans fs' l _ Ht' Hnd).
    - apply TreeFacts.is_prefix_self_app.
    - intros Heq. apply (f_equal length) in Heq. rewrite length_app in Heq.
      simpl in Heq. lia. }
  rewrite Hgit. reflexivity.
Qed.

End CloneAndCheckout.

Lemma clone_and_checkout_forced_witness :
  exists w0,
    rm_rf "msquic" Scenario.stale = (Ok tt, w0, [])
    /\ OS.exists_ w0 "msquic" = false
    /\ trace (clone_and_checkout (H := Scenario.linux)
                "https://github.com/microsoft/msquic.git" "v2.3.5" "msquic" false true
                Scenario.stale)
       = [EvRun ["git"; "clone"; "https://github.com/microsoft/msquic.git"; "msquic"] ["w"]].
Proof.
  destruct (clone_and_checkout_forced (H := Scenario.linux)
              "https://github.com/microsoft/msquic.git" "v2.3.5" "msquic" false
              Scenario.stale stale_tree) as (w0 & Hrm & Hex & Hrun).
  - reflexivity.
  - exists w0. split; [exact Hrm|]. split; [exact Hex|].
    rewrite Hrun. assert (Hw0 : w0 = final (rm_rf "msquic" Scenario.stale))
      by (rewrite Hrm; reflexivity).
    rewrite Hw0. vm_compute. reflexivity.
Defined.

(** ** What spawns a process and what does not *)

Section Quiet.

Context `{Host}.

Lemma quiet_silent {A} (m : M A) : silent m -> quiet m.
Proof. intros Hm w. apply Hm. Qed.

Lemma quiet_ret {A} (a : A) : quiet (ret a).
Proof. intros w. reflexivity. Qed.

Lemma quiet_raise {A} (e : exn) : quiet (@raise A e).
Proof. intros w. reflexivity. Qed.

Lemma quiet_bind {A B} (m : M A) (k : A -> M B) :
  quiet m -> (forall a, quiet (k a)) -> quiet (bind m k).
Proof.
  intros Hm Hk w. unfold bind. specialize (Hm w).
  destruct (m w) as [[[a|e] w1] t1]; simpl in Hm; subst t1; [|reflexivity].
  specialize (Hk a w1). destruct (k a w1) as [[r w2] t2]. exact Hk.
Qed.

Lemma quiet_for_each {A} (body : A -> M unit) (xs : list A) :
  (forall x, quiet (body x)) -> quiet (for_each body xs).
Proof.
  intros Hb. induction xs as [|x rest IH]; simpl; [apply quiet_ret|].
  apply quiet_bind; [apply Hb | intros _; exact IH].
Qed.

Lemma quiet_op (p : string) (f : loc -> gmap loc node -> result unit * gmap loc node) :
  quiet (OS.at_path p (fun l => OS.lift (f l))).
Proof. apply quiet_silent, silent_at_path. intros l. apply silent_lift. Qed.

Lemma quiet_cd {A} (p : string) (body : M A) : quiet body -> quiet (cd p body).
Proof.
  intros Hb w. rewrite cd_unfold.
  destruct (FS.node_at (w_fs w) (w_cwd w)) as [[| |]|]; try reflexivity.
  destruct (OS.chdir p w) as [[[u|e] w1] t1]; [|reflexivity].
  specialize (Hb w1). destruct (body w1) as [[r w2] t]. simpl in Hb. subst t.
  destruct (OS.enter (w_cwd w) w2) as [[[u2|e2] w3] t3]; reflexivity.
Qed.

Lemma quiet_read_text (p : string) : quiet (OS.read_text p).
Proof.
  intros w. unfold OS.read_text.
  destruct (OS.stat_path w p) as [[[s| |] m| |]|]; reflexivity.
Qed.

Lemma quiet_tarfile_open (p : string) : quiet (OS.tarfile_open p).
Proof.
  intros w. unfold OS.tarfile_open.
  destruct (OS.stat_path w p) as [[[s| |] m| |]|]; reflexivity.
Qed.

Lemma quiet_zipfile_open (p : string) : quiet (OS.zipfile_open p).
Proof.
  intros w. unfold OS.zipfile_open.
  destruct (OS.stat_path w p) as [[[s| |] m| |]|]; reflexivity.
Qed.

Lemma quiet_lift (f : gmap loc node -> result unit * gmap loc node) : quiet (OS.lift f).
Proof. apply quiet_silent, silent_lift. Qed.

Lemma quiet_tar_extractall (t : list TarInfo) (path : string) :
  quiet (OS.tar_extractall t path).
Proof.
  intros w. unfold OS.tar_extractall. apply quiet_for_each. intros x.
  unfold OS.tar_extract_member. destruct (ti_type x); apply quiet_lift.
Qed.

Lemma quiet_zip_extractall (z : list ZipInfo) (path : string) :
  quiet (OS.zip_extractall z path).
Proof.
  intros w. unfold OS.zip_extractall. apply quiet_for_each. intros x.
  unfold OS.zip_extract_member.
  destruct (OS.safe_parts (zi_filename x)), (zip_is_dir x);
    try apply quiet_lift; apply quiet_raise.
Qed.

Lemma quiet_entry (path : string) (e : ZipInfo) : quiet (extractzip_entry path e).
Proof.
  unfold extractzip_entry. destruct (zip_is_dir e); [apply quiet_ret|].
  apply quiet_bind.
  - destruct (_ =? _); [|apply quiet_ret].
    apply quiet_bind; [apply quiet_read_text|]. intros src.
    apply quiet_bind; [apply quiet_silent, silent_remove|]. intros _.
    apply quiet_cd. apply quiet_bind; [apply quiet_silent, silent_read|]. intros ex.
    destruct ex; [apply quiet_op | apply quiet_ret].
  - intros _. apply quiet_bind; [apply quiet_silent, silent_read|]. intros ex.
    destruct ex; [apply quiet_op | apply quiet_ret].
Qed.

Lemma quiet_extractzip (z : list ZipInfo) (path : string) : quiet (_extractzip z path).
Proof.
  unfold _extractzip. apply quiet_bind; [apply quiet_zip_extractall|]. intros _.
  destruct (String.eqb platform_system "Windows"); [apply quiet_ret|].
  apply quiet_for_each. intros e. apply quiet_entry.
Qed.

Lemma quiet_replace (src dst : string) : quiet (OS.replace src dst).
Proof.
  apply quiet_silent. unfold OS.replace.
  apply silent_at_path. intros ls. apply silent_at_path. intros ld. apply silent_lift.
Qed.

Lemma quiet_extract (file output_dir output_dirname : string) (filetype : option string) :
  quiet (extract file output_dir output_dirname filetype).
Proof.
  unfold extract.
  destruct (bool_decide (filetype = Some "gzip") || PyStr.endswith file ".tar.gz").
  - apply quiet_bind; [apply quiet_silent, silent_rm_rf|]. intros _.
    apply quiet_bind; [apply quiet_tarfile_open|]. intros t.
    destruct (is_single_dir_tar t) as [d|].
    + apply quiet_bind; [apply quiet_silent, silent_rm_rf|]. intros _.
      apply quiet_bind; [apply quiet_tar_extractall|]. intros _.
      destruct (bool_decide _); [apply quiet_replace | apply quiet_ret].
    + apply quiet_bind; [apply quiet_op|]. intros _.
      apply quiet_tar_extractall.
  - destruct (bool_decide (filetype = Some "zip") || PyStr.endswith file ".zip");
      [|apply quiet_raise].
    apply quiet_bind; [apply quiet_silent, silent_rm_rf|]. intros _.
    apply quiet_bind; [apply quiet_zipfile_open|]. intros z.
    destruct (is_single_dir_zip z) as [d|].
    + apply quiet_bind; [apply quiet_silent, silent_rm_rf|]. intros _.
      apply quiet_bind; [apply quiet_extractzip|]. intros _.
      destruct (bool_decide _); [apply quiet_replace | apply quiet_ret].
    + apply quiet_bind; [apply quiet_op|]. intros _.
      apply quiet_extractzip.
Qed.

(** Extraction is done in the process itself: neither [extract] nor
    [_extractzip] ever spawns a program, whatever the archive, the
    destination and the host are. *)
Theorem extract_spawns_nothing (file output_dir output_dirname : string)
  (filetype : option string) (z : list ZipInfo) (path : string) (w : world) :
  trace (extract file output_dir output_dirname filetype w) = []
  /\ trace (_extractzip z path w) = [].
Proof. split; [apply quiet_extract | apply quiet_extractzip]. Qed.

Lemma bind_raise_outcome {A B} (m : M A) (e : exn) (w : world) (x : B) :
  outcome (bind m (fun _ => @raise B e) w) <> Ok x.
Proof.
  unfold bind, raise. destruct (m w) as [[[a|e0] w1] t1]; simpl; discriminate.
Qed.

Lemma fetch_trace (url p : string) (w : world) :
  w_cwd (final (fetch url p w)) = w_cwd w
  /\ (trace (fetch url p w) = []
      \/ trace (fetch url p w) = [EvRun ["curl"; "-fLo"; p; url] (w_cwd w)]
         /\ which "curl" w <> None
      \/ trace (fetch url p w) = [EvRun ["wget"; "-cO"; p; url] (w_cwd w)]
         /\ which "curl" w = None).
Proof.
  unfold fetch. destruct (which "curl" w) as [exe|] eqn:E.
  - destruct (cmd_cases ["curl"; "-fLo"; p; url] w) as [Hc [[Ht _]|Ht]];
      (split; [exact Hc|]); [left; exact Ht | right; left; split; [exact Ht|discriminate]].
  - destruct (cmd_cases ["wget"; "-cO"; p; url] w) as [Hc [[Ht _]|Ht]];
      (split; [exact Hc|]); [left; exact Ht | right; right; split; [exact Ht|reflexivity]].
Qed.

Lemma download_unfold (url : string) (output_dir filename : option string) (w : world) :
  let p := download_path url output_dir filename in
  OS.exists_ w p = false ->
  exists r w1,
    download url output_dir filename w = (r, w1, trace (fetch url p w))
    /\ (forall x, r = Ok x -> x = p /\ outcome (fetch url p w) = Ok tt).
Proof.
  intros p Hex. unfold download. fold p. unfold OS.path_exists at 1.
  rewrite bind_pure, Hex. unfold bind at 1, attempt.
  destruct (fetch url p w) as [[[[]|e] w1] t1]; simpl.
  - exists (Ok p), w1. rewrite app_nil_r. split; [reflexivity|].
    intros x Hx. inversion Hx. auto.
  - assert (Hq : quiet (bind (OS.path_exists p) (fun e' =>
                   bind (if e' then OS.remove p else ret tt)
                        (fun _ => @raise string e)))).
    { apply quiet_bind; [apply quiet_silent, silent_read|]. intros e'.
      apply quiet_bind; [|intros _; apply quiet_raise].
      destruct e'; [apply quiet_silent, silent_remove | apply quiet_ret]. }
    specialize (Hq w1).
    destruct (bind (OS.path_exists p) _ w1) as [[r w2] t2] eqn:Hrest.
    simpl in Hq. subst t2. rewrite app_nil_r.
    assert (Hr : forall x, r <> Ok x).
    { intros x ->. unfold OS.path_exists in Hrest. rewrite bind_pure in Hrest.
      apply (bind_raise_outcome (if OS.exists_ w1 p then OS.remove p else ret tt) e w1 x).
      rewrite Hrest. reflexivity. }
    exists r, w2. split; [reflexivity|]. intros x Hx. exfalso. exact (Hr x Hx).
Qed.

(** When [download] returns, it returns the destination it computed, and
    either that destination existed and nothing was spawned, or exactly
    one process was: [curl -fLo destination url] where [curl] is found,
    [wget -cO destination url] where it is not. *)
Theorem download_result (url : string) (output_dir filename : option string)
  (w : world) (x : string) :
  outcome (download url output_dir filename w) = Ok x ->
  let p := download_path url output_dir filename in
  x = p
  /\ (OS.exists_ w p = true /\ download url output_dir filename w = (Ok p, w, [])
      \/ OS.exists_ w p = false
         /\ trace (download url output_dir filename w)
            = [EvRun (match which "curl" w with
                      | Some _ => ["curl"; "-fLo"; p; url]
                      | None => ["wget"; "-cO"; p; url]
                      end) (w_cwd w)]).
Proof.
  intros Hok p. destruct (OS.exists_ w p) eqn:Hex.
  - assert (Hd : download url output_dir filename w = (Ok p, w, [])).
    { unfold download. fold p. unfold OS.path_exists. rewrite bind_pure, Hex. reflexivity. }
    rewrite Hd in Hok. inversion Hok. split; [reflexivity|]. left. auto.
  - destruct (download_unfold url output_dir filename w Hex) as (r & w1 & Hd & Hr).
    fold p in Hd, Hr. rewrite Hd in Hok |- *. simpl in Hok. subst r.
    destruct (Hr x eq_refl) as [-> Hfetch]. split; [reflexivity|]. right.
    split; [reflexivity|]. simpl.
    unfold fetch in *. destruct (which "curl" w) as [exe|].
    + destruct (cmd_cases ["curl"; "-fLo"; p; url] w) as [_ [[_ Hbad]|Ht]];
        [contradiction | exact Ht].
    + destruct (cmd_cases ["wget"; "-cO"; p; url] w) as [_ [[_ Hbad]|Ht]];
        [contradiction | exact Ht].
Qed.

Lemma download_trace (url : string) (output_dir filename : option string) (w : world) :
  let p := download_path url output_dir filename in
  (OS.exists_ w p = true -> trace (download url output_dir filename w) = [])
  /\ (trace (download url output_dir filename w) = []
      \/ trace (download url output_dir filename w)
         = [EvRun ["curl"; "-fLo"; p; url] (w_cwd w)]
      \/ trace (download url output_dir filename w)
         = [EvRun ["wget"; "-cO"; p; url] (w_cwd w)]).
Proof.
  intros p. destruct (OS.exists_ w p) eqn:Hex.
  - assert (Hd : download url output_dir filename w = (Ok p, w, [])).
    { unfold download. fold p. unfold OS.path_exists. rewrite bind_pure, Hex. reflexivity. }
    rewrite Hd. split; [reflexivity|]. left. reflexivity.
  - split; [discriminate|].
    destruct (download_unfold url output_dir filename w Hex) as (r & w1 & Hd & _).
    fold p in Hd. rewrite Hd. simpl.
    destruct (fetch_trace url p w) as [_ [Ht|[[Ht _]|[Ht _]]]]; auto.
Qed.

(** The trace of a download followed by quiet work is the download's. *)
Lemma download_then_quiet {B} (url : string) (output_dir filename : option string)
  (k : string -> M B) (w : world) :
  (forall a, quiet (k a)) ->
  trace (bind (download url output_dir filename) k w)
    = trace (download url output_dir filename w).
Proof.
  intros Hk. unfold bind.
  destruct (download url output_dir filename w) as [[[a|e] w1] t1]; [|reflexivity].
  specialize (Hk a w1). destruct (k a w1) as [[r w2] t2]. simpl in *. subst t2.
  apply app_nil_r.
Qed.

(** The functions behind [install_cmake] and [install_android_ndk] spawn
    at most one process, the download of the archive into [source_dir]
    with curl or wget, and none at all when the archive is already there. *)
Theorem install_spawns_only_download
  (version source_dir install_dir platform ext : string) (w : world) :
  let fetches (url : string) (tr : list event) :=
    let p := download_path url (Some source_dir) None in
    (OS.exists_ w p = true -> tr = [])
    /\ (tr = [] \/ tr = [EvRun ["curl"; "-fLo"; p; url] (w_cwd w)]
        \/ tr = [EvRun ["wget"; "-cO"; p; url] (w_cwd w)]) in
  fetches ("https://github.com/Kitware/CMake/releases/download/v" +:+ version
           +:+ "/cmake-" +:+ version +:+ "-" +:+ platform +:+ "." +:+ ext)
          (trace (install_cmake version source_dir install_dir platform ext w))
  /\ fetches ("https://dl.google.com/android/repository/android-ndk-"
              +:+ version +:+ "-linux.zip")
             (trace (install_android_ndk version install_dir source_dir w)).
Proof.
  cbv zeta. split.
  - unfold install_cmake. rewrite download_then_quiet by (intros a; apply quiet_extract).
    apply download_trace.
  - unfold install_android_ndk. rewrite download_then_quiet.
    + apply download_trace.
    + intros a. apply quiet_bind; [apply quiet_silent, silent_rm_rf|].
      intros _. apply quiet_extract.
Qed.

End Quiet.

Lemma download_result_witness :
  let o := download (H := Scenario.linux)
             "https://example.org/dl/cmake.tar.gz" (Some "_source") None Scenario.fresh in
  trace o = [EvRun ["curl"; "-fLo"; "_source/cmake.tar.gz";
                    "https://example.org/dl/cmake.tar.gz"] ["w"]].
Proof.
  destruct (download_result (H := Scenario.linux)
              "https://example.org/dl/cmake.tar.gz" (Some "_source") None Scenario.fresh
              "_source/cmake.tar.gz") as [_ [[Hex _]|[_ Htr]]].
  - vm_compute. reflexivity.
  - vm_compute in Hex. discriminate.
  - exact Htr.
Defined.

(** ** File modes set by [_extractzip] *)

(** The turn of the loop of [_extractzip] for a member that is neither a
    directory nor stored as a link, extracted as a regular file: the file
    keeps its content and gets the nine permission bits of the stored
    mode, nothing else -- so a member stored without Unix mode bits (an
    archive made on Windows) ends up with mode 0. *)
Theorem extractzip_entry_sets_mode (path : string) (e : ZipInfo) (w : world)
  (c : content) (m : Z) :
  zip_is_dir e = false ->
  link_bits e = false ->
  OS.lstat_path w (Path.join path (zi_filename e)) = Some (File c m) ->
  let o := extractzip_entry path e w in
  let mode := Z.land (Z.shiftr (zi_external_attr e) 16) 511 in
  outcome o = Ok tt
  /\ OS.lstat_path (final o) (Path.join path (zi_filename e)) = Some (File c mode)
  /\ 0 <= mode <= 511
  /\ (zi_external_attr e = 0 -> mode = 0).
Proof.
  intros Hnd Hbits Hfile o mode. subst o.
  unfold OS.lstat_path in Hfile.
  destruct (Path.locate (w_cwd w) (Path.join path (zi_filename e))) as [l|] eqn:Hl;
    [|discriminate].
  assert (Hrun : extractzip_entry path e w
                 = (Ok tt, World (<[l := File c mode]> (w_fs w)) (w_cwd w), [])).
  { unfold extractzip_entry. rewrite Hnd. fold (link_bits e). rewrite Hbits.
    rewrite bind_ret_l. unfold OS.path_exists. rewrite bind_pure.
    assert (Hex : OS.exists_ w (Path.join path (zi_filename e)) = true).
    { apply OSFacts.exists_stat. unfold OS.stat_path. rewrite Hl.
      rewrite (FSFacts.stat_here _ _ _ Hfile) by discriminate. eauto. }
    rewrite Hex. unfold OS.chmod.
    rewrite (OSFacts.at_path_lift _ (fun l => FS.chmod l _) _ l Hl).
    unfold FS.chmod. rewrite (FSFacts.follow_here _ _ _ _ Hfile) by discriminate.
    rewrite Hfile. reflexivity. }
  rewrite Hrun. simpl. split; [reflexivity|]. split; [|split].
  - unfold OS.lstat_path. simpl. rewrite Hl.
    apply FSFacts.node_at_insert_eq. intros ->. discriminate.
  - subst mode. change 511 with (Z.ones 9). rewrite Z.land_ones by lia.
    pose proof (Z.mod_pos_bound (Z.shiftr (zi_external_attr e) 16) (2 ^ 9)) as Hb.
    change (Z.ones 9) with (2 ^ 9 - 1). lia.
  - intros Hz. subst mode. rewrite Hz. reflexivity.
Qed.

Lemma extractzip_entry_sets_mode_witness :
  let e := mkZipInfo "README.md" 0 "hello" in
  let w := Scenario.shipped "README.md" (Text "hello") in
  OS.lstat_path (final (extractzip_entry "" e w)) "README.md" = Some (File (Text "hello") 0).
Proof.
  intros e w.
  apply (extractzip_entry_sets_mode "" e w (Text "hello") 420); reflexivity.
Defined.
